(** * Network Share Automount: a shallow embedding of [extension.js]

    The development follows the source file top to bottom: JavaScript strings
    and the file-name sanitiser, the extension's data (bookmarks, settings,
    timers, the tracked symlinks), the operating-system collaborators
    (file system, mount table, GLib main loop), and then the methods of
    [NetworkMountIndicator] as state transformers.  Menu rendering
    ([_buildMenu], [_updateStatus], [_updateMainItemLabel],
    [_populateBookmarkSubmenu]) only paints widgets and is left out; every
    other effect of a method is kept. *)

From Stdlib Require Import ZArith NArith List String Ascii Bool Lia.
From stdpp Require Import base option list gmap sets strings.

Local Open Scope N_scope.

(** ** JavaScript strings

    A JavaScript string is a sequence of UTF-16 code units; the regular
    expressions of the source carry no [u] flag, so they work on code
    units.  A code unit is an [N] below 65536. *)

Abbreviation jsstring := (list N).

Definition js (s : string) : jsstring :=
  map N_of_ascii (list_ascii_of_string s).

Definition underscore : N := 95.
Definition slash : N := 47.

Definition is_underscore (c : N) : bool := c =? underscore.

(** The character class of the first replace of [_sanitizeForFilename]:
    less-than, greater-than, colon, double quote, slash, backslash, bar,
    question mark and star. *)
Definition is_forbidden (c : N) : bool :=
  existsb (N.eqb c) [60; 62; 58; 34; 47; 92; 124; 63; 42].

(** The class [\s]: ECMAScript WhiteSpace and LineTerminator. *)
Definition is_space (c : N) : bool :=
  existsb (N.eqb c)
    [9; 10; 11; 12; 13; 32; 160; 5760; 8232; 8233; 8239; 8287; 12288; 65279]
  || ((8192 <=? c) && (c <=? 8202)).

(** [s.replace(/[class]/g, '_')]: every code unit of the class becomes an
    underscore. *)
Definition replace_each (p : N -> bool) (s : jsstring) : jsstring :=
  map (fun c => if p c then underscore else c) s.

(** Does the string start with a code unit of the class? *)
Definition head_in (p : N -> bool) (s : jsstring) : bool :=
  match s with
  | c :: _ => p c
  | [] => false
  end.

(** [s.replace(/c+/g, '_')]: every maximal run of code units of the class
    becomes one underscore.  A code unit of the class that is followed by
    another one is dropped; the last one of the run gives the underscore. *)
Fixpoint replace_runs (p : N -> bool) (s : jsstring) : jsstring :=
  match s with
  | [] => []
  | c :: t =>
      if p c then
        if head_in p t then replace_runs p t
        else underscore :: replace_runs p t
      else c :: replace_runs p t
  end.

(** [s.replace(/^_|_$/g, '')]: without the [m] flag [^] matches at index 0
    only and [$] at the end only, so the global replace removes one
    underscore at the start and then one at the end of what is left. *)
Definition strip_first (s : jsstring) : jsstring :=
  match s with
  | c :: t => if is_underscore c then t else s
  | [] => []
  end.

Fixpoint strip_last (s : jsstring) : jsstring :=
  match s with
  | [] => []
  | c :: t =>
      match t with
      | [] => if is_underscore c then [] else [c]
      | _ :: _ => c :: strip_last t
      end
  end.

Definition _sanitizeForFilename (name : jsstring) : jsstring :=
  strip_last
    (strip_first
       (replace_runs is_underscore
          (replace_runs is_space
             (replace_each is_forbidden name)))).

(** The sanitiser as the specification words it: the listed characters and
    the whitespace runs give way to a single underscore, and the underscores
    at both ends are trimmed.  Adjacent replaced pieces are read as one run,
    which is what the specification's own example needs. *)
Definition is_replaced (c : N) : bool := is_forbidden c || is_space c.

Fixpoint trim_left (s : jsstring) : jsstring :=
  match s with
  | c :: t => if is_underscore c then trim_left t else s
  | [] => []
  end.

Definition trim_underscores (s : jsstring) : jsstring :=
  rev (trim_left (rev (trim_left s))).

Definition sanitize_spec (name : jsstring) : jsstring :=
  trim_underscores (replace_runs is_replaced name).

(** The sanitiser as the code has it, said in one pass: underscores already
    in the name belong to the runs. *)
Definition is_collapsed (c : N) : bool :=
  is_forbidden c || is_space c || is_underscore c.

Definition sanitize_one_pass (name : jsstring) : jsstring :=
  strip_last (strip_first (replace_runs is_collapsed name)).


(** String helpers of the bookmark-file reader: [split], [join], [trim],
    [includes] and [startsWith] on code units. *)
Fixpoint split (sep : N) (s : jsstring) : list jsstring :=
  match s with
  | [] => [[]]
  | c :: t =>
      if c =? sep then [] :: split sep t
      else match split sep t with
           | w :: ws => (c :: w) :: ws
           | [] => [[c]]
           end
  end.

Fixpoint join (sep : N) (ws : list jsstring) : jsstring :=
  match ws with
  | [] => []
  | w :: rest =>
      match rest with
      | [] => w
      | _ :: _ => w ++ sep :: join sep rest
      end
  end.

Fixpoint trim_start (s : jsstring) : jsstring :=
  match s with
  | c :: t => if is_space c then trim_start t else s
  | [] => []
  end.

Definition trim (s : jsstring) : jsstring :=
  rev (trim_start (rev (trim_start s))).

Fixpoint startsWith (s pre : jsstring) : bool :=
  match pre, s with
  | [], _ => true
  | _ :: _, [] => false
  | a :: pre', c :: s' => (c =? a) && startsWith s' pre'
  end.

Fixpoint includes (s sub : jsstring) : bool :=
  startsWith s sub ||
  match s with
  | [] => false
  | _ :: t => includes t sub
  end.

Definition is_empty (s : jsstring) : bool :=
  match s with [] => true | _ :: _ => false end.

(** [GLib.path_get_dirname]: the part before the last slash, with the
    slashes that end it removed; [.] when there is no slash and [/] when
    nothing is left. *)
Fixpoint drop_last_component (s : jsstring) : option jsstring :=
  match s with
  | [] => None
  | c :: t =>
      match drop_last_component t with
      | Some d => Some (c :: d)
      | None => if c =? slash then Some [] else None
      end
  end.

Fixpoint strip_slashes (r : jsstring) : jsstring :=
  match r with
  | c :: t => if c =? slash then strip_slashes t else r
  | [] => []
  end.

Definition path_get_dirname (p : jsstring) : jsstring :=
  match drop_last_component p with
  | None => [46]
  | Some d =>
      match rev (strip_slashes (rev d)) with
      | [] => [slash]
      | d' => d'
      end
  end.

(** ** Data of the extension *)

(** A bookmark object, as [_loadBookmarks] builds it.  [failCount] and
    [lastAttempt] are JavaScript numbers holding integers: a count that
    starts at 0 and moves by one per failed attempt, and a millisecond
    clock.  Such numbers are exact below 2^53, which neither reaches, so
    they are [Z]. *)
Record Bookmark := mkBookmark {
  uri : jsstring;
  name : jsstring;
  enabled : bool;
  createSymlink : bool;
  symlinkPath : jsstring;
  lastAttempt : Z;
  failCount : Z
}.

(** One value of the [bookmark-settings] object, with the fields that
    [_saveBookmarkSettings] writes; a field can be missing. *)
Record Entry := mkEntry {
  e_enabled : option bool;
  e_createSymlink : option bool;
  e_symlinkPath : option jsstring
}.

(** The string under the key [bookmark-settings], told apart by what the
    source does with it: the empty string (falsy, skipped), a string on
    which [JSON.parse] throws, or a string that parses to an object from
    URIs to entries. *)
Inductive Persisted :=
  | StrEmpty
  | StrMalformed
  | StrJson (o : gmap jsstring Entry).

(** The GSettings keys of the schema. *)
Record Settings := mkSettings {
  check_interval : Z;
  show_notifications : bool;
  show_success_notifications : bool;
  show_error_notifications : bool;
  custom_mount_base : jsstring;
  bookmark_settings : Persisted;
  retry_attempts : Z;
  retry_delay : Z
}.

(** The defaults of the schema file. *)
Definition default_settings : Settings :=
  {| check_interval := 5;
     show_notifications := true;
     show_success_notifications := false;
     show_error_notifications := true;
     custom_mount_base := [];
     bookmark_settings := StrJson ∅;
     retry_attempts := 3;
     retry_delay := 30 |}.

(** A piece of a template string: literal text, an interpolated string or
    an interpolated number. *)
Inductive Piece :=
  | Lit (s : string)
  | Str (v : jsstring)
  | Num (n : Z).

(** A notification handed to the message tray; [urgent] is the HIGH urgency
    that [_notify] sets for errors. *)
Record Notification := mkNotification {
  title : string;
  message : list Piece;
  urgent : bool
}.

(** The callbacks given to [GLib.timeout_add_seconds].  A closure is the
    code together with what it captured: the bookmark object (by identity)
    and [isStartup]. *)
Inductive Callback :=
  | CbStartupCheck
  | CbStartupStatus
  | CbSymlink (b : positive) (isStartup : bool)
  | CbRetry (b : positive)
  | CbPeriodic.

Record Source := mkSource {
  delay : Z;
  callback : Callback
}.

Inductive FsEntry :=
  | EFile
  | EDir
  | ESymlink (target : jsstring).

(** What [find_enclosing_mount] gives for a URI: a mount, whose root may
    have no local path, or null.  A URI missing from the table makes the
    call throw (the not-found error of Gio). *)
Inductive MountQuery :=
  | QMount (root : option jsstring)
  | QNull.

(** What reading the bookmark file gives. *)
Inductive FileRead :=
  | FileThrows
  | FileMissing
  | FileUnread
  | FileContents (c : jsstring).

(** The surroundings that a method only reads: the home directory, the
    clock of [Date.now], the mount table of Gio, the URIs whose mount or
    unmount call throws at once (with the message of the error for a mount),
    the bookmark file, the name that [_extractNameFromUri] derives from a
    URI with [GLib.Uri.parse], the paths at which creating and deleting
    fail, the link targets that do not resolve, and whether
    [openPreferences] throws. *)
Record Env := mkEnv {
  home_dir : jsstring;
  now : Z;
  mount_table : gmap jsstring MountQuery;
  mount_throws : gmap jsstring jsstring;
  unmount_throws : gset jsstring;
  bookmarks_file : FileRead;
  uri_name : jsstring -> jsstring;
  deny : gset jsstring;
  gone : gset jsstring;
  prefs_throw : bool
}.

(** The indicator object and the collaborators it changes.  [heap] holds the
    bookmark objects by identity: closures and [_bookmarks] refer to them,
    and a reload makes new ones.  [mount_requests] and [unmount_requests]
    are the asynchronous requests handed to Gio, oldest first, each with
    what its callback captured; [notify_calls] records every call of
    [_notify] and [shown] the notifications that reached the message tray.
    [sources] are the timeouts pending in the GLib main loop; their ids are
    positive, as GLib's are (the source tests [this._timeoutId] for
    truth). *)
Record State := mkState {
  heap : gmap positive Bookmark;
  _bookmarks : list positive;
  _mountedLocations : gmap jsstring Z;
  _symlinkPaths : gmap jsstring jsstring;
  _timeoutId : option positive;
  _timeoutIds : gset positive;
  _startupMountInProgress : bool;
  settings : Settings;
  fs : gmap jsstring FsEntry;
  sources : gmap positive Source;
  mount_requests : list (positive * bool);
  unmount_requests : list positive;
  notify_calls : list Notification;
  shown : list Notification;
  console : list string
}.

(** Field updates. *)
Definition set_heap (f : gmap positive Bookmark -> gmap positive Bookmark)
    (s : State) : State :=
  mkState (f (heap s)) (_bookmarks s) (_mountedLocations s) (_symlinkPaths
    s) (_timeoutId s) (_timeoutIds s) (_startupMountInProgress s)
    (settings s) (fs s) (sources s) (mount_requests s) (unmount_requests
    s) (notify_calls s) (shown s) (console s).

Definition set_bookmarks (f : list positive -> list positive)
    (s : State) : State :=
  mkState (heap s) (f (_bookmarks s)) (_mountedLocations s) (_symlinkPaths
    s) (_timeoutId s) (_timeoutIds s) (_startupMountInProgress s)
    (settings s) (fs s) (sources s) (mount_requests s) (unmount_requests
    s) (notify_calls s) (shown s) (console s).

Definition set_mountedLocations (f : gmap jsstring Z -> gmap jsstring Z)
    (s : State) : State :=
  mkState (heap s) (_bookmarks s) (f (_mountedLocations s)) (_symlinkPaths
    s) (_timeoutId s) (_timeoutIds s) (_startupMountInProgress s)
    (settings s) (fs s) (sources s) (mount_requests s) (unmount_requests
    s) (notify_calls s) (shown s) (console s).

Definition set_symlinkPaths (f : gmap jsstring jsstring -> gmap jsstring jsstring)
    (s : State) : State :=
  mkState (heap s) (_bookmarks s) (_mountedLocations s) (f (_symlinkPaths
    s)) (_timeoutId s) (_timeoutIds s) (_startupMountInProgress s)
    (settings s) (fs s) (sources s) (mount_requests s) (unmount_requests
    s) (notify_calls s) (shown s) (console s).

Definition set_timeoutId (f : option positive -> option positive)
    (s : State) : State :=
  mkState (heap s) (_bookmarks s) (_mountedLocations s) (_symlinkPaths s)
    (f (_timeoutId s)) (_timeoutIds s) (_startupMountInProgress s)
    (settings s) (fs s) (sources s) (mount_requests s) (unmount_requests
    s) (notify_calls s) (shown s) (console s).

Definition set_timeoutIds (f : gset positive -> gset positive)
    (s : State) : State :=
  mkState (heap s) (_bookmarks s) (_mountedLocations s) (_symlinkPaths s)
    (_timeoutId s) (f (_timeoutIds s)) (_startupMountInProgress s)
    (settings s) (fs s) (sources s) (mount_requests s) (unmount_requests
    s) (notify_calls s) (shown s) (console s).

Definition set_startupMountInProgress (f : bool -> bool)
    (s : State) : State :=
  mkState (heap s) (_bookmarks s) (_mountedLocations s) (_symlinkPaths s)
    (_timeoutId s) (_timeoutIds s) (f (_startupMountInProgress s))
    (settings s) (fs s) (sources s) (mount_requests s) (unmount_requests
    s) (notify_calls s) (shown s) (console s).

Definition set_settings (f : Settings -> Settings)
    (s : State) : State :=
  mkState (heap s) (_bookmarks s) (_mountedLocations s) (_symlinkPaths s)
    (_timeoutId s) (_timeoutIds s) (_startupMountInProgress s) (f
    (settings s)) (fs s) (sources s) (mount_requests s) (unmount_requests
    s) (notify_calls s) (shown s) (console s).

Definition set_fs (f : gmap jsstring FsEntry -> gmap jsstring FsEntry)
    (s : State) : State :=
  mkState (heap s) (_bookmarks s) (_mountedLocations s) (_symlinkPaths s)
    (_timeoutId s) (_timeoutIds s) (_startupMountInProgress s) (settings
    s) (f (fs s)) (sources s) (mount_requests s) (unmount_requests s)
    (notify_calls s) (shown s) (console s).

Definition set_sources (f : gmap positive Source -> gmap positive Source)
    (s : State) : State :=
  mkState (heap s) (_bookmarks s) (_mountedLocations s) (_symlinkPaths s)
    (_timeoutId s) (_timeoutIds s) (_startupMountInProgress s) (settings
    s) (fs s) (f (sources s)) (mount_requests s) (unmount_requests s)
    (notify_calls s) (shown s) (console s).

Definition set_mount_requests (f : list (positive * bool) -> list (positive * bool))
    (s : State) : State :=
  mkState (heap s) (_bookmarks s) (_mountedLocations s) (_symlinkPaths s)
    (_timeoutId s) (_timeoutIds s) (_startupMountInProgress s) (settings
    s) (fs s) (sources s) (f (mount_requests s)) (unmount_requests s)
    (notify_calls s) (shown s) (console s).

Definition set_unmount_requests (f : list positive -> list positive)
    (s : State) : State :=
  mkState (heap s) (_bookmarks s) (_mountedLocations s) (_symlinkPaths s)
    (_timeoutId s) (_timeoutIds s) (_startupMountInProgress s) (settings
    s) (fs s) (sources s) (mount_requests s) (f (unmount_requests s))
    (notify_calls s) (shown s) (console s).

Definition set_notify_calls (f : list Notification -> list Notification)
    (s : State) : State :=
  mkState (heap s) (_bookmarks s) (_mountedLocations s) (_symlinkPaths s)
    (_timeoutId s) (_timeoutIds s) (_startupMountInProgress s) (settings
    s) (fs s) (sources s) (mount_requests s) (unmount_requests s) (f
    (notify_calls s)) (shown s) (console s).

Definition set_shown (f : list Notification -> list Notification)
    (s : State) : State :=
  mkState (heap s) (_bookmarks s) (_mountedLocations s) (_symlinkPaths s)
    (_timeoutId s) (_timeoutIds s) (_startupMountInProgress s) (settings
    s) (fs s) (sources s) (mount_requests s) (unmount_requests s)
    (notify_calls s) (f (shown s)) (console s).

Definition set_console (f : list string -> list string)
    (s : State) : State :=
  mkState (heap s) (_bookmarks s) (_mountedLocations s) (_symlinkPaths s)
    (_timeoutId s) (_timeoutIds s) (_startupMountInProgress s) (settings
    s) (fs s) (sources s) (mount_requests s) (unmount_requests s)
    (notify_calls s) (shown s) (f (console s)).

Definition set_bookmark_settings (v : Persisted) (c : Settings) : Settings :=
  mkSettings (check_interval c) (show_notifications c)
    (show_success_notifications c) (show_error_notifications c)
    (custom_mount_base c) v (retry_attempts c) (retry_delay c).

Definition set_custom_mount_base (v : jsstring) (c : Settings) : Settings :=
  mkSettings (check_interval c) (show_notifications c)
    (show_success_notifications c) (show_error_notifications c)
    v (bookmark_settings c) (retry_attempts c) (retry_delay c).

Definition log (m : string) : State -> State :=
  set_console (fun c => c ++ [m]).

(** ** The methods of [NetworkMountIndicator] *)

Section Methods.

Variable env : Env.

(** *** Gio file operations

    The file system is a map from paths to entries.  A path of [deny env] is
    one at which creating and deleting fail with an error; a target of
    [gone env] is one that does not resolve.  [query_exists] follows
    symbolic links, so a link whose target is gone is reported absent. *)

Definition query_exists (f : gmap jsstring FsEntry) (p : jsstring) : bool :=
  match f !! p with
  | Some (ESymlink t) => bool_decide (t ∉ gone env)
  | Some _ => true
  | None => false
  end.

(** [query_info] with NOFOLLOW_SYMLINKS, then [get_is_symlink]. *)
Definition get_is_symlink (f : gmap jsstring FsEntry) (p : jsstring) : bool :=
  match f !! p with
  | Some (ESymlink _) => true
  | _ => false
  end.

(** [None] is a thrown error. *)
Definition file_delete (f : gmap jsstring FsEntry) (p : jsstring)
  : option (gmap jsstring FsEntry) :=
  if bool_decide (p ∈ deny env) then None else Some (delete p f).

Inductive MkdirResult :=
  | MkdirOk (f : gmap jsstring FsEntry)
  | MkdirExists
  | MkdirError.

Definition make_directory_with_parents (f : gmap jsstring FsEntry)
    (d : jsstring) : MkdirResult :=
  match f !! d with
  | Some _ => MkdirExists
  | None =>
      if bool_decide (d ∈ deny env) then MkdirError
      else MkdirOk (<[d := EDir]> f)
  end.

Definition make_symbolic_link (f : gmap jsstring FsEntry)
    (p target : jsstring) : option (gmap jsstring FsEntry) :=
  match f !! p with
  | Some _ => None
  | None =>
      if bool_decide (p ∈ deny env) then None
      else Some (<[p := ESymlink target]> f)
  end.

(** *** GLib timeouts *)

Definition timeout_add_seconds (st : State) (d : Z) (cb : Callback)
  : State * positive :=
  let id := fresh (dom (sources st)) in
  (set_sources (insert id (mkSource d cb)) st, id).

Definition source_remove (id : positive) : State -> State :=
  set_sources (delete id).

(** *** Notifications *)

Definition _notify (st : State) (ttl : string) (msg : list Piece)
    (isError : bool) : State :=
  let n := mkNotification ttl msg isError in
  let st := set_notify_calls (fun l => l ++ [n]) st in
  if negb (show_notifications (settings st)) then st
  else if isError && negb (show_error_notifications (settings st)) then st
  else if negb isError && negb (show_success_notifications (settings st))
  then st
  else set_shown (fun l => l ++ [n]) st.

(** *** Mount state *)

Definition _isLocationMounted (u : jsstring) : bool :=
  match mount_table env !! u with
  | Some (QMount _) => true
  | _ => false
  end.

Definition _getGvfsMountPath (st : State) (u : jsstring)
  : State * option jsstring :=
  match mount_table env !! u with
  | Some (QMount root) => (st, root)
  | Some QNull => (st, None)
  | None => (log "Error getting GVFS mount path:" st, None)
  end.

(** *** Symlinks *)

Definition base_path (st : State) : jsstring :=
  if is_empty (custom_mount_base (settings st))
  then home_dir env ++ js "/NetworkMounts"
  else custom_mount_base (settings st).

Definition link_name (bk : Bookmark) : jsstring :=
  if is_empty (symlinkPath bk) then _sanitizeForFilename (name bk)
  else symlinkPath bk.

Definition _getSymlinkPath (st : State) (bk : Bookmark) : jsstring :=
  base_path st ++ slash :: link_name bk.

(** The path that [_removeSymlink] works on: the tracked one, or the
    computed one when nothing (or an empty string) is tracked. *)
Definition located (st : State) (bk : Bookmark) : jsstring :=
  match _symlinkPaths st !! uri bk with
  | Some p => if is_empty p then _getSymlinkPath st bk else p
  | None => _getSymlinkPath st bk
  end.

Definition _removeSymlink (st : State) (bk : Bookmark) : State * bool :=
  let p := located st bk in
  if query_exists (fs st) p && get_is_symlink (fs st) p then
    match file_delete (fs st) p with
    | Some f' =>
        (set_symlinkPaths (delete (uri bk))
           (log "Removed symlink:" (set_fs (fun _ => f') st)), true)
    | None => (log "Error removing symlink:" st, false)
    end
  else (set_symlinkPaths (delete (uri bk)) st, true).

Definition _createSymlink (st : State) (bk : Bookmark) : State * bool :=
  if negb (createSymlink bk) then (st, true)
  else
    let (st1, gvfs) := _getGvfsMountPath st (uri bk) in
    match gvfs with
    | None => (log "Could not get GVFS mount path for:" st1, false)
    | Some gvfsPath =>
        if is_empty gvfsPath
        then (log "Could not get GVFS mount path for:" st1, false)
        else
          let p := _getSymlinkPath st1 bk in
          let finish (st2 : State) : State * bool :=
            let st3 := fst (_removeSymlink st2 bk) in
            match make_symbolic_link (fs st3) p gvfsPath with
            | Some f' =>
                (log "Created symlink:"
                   (set_symlinkPaths (insert (uri bk) p)
                      (set_fs (fun _ => f') st3)), true)
            | None => (log "Failed to create symlink for" st3, false)
            end in
          match make_directory_with_parents (fs st1) (path_get_dirname p) with
          | MkdirOk f' => finish (set_fs (fun _ => f') st1)
          | MkdirExists => finish st1
          | MkdirError =>
              (log "Failed to create symlink directory:" st1, false)
          end
    end.

(** *** Bookmarks and their persisted settings *)

Definition new_bookmark (u nm : jsstring) : Bookmark :=
  {| uri := u; name := nm; enabled := true; createSymlink := false;
     symlinkPath := []; lastAttempt := 0; failCount := 0 |}.

(** The three assignments of [_loadBookmarkSettings]:
    [settings.enabled !== false], [settings.createSymlink || false] and
    [settings.symlinkPath || '']. *)
Definition apply_entry (e : Entry) (bk : Bookmark) : Bookmark :=
  {| uri := uri bk; name := name bk;
     enabled := match e_enabled e with Some false => false | _ => true end;
     createSymlink := default false (e_createSymlink e);
     symlinkPath := default [] (e_symlinkPath e);
     lastAttempt := lastAttempt bk; failCount := failCount bk |}.

Definition entry_of (bk : Bookmark) : Entry :=
  {| e_enabled := Some (enabled bk);
     e_createSymlink := Some (createSymlink bk);
     e_symlinkPath := Some (symlinkPath bk) |}.

Definition load_one (o : gmap jsstring Entry) (st : State) (b : positive)
  : State :=
  match heap st !! b with
  | Some bk =>
      match o !! uri bk with
      | Some e => set_heap (insert b (apply_entry e bk)) st
      | None => st
      end
  | None => st
  end.

Definition _loadBookmarkSettings (st : State) : State :=
  match bookmark_settings (settings st) with
  | StrEmpty => st
  | StrMalformed => log "Error loading bookmark settings:" st
  | StrJson o => foldl (load_one o) st (_bookmarks st)
  end.

Definition save_one (st : State) (o : gmap jsstring Entry) (b : positive)
  : gmap jsstring Entry :=
  match heap st !! b with
  | Some bk => <[uri bk := entry_of bk]> o
  | None => o
  end.

Definition _saveBookmarkSettings (st : State) : State :=
  set_settings
    (set_bookmark_settings (StrJson (foldl (save_one st) ∅ (_bookmarks st))))
    st.

(** The loop of [_updateBookmarksList]; building the menu items is left
    out. *)
Definition refresh_one (st : State) (b : positive) : State :=
  match heap st !! b with
  | Some bk =>
      if _isLocationMounted (uri bk) && createSymlink bk
      then fst (_createSymlink st bk)
      else st
  | None => st
  end.

Definition _updateBookmarksList (st : State) : State :=
  foldl refresh_one st (_bookmarks st).

Definition keep_line (line : jsstring) : bool :=
  negb (is_empty (trim line)) && includes line (js "://")
  && negb (startsWith line (js "file://")).

Definition parse_line (line : jsstring) : Bookmark :=
  match split 32 (trim line) with
  | u :: nameParts =>
      let nm := join 32 nameParts in
      new_bookmark u (if is_empty nm then uri_name env u else nm)
  | [] => new_bookmark [] (uri_name env [])
  end.

Definition parse_bookmarks (contents : jsstring) : list Bookmark :=
  map parse_line (List.filter keep_line (split 10 contents)).

(** A new object gets an identity that no object has. *)
Definition alloc (st : State) (bk : Bookmark) : State * positive :=
  let r := fresh (dom (heap st)) in
  (set_heap (insert r bk) st, r).

Fixpoint alloc_all (st : State) (bks : list Bookmark)
  : State * list positive :=
  match bks with
  | [] => (st, [])
  | bk :: rest =>
      let (st1, r) := alloc st bk in
      let (st2, rs) := alloc_all st1 rest in
      (st2, r :: rs)
  end.

Definition _loadBookmarks (st : State) : State :=
  match bookmarks_file env with
  | FileThrows =>
      set_bookmarks (fun _ => []) (log "Error loading bookmarks:" st)
  | FileMissing => _updateBookmarksList st
  | FileUnread => st
  | FileContents c =>
      let (st1, rs) := alloc_all st (parse_bookmarks c) in
      _updateBookmarksList
        (_loadBookmarkSettings (set_bookmarks (fun _ => rs) st1))
  end.

(** *** Mounting, failures and retries *)

Definition _scheduleRetry (st : State) (b : positive) (delaySecs : Z)
  : State :=
  let (st1, retryTimeoutId) := timeout_add_seconds st delaySecs (CbRetry b) in
  set_timeoutIds (fun ids => {[retryTimeoutId]} ∪ ids) st1.

Definition failed (t : Z) (bk : Bookmark) : Bookmark :=
  {| uri := uri bk; name := name bk; enabled := enabled bk;
     createSymlink := createSymlink bk; symlinkPath := symlinkPath bk;
     lastAttempt := t; failCount := (failCount bk + 1)%Z |}.

Definition succeeded (t : Z) (bk : Bookmark) : Bookmark :=
  {| uri := uri bk; name := name bk; enabled := enabled bk;
     createSymlink := createSymlink bk; symlinkPath := symlinkPath bk;
     lastAttempt := t; failCount := 0%Z |}.

Definition retrying_message (bk : Bookmark) (maxRetries : Z) : list Piece :=
  [Str (name bk); Lit " (attempt "; Num (failCount bk); Lit "/";
   Num maxRetries; Lit ")"].

Definition failure_message (bk : Bookmark) (errorMsg : jsstring)
  : list Piece :=
  [Str (name bk); Lit ": "; Str errorMsg].

Definition _handleMountFailure (st : State) (b : positive)
    (errorMsg : jsstring) : State :=
  match heap st !! b with
  | None => st
  | Some bk0 =>
      let bk := failed (now env) bk0 in
      let st1 := set_heap (insert b bk) st in
      let maxRetries := retry_attempts (settings st1) in
      if (failCount bk <=? maxRetries)%Z then
        let retryDelay := retry_delay (settings st1) in
        let st2 := _scheduleRetry st1 b retryDelay in
        _notify st2 "Mount Failed - Retrying"
          (retrying_message bk maxRetries) true
      else
        _notify st1 "Mount Failed" (failure_message bk errorMsg) true
  end.

(** [_mountLocation] up to the asynchronous call: the request joins
    [mount_requests] and its callback runs later, as [mount_finished]. *)
Definition _mountLocation (st : State) (b : positive)
    (isRetry isStartup : bool) : State :=
  match heap st !! b with
  | None => st
  | Some bk =>
      if _isLocationMounted (uri bk) then
        let st1 := fst (_createSymlink st bk) in
        if negb isRetry && negb isStartup
        then _notify st1 "Already Mounted" [Str (name bk)] false
        else st1
      else
        match mount_throws env !! uri bk with
        | Some errorMsg =>
            _handleMountFailure (log "Error mounting" st) b errorMsg
        | None => set_mount_requests (fun l => l ++ [(b, isStartup)]) st
        end
  end.

(** The callback of [mount_enclosing_volume]; [result] is [None] when
    [mount_enclosing_volume_finish] returns and the error message when it
    throws. *)
Definition mount_finished (st : State) (b : positive) (isStartup : bool)
    (result : option jsstring) : State :=
  match result with
  | None =>
      match heap st !! b with
      | None => st
      | Some bk =>
          let st1 := log "Successfully mounted:" st in
          let st2 := set_heap (insert b (succeeded (now env) bk)) st1 in
          let st3 := set_mountedLocations (insert (uri bk) (now env)) st2 in
          let (st4, symlinkTimeoutId) :=
            timeout_add_seconds st3 1 (CbSymlink b isStartup) in
          set_timeoutIds (fun ids => {[symlinkTimeoutId]} ∪ ids) st4
      end
  | Some errorMsg =>
      _handleMountFailure (log "Failed to mount" st) b errorMsg
  end.

Definition mounted_message (st : State) (bk : Bookmark) (created : bool)
  : list Piece :=
  if createSymlink bk && created
  then [Str (name bk); Lit " → "; Str (_getSymlinkPath st bk)]
  else [Str (name bk)].

(** *** Unmounting *)

Definition _unmountLocation (st : State) (b : positive) : State :=
  match heap st !! b with
  | None => st
  | Some bk =>
      match mount_table env !! uri bk with
      | None => log "Error unmounting" st
      | Some (QMount _) =>
          let st1 :=
            if createSymlink bk then fst (_removeSymlink st bk) else st in
          if bool_decide (uri bk ∈ unmount_throws env)
          then log "Error unmounting" st1
          else set_unmount_requests (fun l => l ++ [b]) st1
      | Some QNull =>
          let st1 :=
            if createSymlink bk then fst (_removeSymlink st bk) else st in
          _notify st1 "Not Mounted" [Str (name bk)] false
      end
  end.

Definition unmount_finished (st : State) (b : positive)
    (result : option jsstring) : State :=
  match heap st !! b with
  | None => st
  | Some bk =>
      match result with
      | None =>
          let st1 := log "Successfully unmounted:" st in
          let st2 := set_mountedLocations (delete (uri bk)) st1 in
          _notify st2 "Unmounted" [Str (name bk)] false
      | Some errorMsg =>
          _notify (log "Failed to unmount" st) "Unmount Failed"
            (failure_message bk errorMsg) true
      end
  end.

(** *** Reconciliation *)

(** The body of the loop of [_checkAndMountAll], with its two counters. *)
Definition check_one (isStartup : bool) (acc : State * (Z * Z))
    (b : positive) : State * (Z * Z) :=
  let '(st, (mounted, total)) := acc in
  match heap st !! b with
  | None => acc
  | Some bk =>
      if enabled bk then
        if _isLocationMounted (uri bk) then
          ((if createSymlink bk then fst (_createSymlink st bk) else st),
           (mounted + 1, total + 1)%Z)
        else (_mountLocation st b false isStartup, (mounted, total + 1)%Z)
      else
        ((if _isLocationMounted (uri bk) && createSymlink bk
          then fst (_createSymlink st bk) else st),
         (mounted, total))
  end.

Definition check_message (total mounted : Z) : list Piece :=
  [Lit "Checking "; Num total; Lit " locations, "; Num mounted;
   Lit " already mounted"].

Definition _checkAndMountAll (st : State) (manual isStartup : bool)
  : State :=
  let st1 := _loadBookmarks st in
  let '(st2, (mounted, total)) :=
    foldl (check_one isStartup) (st1, (0, 0)%Z) (_bookmarks st1) in
  if manual then _notify st2 "Mount Check" (check_message total mounted) false
  else st2.

Definition is_enabled (st : State) (b : positive) : bool :=
  match heap st !! b with
  | Some bk => enabled bk
  | None => false
  end.

Definition mount_enabled_one (acc : State * Z) (b : positive) : State * Z :=
  let (st, count) := acc in
  match heap st !! b with
  | None => acc
  | Some bk =>
      if negb (_isLocationMounted (uri bk))
      then (_mountLocation st b false false, (count + 1)%Z)
      else acc
  end.

Definition _mountAllEnabled (st : State) : State :=
  let (st1, count) :=
    foldl mount_enabled_one (st, 0%Z)
      (List.filter (is_enabled st) (_bookmarks st)) in
  _notify st1 "Mounting All"
    [Lit "Attempting to mount "; Num count; Lit " locations"] false.

Definition unmount_one (acc : State * Z) (b : positive) : State * Z :=
  let (st, count) := acc in
  match heap st !! b with
  | None => acc
  | Some bk =>
      if _isLocationMounted (uri bk)
      then (_unmountLocation st b, (count + 1)%Z)
      else acc
  end.

Definition _unmountAll (st : State) : State :=
  let (st1, count) := foldl unmount_one (st, 0%Z) (_bookmarks st) in
  _notify st1 "Unmounting All"
    [Lit "Unmounting "; Num count; Lit " locations"] false.

(** *** Timers and teardown *)

Definition _startPeriodicCheck (st : State) : State :=
  let st1 :=
    match _timeoutId st with
    | Some id => set_timeoutId (fun _ => None) (source_remove id st)
    | None => st
    end in
  let interval := check_interval (settings st1) in
  let (st2, id) := timeout_add_seconds st1 (interval * 60) CbPeriodic in
  set_timeoutId (fun _ => Some id) st2.

Definition _openSettings (st : State) : State :=
  if prefs_throw env
  then _notify st "Settings" [Lit "Could not open preferences"] true
  else st.

Definition cleanup_one (st : State) (b : positive) : State :=
  match heap st !! b with
  | Some bk => if createSymlink bk then fst (_removeSymlink st bk) else st
  | None => st
  end.

Definition _cleanupAllSymlinks (st : State) : State :=
  set_symlinkPaths (fun _ => ∅) (foldl cleanup_one st (_bookmarks st)).

Definition destroy (st : State) : State :=
  let st1 :=
    match _timeoutId st with
    | Some id => set_timeoutId (fun _ => None) (source_remove id st)
    | None => st
    end in
  let st2 := set_fold source_remove st1 (_timeoutIds st1) in
  let st3 := set_timeoutIds (fun _ => ∅) st2 in
  _cleanupAllSymlinks st3.

(** *** Signal handlers and timer callbacks *)

(** The [toggled] handler of the Auto Mount switch of the bookmark at
    [index].  An index past the end makes the assignment throw. *)
Definition on_toggled (st : State) (index : nat) (state : bool) : State :=
  match _bookmarks st !! index with
  | Some b =>
      _saveBookmarkSettings
        (set_heap
           (alter (fun bk =>
                     {| uri := uri bk; name := name bk; enabled := state;
                        createSymlink := createSymlink bk;
                        symlinkPath := symlinkPath bk;
                        lastAttempt := lastAttempt bk;
                        failCount := failCount bk |}) b) st)
  | None => st
  end.

(** The handler of [changed::bookmark-settings]. *)
Definition on_bookmark_settings_changed (st : State) : State :=
  _updateBookmarksList (_loadBookmarkSettings st).

(** Running the callback of a source.  The one-shot callbacks drop their id
    from [_timeoutIds] and return SOURCE_REMOVE; the periodic one returns
    SOURCE_CONTINUE. *)
Definition run_callback (st : State) (id : positive) (cb : Callback)
  : State :=
  let done (s : State) : State :=
    source_remove id (set_timeoutIds (fun ids => ids ∖ {[id]}) s) in
  match cb with
  | CbStartupCheck => done (_checkAndMountAll st false true)
  | CbStartupStatus =>
      done (_updateBookmarksList
              (set_startupMountInProgress (fun _ => false) st))
  | CbSymlink b isStartup =>
      match heap st !! b with
      | None => done st
      | Some bk =>
          let (st1, symlinkCreated) := _createSymlink st bk in
          done (if negb isStartup
                then _notify st1 "Mounted Successfully"
                       (mounted_message st1 bk symlinkCreated) false
                else st1)
      end
  | CbRetry b =>
      match heap st !! b with
      | None => done st
      | Some bk =>
          done (if enabled bk && negb (_isLocationMounted (uri bk))
                then _mountLocation st b true (_startupMountInProgress st)
                else st)
      end
  | CbPeriodic => _checkAndMountAll st false false
  end.

Definition fire (st : State) (id : positive) : State :=
  match sources st !! id with
  | Some src => run_callback st id (callback src)
  | None => st
  end.

(** The constructor: load the bookmarks, arm the periodic check and the
    two startup timers. *)
Definition _init (cfg : Settings) (disk : gmap jsstring FsEntry) : State :=
  let st0 :=
    {| heap := ∅; _bookmarks := []; _mountedLocations := ∅;
       _symlinkPaths := ∅; _timeoutId := None; _timeoutIds := ∅;
       _startupMountInProgress := false; settings := cfg; fs := disk;
       sources := ∅; mount_requests := []; unmount_requests := [];
       notify_calls := []; shown := []; console := [] |} in
  let st1 := _startPeriodicCheck (_loadBookmarks st0) in
  let st2 := set_startupMountInProgress (fun _ => true) st1 in
  let (st3, startupTimeoutId) := timeout_add_seconds st2 5 CbStartupCheck in
  let st4 := set_timeoutIds (fun ids => {[startupTimeoutId]} ∪ ids) st3 in
  let (st5, statusTimeoutId) := timeout_add_seconds st4 10 CbStartupStatus in
  set_timeoutIds (fun ids => {[statusTimeoutId]} ∪ ids) st5.

(** Everything that can run a method of the indicator: the menu items, the
    switch and buttons of a bookmark, GSettings signals, a timeout that
    fires, the completion of a mount or unmount request, and destruction. *)
Inductive Action :=
  | ActCheckAllNow
  | ActMountAllEnabled
  | ActUnmountAll
  | ActOpenSettings
  | ActToggle (index : nat) (state : bool)
  | ActMountNow (b : positive)
  | ActUnmount (b : positive)
  | ActBookmarkSettingsChanged
  | ActCheckIntervalChanged
  | ActFire (id : positive)
  | ActMountFinished (b : positive) (isStartup : bool)
      (result : option jsstring)
  | ActUnmountFinished (b : positive) (result : option jsstring)
  | ActDestroy.

Definition step (st : State) (a : Action) : State :=
  match a with
  | ActCheckAllNow => _checkAndMountAll st true false
  | ActMountAllEnabled => _mountAllEnabled st
  | ActUnmountAll => _unmountAll st
  | ActOpenSettings => _openSettings st
  | ActToggle index state => on_toggled st index state
  | ActMountNow b => _mountLocation st b false false
  | ActUnmount b => _unmountLocation st b
  | ActBookmarkSettingsChanged => on_bookmark_settings_changed st
  | ActCheckIntervalChanged => _startPeriodicCheck st
  | ActFire id => fire st id
  | ActMountFinished b isStartup result =>
      mount_finished st b isStartup result
  | ActUnmountFinished b result => unmount_finished st b result
  | ActDestroy => destroy st
  end.

End Methods.

(** ** A small scenario

    One remote bookmark, [smb://server/share] named [Share], under the
    default settings, with the home directory [/home/u]; nothing is
    mounted.  The statements below are tried on it. *)

Definition share_uri : jsstring := js "smb://server/share".

Definition share : Bookmark := new_bookmark share_uri (js "Share").

Definition quiet_env : Env :=
  {| home_dir := js "/home/u"; now := 1000;
     mount_table := ∅; mount_throws := ∅; unmount_throws := ∅;
     bookmarks_file := FileContents (js "smb://server/share Share");
     uri_name := fun u => u; deny := ∅; gone := ∅; prefs_throw := false |}.

Definition one_bookmark : State :=
  {| heap := {[1%positive := share]}; _bookmarks := [1%positive];
     _mountedLocations := ∅; _symlinkPaths := ∅; _timeoutId := None;
     _timeoutIds := ∅; _startupMountInProgress := false;
     settings := default_settings; fs := ∅; sources := ∅;
     mount_requests := []; unmount_requests := []; notify_calls := [];
     shown := []; console := [] |}.

(** The state after a first failed attempt: one retry is pending. *)
Definition after_one_failure : State :=
  mount_finished quiet_env one_bookmark 1 false (Some (js "timed out")).

(** The settings string as the outside world stores it. *)
Definition store_bookmark_settings (v : Persisted) : State -> State :=
  set_settings (set_bookmark_settings v).

(** The persisted settings turn the bookmark off; the handler of
    [changed::bookmark-settings] applies them. *)
Definition share_turned_off : State :=
  on_bookmark_settings_changed quiet_env
    (store_bookmark_settings
       (StrJson {[share_uri := mkEntry (Some false) None None]})
       one_bookmark).

(** The default values that [_loadBookmarks] gives to the fields that the
    persisted settings cover. *)
Definition has_defaults (bk : Bookmark) : Prop :=
  enabled bk = true /\ createSymlink bk = false /\ symlinkPath bk = [].

(** The share is mounted by GVFS, and the persisted settings ask for a
    symlink: the handler of [changed::bookmark-settings] makes the link
    [/home/u/NetworkMounts/Share] and tracks it.  The disk also holds an
    older link [/mnt/links/Share]. *)
Definition gvfs_path : jsstring := js "/run/user/1000/gvfs/smb-share".

Definition mounted_env : Env :=
  {| home_dir := js "/home/u"; now := 2000;
     mount_table := {[share_uri := QMount (Some gvfs_path)]};
     mount_throws := ∅; unmount_throws := ∅;
     bookmarks_file := FileContents (js "smb://server/share Share");
     uri_name := fun u => u; deny := ∅; gone := ∅; prefs_throw := false |}.

Definition home_link : jsstring := js "/home/u/NetworkMounts/Share".
Definition other_link : jsstring := js "/mnt/links/Share".

Definition share_linked : State :=
  on_bookmark_settings_changed mounted_env
    (store_bookmark_settings
       (StrJson {[share_uri := mkEntry (Some true) (Some true) None]})
       (set_fs (fun _ => {[js "/mnt/links" := EDir;
                           other_link := ESymlink (js "/srv/old")]})
          one_bookmark)).

(** The bookmark object of that state. *)
Definition share_with_link : Bookmark :=
  {| uri := share_uri; name := js "Share"; enabled := true;
     createSymlink := true; symlinkPath := []; lastAttempt := 0;
     failCount := 0 |}.

(** The user then points [custom-mount-base] to [/mnt/links]; no handler
    is connected to that key. *)
Definition base_moved : State :=
  set_settings (set_custom_mount_base (js "/mnt/links")) share_linked.

(** Or the user switches the symlink of the share off in the persisted
    settings while the link is in place. *)
Definition link_switched_off : State :=
  on_bookmark_settings_changed mounted_env
    (store_bookmark_settings
       (StrJson {[share_uri := mkEntry (Some true) (Some false) None]})
       share_linked).

(** Or the share gets unmounted behind the extension: the mount table is
    empty and the GVFS directory that the link points to is gone. *)
Definition unmounted_env : Env :=
  {| home_dir := js "/home/u"; now := 3000;
     mount_table := ∅; mount_throws := ∅; unmount_throws := ∅;
     bookmarks_file := FileContents (js "smb://server/share Share");
     uri_name := fun u => u; deny := ∅; gone := {[gvfs_path]};
     prefs_throw := false |}.

(** The effect of [_removeSymlink] and of [_createSymlink] on the file
    system alone, for the link path [p] and the mount path [g]. *)
Definition remove_fs (env : Env) (p : jsstring)
    (f : gmap jsstring FsEntry) : gmap jsstring FsEntry :=
  if query_exists env f p && get_is_symlink f p then
    match file_delete env f p with
    | Some f' => f'
    | None => f
    end
  else f.

Definition link_fs (env : Env) (g p : jsstring)
    (f : gmap jsstring FsEntry) : gmap jsstring FsEntry :=
  match make_symbolic_link env (remove_fs env p f) p g with
  | Some f' => f'
  | None => remove_fs env p f
  end.

Definition ensure_fs (env : Env) (g p : jsstring)
    (f : gmap jsstring FsEntry) : gmap jsstring FsEntry :=
  match make_directory_with_parents env f (path_get_dirname p) with
  | MkdirOk f' => link_fs env g p f'
  | MkdirExists => link_fs env g p f
  | MkdirError => f
  end.

(** [n] failed attempts in a row on the bookmark [b]. *)
Definition fail_times (env : Env) (b : positive) (errorMsg : jsstring)
    (n : nat) (st : State) : State :=
  Nat.iter n (fun s => _handleMountFailure env s b errorMsg) st.

(** Measures used by the statements. *)

(** Is this source a retry of a bookmark object with URI [u]? *)
Definition is_retry_for (st : State) (u : jsstring) (src : Source) : bool :=
  match callback src with
  | CbRetry b =>
      match heap st !! b with
      | Some bk => bool_decide (uri bk = u)
      | None => false
      end
  | _ => false
  end.

(** The number of pending retry tasks for the URI [u]. *)
Definition pending_retries (st : State) (u : jsstring) : nat :=
  size (filter (fun kv => is_retry_for st u kv.2 = true) (sources st)).

(** Does [_notify] let a notification through under these settings? *)
Definition passes (c : Settings) (isError : bool) : bool :=
  show_notifications c
  && (if isError then show_error_notifications c
      else show_success_notifications c).

(** Relations between a state and a later one, used to say what a method
    leaves alone. *)

Definition flags (c : Settings) : bool * bool * bool :=
  (show_notifications c, show_success_notifications c,
   show_error_notifications c).

(** [tray_ext st st']: from [st] to [st'] the three notification switches
    kept their values and the tray only gained notifications that the
    switches let through. *)
Definition tray_ext (st st' : State) : Prop :=
  flags (settings st') = flags (settings st)
  /\ exists l, shown st' = shown st ++ l
               /\ Forall (fun n => passes (settings st) (urgent n) = true) l.

Definition space_or_underscore (c : N) : bool :=
  is_space c || is_underscore c.

(** No two underscores in a row. *)
Fixpoint single_underscores (s : jsstring) : bool :=
  match s with
  | [] => true
  | c :: t =>
      negb (is_underscore c && head_in is_underscore t)
      && single_underscores t
  end.

(** Does the string end with an underscore? *)
Definition ends_with_underscore (s : jsstring) : bool :=
  head_in is_underscore (rev s).

(** [only_links st st']: [st'] differs from [st] at most in the file
    system, the tracked symlinks and the console. *)
Definition only_links (st st' : State) : Prop :=
  heap st' = heap st /\ _bookmarks st' = _bookmarks st
  /\ _mountedLocations st' = _mountedLocations st
  /\ _timeoutId st' = _timeoutId st /\ _timeoutIds st' = _timeoutIds st
  /\ _startupMountInProgress st' = _startupMountInProgress st
  /\ settings st' = settings st /\ sources st' = sources st
  /\ mount_requests st' = mount_requests st
  /\ unmount_requests st' = unmount_requests st
  /\ notify_calls st' = notify_calls st /\ shown st' = shown st.

(** [pass_ext st0 st]: from [st0] to [st] the bookmark objects are the same
    ones with the same [enabled] flag and URI, a disabled one is untouched,
    and every mount request that was added is for an enabled one. *)
Definition pass_ext (st0 st : State) : Prop :=
  (forall b,
      match heap st0 !! b, heap st !! b with
      | Some bk, Some bk' =>
          enabled bk' = enabled bk /\ uri bk' = uri bk
          /\ (enabled bk = false -> bk' = bk)
      | None, None => True
      | _, _ => False
      end)
  /\ exists l, mount_requests st = mount_requests st0 ++ l
               /\ Forall (fun r => is_enabled st0 r.1 = true) l.

(** [keeps_config s0 st]: the settings and the bookmark list of [s0] are
    those of [st]. *)
Definition keeps_config (s0 st : State) : Prop :=
  settings st = settings s0 /\ _bookmarks st = _bookmarks s0.

(** [settled o bk]: the bookmark has the [enabled] flag that the entry of
    its URI in the persisted object [o] gives. *)
Definition settled (o : gmap jsstring Entry) (bk : Bookmark) : Prop :=
  forall e, o !! uri bk = Some e ->
            enabled bk = match e_enabled e with
                         | Some false => false
                         | _ => true
                         end.

(** [kept_off u st]: the persisted settings record the URI [u] as disabled
    and every listed bookmark of that URI is off. *)
Definition kept_off (u : jsstring) (st : State) : Prop :=
  (exists o, bookmark_settings (settings st) = StrJson o
             /\ exists e, o !! u = Some e /\ e_enabled e = Some false)
  /\ (forall r bkr, r ∈ _bookmarks st -> heap st !! r = Some bkr ->
                    uri bkr = u -> enabled bkr = false).

(** The file system only loses symbolic links. *)
Definition loses_links (f f' : gmap jsstring FsEntry) : Prop :=
  forall q, f' !! q = f !! q
            \/ (f' !! q = None /\ exists t, f !! q = Some (ESymlink t)).

(** [cleared env f p]: no symbolic link that could be deleted is left at
    [p]. *)
Definition cleared (env : Env) (f : gmap jsstring FsEntry) (p : jsstring)
  : Prop :=
  forall t, f !! p = Some (ESymlink t) -> t ∈ gone env \/ p ∈ deny env.

(** ** More measures *)

(** Is the code unit [c] absent from the string? *)
Definition lacks (c : N) (s : jsstring) : Prop := Forall (fun x => x <> c) s.

(** No two listed bookmark objects share a URI. *)
Definition distinct_uris (st : State) : Prop :=
  forall b b' bk bk',
    b ∈ _bookmarks st -> b' ∈ _bookmarks st ->
    heap st !! b = Some bk -> heap st !! b' = Some bk' ->
    uri bk = uri bk' -> b = b'.

(** The object that [_saveBookmarkSettings] serialises. *)
Definition saved_object (st : State) : gmap jsstring Entry :=
  foldl (save_one st) ∅ (_bookmarks st).

(** The two-bookmark state of a file that lists the same URI twice, the
    first one switched off. *)
Definition twin_bookmarks : State :=
  set_heap (fun _ => {[1%positive := apply_entry
                         (mkEntry (Some false) None None) share;
                       2%positive := share]})
    (set_bookmarks (fun _ => [1%positive; 2%positive]) one_bookmark).

(** Does the string end with a slash? *)
Definition ends_with_slash (s : jsstring) : bool :=
  head_in (N.eqb slash) (rev s).

(** [timers_tracked st]: the sources pending in the main loop are the
    tracked ones.  Every id of [_timeoutIds] is a pending one-shot source,
    [_timeoutId] is a pending source that runs the periodic check, and no
    other source is pending. *)
Definition timers_tracked (st : State) : Prop :=
  (forall id, id ∈ _timeoutIds st ->
     exists src, sources st !! id = Some src /\ callback src <> CbPeriodic)
  /\ (forall id, _timeoutId st = Some id ->
        exists src, sources st !! id = Some src /\ callback src = CbPeriodic)
  /\ (forall id, is_Some (sources st !! id) ->
        id ∈ _timeoutIds st \/ _timeoutId st = Some id).

(** [arms_only s0 st]: from [s0] to [st] the periodic timer is the same,
    no source was removed or forgotten, and every source that was added is
    a tracked one-shot source. *)
Definition arms_only (s0 st : State) : Prop :=
  _timeoutId st = _timeoutId s0
  /\ (forall id src, sources s0 !! id = Some src -> sources st !! id = Some src)
  /\ (forall id, id ∈ _timeoutIds s0 -> id ∈ _timeoutIds st)
  /\ (forall id src, sources s0 !! id = None -> sources st !! id = Some src ->
        id ∈ _timeoutIds st /\ callback src <> CbPeriodic)
  /\ (forall id, id ∈ _timeoutIds st ->
        id ∈ _timeoutIds s0
        \/ (sources s0 !! id = None /\ is_Some (sources st !! id))).

(** The states that the indicator goes through: the constructor, then any
    actions, each in the surroundings of its moment, and in between the
    outside world may rewrite the settings and the disk. *)
Inductive reachable : State -> Prop :=
  | reachable_init env cfg disk : reachable (_init env cfg disk)
  | reachable_step env st a : reachable st -> reachable (step env st a)
  | reachable_outside st cfg disk :
      reachable st ->
      reachable (set_fs (fun _ => disk) (set_settings (fun _ => cfg) st)).

(** One round of a mount that keeps failing: the pending request of the
    bookmark [b] completes with the error [errorMsg] (the [isStartup] that
    the request captured plays no part in a failure), then the retry timer
    that the failure armed (if it armed one) fires. *)
Definition failing_round (env : Env) (b : positive) (errorMsg : jsstring)
    (st : State) : State :=
  fire env (mount_finished env st b (_startupMountInProgress st)
              (Some errorMsg))
    (fresh (dom (sources st))).

(** Is the URI of the bookmark object [b] mounted? *)
Definition uri_mounted (env : Env) (st : State) (b : positive) : bool :=
  match heap st !! b with
  | Some bk => _isLocationMounted env (uri bk)
  | None => false
  end.

(** Enabled and not mounted. *)
Definition needs_mount (env : Env) (st : State) (b : positive) : bool :=
  is_enabled st b && negb (uri_mounted env st b).

(** Enabled and mounted. *)
Definition mounted_enabled (env : Env) (st : State) (b : positive) : bool :=
  is_enabled st b && uri_mounted env st b.

(** What [_updateStatus] shows: the text of the status item, the name of
    the panel icon, and whether the [success] style class is added. *)
Record Status := mkStatus {
  status_text : list Piece;
  icon_name : string;
  adds_success : bool
}.

Definition _updateStatus (env : Env) (st : State) : Status :=
  let total := length (_bookmarks st) in
  let mounted := length (List.filter (uri_mounted env st) (_bookmarks st)) in
  let enabled := length (List.filter (is_enabled st) (_bookmarks st)) in
  let interval := check_interval (settings st) in
  let text := [Num (Z.of_nat mounted); Lit "/"; Num (Z.of_nat total);
               Lit " mounted • Check every "; Num interval; Lit "min"] in
  if (total =? 0)%nat then mkStatus text "folder-remote-symbolic" false
  else if (enabled <=? mounted)%nat
       then mkStatus text "folder-remote-symbolic" true
       else if (0 <? mounted)%nat
            then mkStatus text "folder-visiting-symbolic" false
            else mkStatus text "folder-visting-symbolic" false.

(** [asks_right env s0 st]: from [s0] to [st], under the mount table of
    [env], every bookmark object is still there with its URI and its name,
    every mount request that was added is for an object whose URI is not
    mounted, and every unmount request that was added is for an object
    whose URI is mounted. *)
Definition asks_right (env : Env) (s0 st : State) : Prop :=
  (forall b bk, heap s0 !! b = Some bk ->
     exists bk', heap st !! b = Some bk'
                 /\ uri bk' = uri bk /\ name bk' = name bk)
  /\ (exists l, mount_requests st = mount_requests s0 ++ l
        /\ Forall (fun r => exists bk, heap st !! r.1 = Some bk
                     /\ _isLocationMounted env (uri bk) = false) l)
  /\ (exists l, unmount_requests st = unmount_requests s0 ++ l
        /\ Forall (fun b => exists bk, heap st !! b = Some bk
                     /\ _isLocationMounted env (uri bk) = true) l).

(** [fs_ext f f']: from [f] to [f'] the regular files are the same ones
    and every directory is still a directory. *)
Definition fs_ext (f f' : gmap jsstring FsEntry) : Prop :=
  forall q, (f !! q = Some EFile <-> f' !! q = Some EFile)
            /\ (f !! q = Some EDir -> f' !! q = Some EDir).

Definition disk_ext (s0 st : State) : Prop := fs_ext (fs s0) (fs st).

(** * Properties *)

Lemma fresh_source_unused (st : State) :
  sources st !! fresh (dom (sources st)) = None.
Proof. apply not_elem_of_dom, is_fresh. Qed.

Lemma notify_shown st ttl msg isError :
  shown (_notify st ttl msg isError) =
    if passes (settings st) isError
    then shown st ++ [mkNotification ttl msg isError]
    else shown st.
Proof.
  unfold _notify, passes; simpl.
  destruct (show_notifications (settings st)),
    (show_error_notifications (settings st)),
    (show_success_notifications (settings st)), isError; reflexivity.
Qed.

Lemma notify_calls_grow st ttl msg isError :
  notify_calls (_notify st ttl msg isError) =
    notify_calls st ++ [mkNotification ttl msg isError].
Proof.
  unfold _notify; simpl.
  destruct (show_notifications (settings st)),
    (show_error_notifications (settings st)),
    (show_success_notifications (settings st)), isError; reflexivity.
Qed.

(** [_notify] touches nothing but the two notification lists. *)
Lemma notify_frame st ttl msg isError :
  let st' := _notify st ttl msg isError in
  heap st' = heap st /\ sources st' = sources st
  /\ _timeoutIds st' = _timeoutIds st /\ settings st' = settings st
  /\ fs st' = fs st /\ _symlinkPaths st' = _symlinkPaths st
  /\ mount_requests st' = mount_requests st
  /\ _bookmarks st' = _bookmarks st /\ _timeoutId st' = _timeoutId st.
Proof.
  unfold _notify; simpl.
  destruct (show_notifications (settings st)),
    (show_error_notifications (settings st)),
    (show_success_notifications (settings st)), isError; simpl; tauto.
Qed.

(** C1: a failed mount attempt adds exactly one to [failCount] and records
    the time of the attempt; a retry is scheduled after [retry-delay]
    seconds exactly when the new count is at most [retry-attempts]; past
    the limit no timer is added and the terminal failure is notified (the
    call of [_notify] carries the error flag and reaches the tray under the
    notification settings). *)
Theorem handleMountFailure_counts_and_retries
    (env : Env) (st : State) (b : positive) (bk : Bookmark)
    (errorMsg : jsstring) :
  heap st !! b = Some bk ->
  let st' := _handleMountFailure env st b errorMsg in
  let n := (failCount bk + 1)%Z in
  let limit := retry_attempts (settings st) in
  (exists bk',
      heap st' = <[b := bk']> (heap st)
      /\ failCount bk' = n /\ lastAttempt bk' = now env
      /\ uri bk' = uri bk /\ name bk' = name bk /\ enabled bk' = enabled bk
      /\ createSymlink bk' = createSymlink bk
      /\ symlinkPath bk' = symlinkPath bk
      /\ ((n <= limit)%Z ->
          exists id,
            sources st !! id = None
            /\ sources st' =
                 <[id := mkSource (retry_delay (settings st)) (CbRetry b)]>
                   (sources st)
            /\ _timeoutIds st' = {[id]} ∪ _timeoutIds st
            /\ notify_calls st' =
                 notify_calls st
                 ++ [mkNotification "Mount Failed - Retrying"
                       (retrying_message bk' limit) true])
      /\ ((limit < n)%Z ->
          sources st' = sources st
          /\ _timeoutIds st' = _timeoutIds st
          /\ notify_calls st' =
               notify_calls st
               ++ [mkNotification "Mount Failed"
                     (failure_message bk' errorMsg) true]
          /\ shown st' =
               if passes (settings st) true
               then shown st
                    ++ [mkNotification "Mount Failed"
                          (failure_message bk' errorMsg) true]
               else shown st)).
Proof.
  intros Hb st' n limit. subst st' n limit.
  unfold _handleMountFailure. rewrite Hb. cbn zeta.
  exists (failed (now env) bk).
  change (settings (set_heap _ st)) with (settings st).
  change (failCount (failed (now env) bk)) with (failCount bk + 1)%Z.
  destruct (Z.leb_spec (failCount bk + 1) (retry_attempts (settings st)))
    as [Hle | Hgt].
  - pose proof (notify_frame
      (_scheduleRetry (set_heap (insert b (failed (now env) bk)) st) b
         (retry_delay (settings st)))
      "Mount Failed - Retrying"
      (retrying_message (failed (now env) bk) (retry_attempts (settings st)))
      true) as (Hh & Hs & Ht & _).
    split; [exact Hh |].
    do 7 (split; [reflexivity |]).
    split; [| intros Hlt; lia].
    intros _. exists (fresh (dom (sources st))).
    split; [apply fresh_source_unused |].
    rewrite Hs, Ht, notify_calls_grow. repeat split; reflexivity.
  - pose proof (notify_frame
      (set_heap (insert b (failed (now env) bk)) st) "Mount Failed"
      (failure_message (failed (now env) bk) errorMsg) true)
      as (Hh & Hs & Ht & _).
    split; [exact Hh |].
    do 7 (split; [reflexivity |]).
    split; [intros Hle; lia |].
    intros _. rewrite Hs, Ht, notify_calls_grow, notify_shown.
    repeat split; reflexivity.
Qed.

Lemma handleMountFailure_heap env st b bk errorMsg :
  heap st !! b = Some bk ->
  heap (_handleMountFailure env st b errorMsg)
  = <[b := failed (now env) bk]> (heap st).
Proof.
  intros Hb. unfold _handleMountFailure. rewrite Hb. cbn zeta.
  destruct (_ <=? _)%Z; apply notify_frame.
Qed.

(** After [n] failed attempts in a row the count has grown by [n]. *)
Lemma consecutive_failures_count env b errorMsg (n : nat) :
  forall st bk,
    heap st !! b = Some bk ->
    exists bk',
      heap (fail_times env b errorMsg n st) !! b = Some bk'
      /\ failCount bk' = (failCount bk + Z.of_nat n)%Z.
Proof.
  induction n as [| n IH]; intros st bk Hb.
  - exists bk. split; [exact Hb | cbn; lia].
  - destruct (IH st bk Hb) as (bk1 & Hb1 & Hn1).
    exists (failed (now env) bk1). split.
    + change (fail_times env b errorMsg (S n) st)
        with (_handleMountFailure env (fail_times env b errorMsg n st) b
                errorMsg).
      rewrite (handleMountFailure_heap _ _ _ _ _ Hb1).
      apply lookup_insert_eq.
    + cbn [failCount failed]. rewrite Hn1. lia.
Qed.

(** Both failure paths of [_mountLocation] end in [_handleMountFailure]. *)
Lemma mount_finished_failure env st b isStartup errorMsg :
  mount_finished env st b isStartup (Some errorMsg) =
    _handleMountFailure env (log "Failed to mount" st) b errorMsg.
Proof. reflexivity. Qed.

Lemma handleMountFailure_witness :
  heap one_bookmark !! 1%positive = Some share
  /\ exists bk',
       heap (_handleMountFailure quiet_env one_bookmark 1 (js "timed out"))
         = <[1%positive := bk']> (heap one_bookmark)
       /\ failCount bk' = 1%Z.
Proof.
  split; [reflexivity |].
  destruct (handleMountFailure_counts_and_retries quiet_env one_bookmark 1
              share (js "timed out") eq_refl) as (bk' & Hh & Hn & _).
  exists bk'. split; [exact Hh | exact Hn].
Defined.

(** C2, as stated, fails: with one retry pending for the bookmark,
    [_scheduleRetry] leaves it in place and adds a second one.  The same
    happens along a run: the user asks for a mount while the retry is
    pending, and that attempt fails too. *)
Lemma retry_tasks_pile_up :
  pending_retries after_one_failure share_uri = 1%nat
  /\ ~ (pending_retries (_scheduleRetry after_one_failure 1 30) share_uri
        <= 1)%nat
  /\ pending_retries
       (mount_finished quiet_env
          (_mountLocation quiet_env after_one_failure 1 false false)
          1 false (Some (js "timed out")))
       share_uri = 2%nat.
Proof.
  split; [vm_compute; reflexivity |].
  split; [| vm_compute; reflexivity].
  assert (pending_retries (_scheduleRetry after_one_failure 1 30) share_uri
          = 2%nat) as -> by (vm_compute; reflexivity).
  lia.
Qed.

(** C2, amended: [_scheduleRetry] always arms a new one-shot timer under an
    unused id and tracks the id; every source that was pending stays
    pending, so the number of retry tasks of the bookmark's URI grows by
    one. *)
Theorem scheduleRetry_adds_a_task
    (st : State) (b : positive) (bk : Bookmark) (delaySecs : Z) :
  heap st !! b = Some bk ->
  let st' := _scheduleRetry st b delaySecs in
  exists id,
    sources st !! id = None
    /\ sources st' = <[id := mkSource delaySecs (CbRetry b)]> (sources st)
    /\ _timeoutIds st' = {[id]} ∪ _timeoutIds st
    /\ (forall id' src,
          sources st !! id' = Some src -> sources st' !! id' = Some src)
    /\ pending_retries st' (uri bk) = S (pending_retries st (uri bk)).
Proof.
  intros Hb st'. subst st'.
  pose proof (fresh_source_unused st) as Hfresh.
  exists (fresh (dom (sources st))).
  split; [exact Hfresh |].
  split; [reflexivity |].
  split; [reflexivity |].
  split.
  - intros id' src Hsrc. cbn.
    rewrite lookup_insert_ne; [exact Hsrc | congruence].
  - unfold pending_retries. cbn.
    change (heap (set_timeoutIds _ _)) with (heap st).
    rewrite map_filter_insert_True.
    + apply map_size_insert_None.
      apply map_lookup_filter_None. left. exact Hfresh.
    + cbn. unfold is_retry_for. cbn. rewrite Hb.
      apply bool_decide_eq_true. reflexivity.
Qed.

Lemma scheduleRetry_witness :
  heap after_one_failure !! 1%positive
    = Some (failed 1000 share)
  /\ pending_retries (_scheduleRetry after_one_failure 1 30) share_uri
     = S (pending_retries after_one_failure share_uri).
Proof.
  split; [reflexivity |].
  destruct (scheduleRetry_adds_a_task after_one_failure 1
              (failed 1000 share) 30 eq_refl) as (id & _ & _ & _ & _ & Hn).
  exact Hn.
Defined.

(** C7: the success callback of a mount request sets [failCount] to 0,
    whatever it was, and records the time; the other fields of the bookmark
    and the other bookmarks stay as they were. *)
Theorem mount_success_resets_failCount
    (env : Env) (st : State) (b : positive) (bk : Bookmark)
    (isStartup : bool) :
  heap st !! b = Some bk ->
  let st' := mount_finished env st b isStartup None in
  exists bk',
    heap st' = <[b := bk']> (heap st)
    /\ failCount bk' = 0%Z /\ lastAttempt bk' = now env
    /\ uri bk' = uri bk /\ name bk' = name bk /\ enabled bk' = enabled bk
    /\ createSymlink bk' = createSymlink bk
    /\ symlinkPath bk' = symlinkPath bk.
Proof.
  intros Hb st'. subst st'. unfold mount_finished. rewrite Hb.
  exists (succeeded (now env) bk). repeat split; reflexivity.
Qed.

Lemma mount_success_witness :
  heap after_one_failure !! 1%positive = Some (failed 1000 share)
  /\ failCount (failed 1000 share) = 1%Z
  /\ exists bk',
       heap (mount_finished quiet_env after_one_failure 1 false None)
         = <[1%positive := bk']> (heap after_one_failure)
       /\ failCount bk' = 0%Z.
Proof.
  split; [reflexivity |]. split; [reflexivity |].
  destruct (mount_success_resets_failCount quiet_env after_one_failure 1
              (failed 1000 share) false eq_refl) as (bk' & Hh & Hn & _).
  exists bk'. split; [exact Hh | exact Hn].
Defined.

(** ** What reaches the message tray *)

Lemma passes_flags c c' e : flags c = flags c' -> passes c e = passes c' e.
Proof. unfold flags, passes. intros [= -> -> ->]. reflexivity. Qed.

Lemma tray_ext_refl st : tray_ext st st.
Proof.
  split; [reflexivity |]. exists []. split; [| constructor].
  symmetry. apply app_nil_r.
Qed.

Lemma tray_ext_trans st1 st2 st3 :
  tray_ext st1 st2 -> tray_ext st2 st3 -> tray_ext st1 st3.
Proof.
  intros [Hf1 (l1 & Hs1 & Hl1)] [Hf2 (l2 & Hs2 & Hl2)].
  split; [congruence |].
  exists (l1 ++ l2). split.
  - rewrite Hs2, Hs1. symmetry. apply app_assoc.
  - apply Forall_app. split; [exact Hl1 |].
    eapply Forall_impl; [exact Hl2 |]. cbn. intros n Hn.
    rewrite <- Hn. symmetry. apply passes_flags. exact Hf1.
Qed.

(** A step that leaves the switches and the tray alone. *)
Lemma tray_ext_same s0 st st' :
  flags (settings st') = flags (settings st) -> shown st' = shown st ->
  tray_ext s0 st -> tray_ext s0 st'.
Proof.
  intros Hf Hs H. eapply tray_ext_trans; [exact H |].
  split; [exact Hf |]. exists []. split; [| constructor].
  rewrite Hs. symmetry. apply app_nil_r.
Qed.

Lemma tray_notify s0 st ttl msg isError :
  tray_ext s0 st -> tray_ext s0 (_notify st ttl msg isError).
Proof.
  intros H. eapply tray_ext_trans; [exact H |].
  split; [f_equal; apply notify_frame |].
  rewrite notify_shown. destruct (passes (settings st) isError) eqn:Hp.
  - exists [mkNotification ttl msg isError]. split; [reflexivity |].
    constructor; [exact Hp | constructor].
  - exists []. split; [symmetry; apply app_nil_r | constructor].
Qed.

Ltac tray_same := intros H; exact (tray_ext_same _ _ _ eq_refl eq_refl H).

Lemma tray_log s0 st m : tray_ext s0 st -> tray_ext s0 (log m st).
Proof. tray_same. Qed.
Lemma tray_set_heap s0 st f : tray_ext s0 st -> tray_ext s0 (set_heap f st).
Proof. tray_same. Qed.
Lemma tray_set_bookmarks s0 st f :
  tray_ext s0 st -> tray_ext s0 (set_bookmarks f st).
Proof. tray_same. Qed.
Lemma tray_set_mountedLocations s0 st f :
  tray_ext s0 st -> tray_ext s0 (set_mountedLocations f st).
Proof. tray_same. Qed.
Lemma tray_set_symlinkPaths s0 st f :
  tray_ext s0 st -> tray_ext s0 (set_symlinkPaths f st).
Proof. tray_same. Qed.
Lemma tray_set_timeoutId s0 st f :
  tray_ext s0 st -> tray_ext s0 (set_timeoutId f st).
Proof. tray_same. Qed.
Lemma tray_set_timeoutIds s0 st f :
  tray_ext s0 st -> tray_ext s0 (set_timeoutIds f st).
Proof. tray_same. Qed.
Lemma tray_set_startup s0 st f :
  tray_ext s0 st -> tray_ext s0 (set_startupMountInProgress f st).
Proof. tray_same. Qed.
Lemma tray_set_fs s0 st f : tray_ext s0 st -> tray_ext s0 (set_fs f st).
Proof. tray_same. Qed.
Lemma tray_set_sources s0 st f :
  tray_ext s0 st -> tray_ext s0 (set_sources f st).
Proof. tray_same. Qed.
Lemma tray_set_mount_requests s0 st f :
  tray_ext s0 st -> tray_ext s0 (set_mount_requests f st).
Proof. tray_same. Qed.
Lemma tray_set_unmount_requests s0 st f :
  tray_ext s0 st -> tray_ext s0 (set_unmount_requests f st).
Proof. tray_same. Qed.
Lemma tray_source_remove s0 st id :
  tray_ext s0 st -> tray_ext s0 (source_remove id st).
Proof. tray_same. Qed.
Lemma tray_save s0 st :
  tray_ext s0 st -> tray_ext s0 (_saveBookmarkSettings st).
Proof. tray_same. Qed.

Create HintDb tray.
#[local] Hint Resolve tray_ext_refl tray_notify tray_log tray_set_heap
  tray_set_bookmarks tray_set_mountedLocations tray_set_symlinkPaths
  tray_set_timeoutId tray_set_timeoutIds tray_set_startup tray_set_fs
  tray_set_sources tray_set_mount_requests tray_set_unmount_requests
  tray_source_remove tray_save : tray.

(** Peel a method body: case on its tests, then go through its calls from
    the outside in. *)
Ltac tray := repeat case_match; simplify_eq; simpl; auto 20 with tray.

Lemma tray_foldl {A} (f : State -> A -> State) s0 (l : list A) :
  (forall st x, tray_ext s0 st -> tray_ext s0 (f st x)) ->
  forall st, tray_ext s0 st -> tray_ext s0 (foldl f st l).
Proof.
  intros Hf. induction l as [| x l IH]; intros st H; simpl; [exact H |].
  apply IH, Hf, H.
Qed.

Lemma tray_foldl_fst {A B} (f : State * B -> A -> State * B) s0
    (l : list A) :
  (forall acc x, tray_ext s0 acc.1 -> tray_ext s0 (f acc x).1) ->
  forall acc, tray_ext s0 acc.1 -> tray_ext s0 (foldl f acc l).1.
Proof.
  intros Hf. induction l as [| x l IH]; intros acc H; simpl; [exact H |].
  apply IH, Hf, H.
Qed.

Lemma tray_removeSymlink env s0 st bk :
  tray_ext s0 st -> tray_ext s0 (_removeSymlink env st bk).1.
Proof. intros H. unfold _removeSymlink. tray. Qed.

Lemma tray_createSymlink env s0 st bk :
  tray_ext s0 st -> tray_ext s0 (_createSymlink env st bk).1.
Proof.
  intros H. unfold _createSymlink, _getGvfsMountPath.
  pose proof (tray_removeSymlink env s0) as Hr.
  tray.
Qed.

#[local] Hint Resolve tray_removeSymlink tray_createSymlink : tray.

Lemma tray_loadBookmarkSettings s0 st :
  tray_ext s0 st -> tray_ext s0 (_loadBookmarkSettings st).
Proof.
  intros H. unfold _loadBookmarkSettings. tray.
  apply tray_foldl; [| exact H].
  intros st' b H'. unfold load_one. tray.
Qed.

Lemma tray_updateBookmarksList env s0 st :
  tray_ext s0 st -> tray_ext s0 (_updateBookmarksList env st).
Proof.
  intros H. unfold _updateBookmarksList.
  apply tray_foldl; [| exact H].
  intros st' b H'. unfold refresh_one. tray.
Qed.

Lemma tray_alloc_all s0 bks :
  forall st, tray_ext s0 st -> tray_ext s0 (alloc_all st bks).1.
Proof.
  induction bks as [| bk bks IH]; intros st H; simpl; [exact H |].
  specialize (IH (set_heap (insert (fresh (dom (heap st))) bk) st)).
  destruct (alloc_all _ bks) as [st2 rs]. simpl in *. auto with tray.
Qed.

#[local] Hint Resolve tray_loadBookmarkSettings tray_updateBookmarksList
  : tray.

Lemma tray_loadBookmarks env s0 st :
  tray_ext s0 st -> tray_ext s0 (_loadBookmarks env st).
Proof.
  intros H. unfold _loadBookmarks.
  destruct (bookmarks_file env) as [| | | c]; auto 10 with tray.
  pose proof (tray_alloc_all s0 (parse_bookmarks env c) st H) as Ha.
  destruct (alloc_all st (parse_bookmarks env c)) as [st1 rs].
  simpl in Ha. auto 10 with tray.
Qed.

Lemma tray_scheduleRetry s0 st b d :
  tray_ext s0 st -> tray_ext s0 (_scheduleRetry st b d).
Proof. intros H. unfold _scheduleRetry, timeout_add_seconds. tray. Qed.

#[local] Hint Resolve tray_loadBookmarks tray_scheduleRetry : tray.

Lemma tray_handleMountFailure env s0 st b msg :
  tray_ext s0 st -> tray_ext s0 (_handleMountFailure env st b msg).
Proof. intros H. unfold _handleMountFailure. tray. Qed.

#[local] Hint Resolve tray_handleMountFailure : tray.

Lemma tray_mountLocation env s0 st b isRetry isStartup :
  tray_ext s0 st -> tray_ext s0 (_mountLocation env st b isRetry isStartup).
Proof. intros H. unfold _mountLocation. tray. Qed.

Lemma tray_mount_finished env s0 st b isStartup result :
  tray_ext s0 st -> tray_ext s0 (mount_finished env st b isStartup result).
Proof.
  intros H. unfold mount_finished, timeout_add_seconds. tray.
Qed.

Lemma tray_unmountLocation env s0 st b :
  tray_ext s0 st -> tray_ext s0 (_unmountLocation env st b).
Proof. intros H. unfold _unmountLocation. tray. Qed.

Lemma tray_unmount_finished s0 st b result :
  tray_ext s0 st -> tray_ext s0 (unmount_finished st b result).
Proof. intros H. unfold unmount_finished. tray. Qed.

#[local] Hint Resolve tray_mountLocation tray_mount_finished
  tray_unmountLocation tray_unmount_finished : tray.

Lemma tray_checkAndMountAll env s0 st manual isStartup :
  tray_ext s0 st -> tray_ext s0 (_checkAndMountAll env st manual isStartup).
Proof.
  intros H. unfold _checkAndMountAll.
  pose proof (tray_foldl_fst (check_one env isStartup) s0
                (_bookmarks (_loadBookmarks env st))) as Hf.
  specialize (Hf ltac:(intros [st' [m t]] b H'; unfold check_one; simpl in *;
                       tray)
                (_loadBookmarks env st, (0, 0)%Z)
                ltac:(simpl; auto with tray)).
  destruct (foldl _ _ _) as [st2 [mounted total]]. simpl in Hf.
  destruct manual; auto with tray.
Qed.

Lemma tray_mountAllEnabled env s0 st :
  tray_ext s0 st -> tray_ext s0 (_mountAllEnabled env st).
Proof.
  intros H. unfold _mountAllEnabled.
  pose proof (tray_foldl_fst (mount_enabled_one env) s0
                (List.filter (is_enabled st) (_bookmarks st))) as Hf.
  specialize (Hf ltac:(intros [st' c] b H'; unfold mount_enabled_one;
                       simpl in *; tray)
                (st, 0%Z) H).
  destruct (foldl _ _ _) as [st1 count]. simpl in Hf. auto with tray.
Qed.

Lemma tray_unmountAll env s0 st :
  tray_ext s0 st -> tray_ext s0 (_unmountAll env st).
Proof.
  intros H. unfold _unmountAll.
  pose proof (tray_foldl_fst (unmount_one env) s0 (_bookmarks st)) as Hf.
  specialize (Hf ltac:(intros [st' c] b H'; unfold unmount_one;
                       simpl in *; tray)
                (st, 0%Z) H).
  destruct (foldl _ _ _) as [st1 count]. simpl in Hf. auto with tray.
Qed.

Lemma tray_startPeriodicCheck s0 st :
  tray_ext s0 st -> tray_ext s0 (_startPeriodicCheck st).
Proof.
  intros H. unfold _startPeriodicCheck, timeout_add_seconds. tray.
Qed.

Lemma tray_set_fold_source_remove s0 (ids : gset positive) st :
  tray_ext s0 st -> tray_ext s0 (set_fold source_remove st ids).
Proof.
  intros H.
  apply (set_fold_ind_L (fun st' _ => tray_ext s0 st')); [exact H |].
  intros id X st' _ H'. auto with tray.
Qed.

Lemma tray_destroy env s0 st : tray_ext s0 st -> tray_ext s0 (destroy env st).
Proof.
  intros H. unfold destroy, _cleanupAllSymlinks.
  apply tray_set_symlinkPaths, tray_foldl.
  - intros st' b H'. unfold cleanup_one. tray.
  - apply tray_set_timeoutIds, tray_set_fold_source_remove. tray.
Qed.

#[local] Hint Resolve tray_checkAndMountAll tray_mountAllEnabled
  tray_unmountAll tray_startPeriodicCheck tray_destroy : tray.

Lemma tray_fire env s0 st id : tray_ext s0 st -> tray_ext s0 (fire env st id).
Proof.
  intros H. unfold fire, run_callback.
  destruct (sources st !! id) as [src |]; [| exact H].
  destruct (callback src) as [| | b isStartup | b |]; auto 10 with tray.
  - destruct (heap st !! b) as [bk |]; auto 10 with tray.
    pose proof (tray_createSymlink env s0 st bk H) as Hc.
    destruct (_createSymlink env st bk) as [st1 created]. simpl in Hc.
    destruct isStartup; simpl; auto 10 with tray.
  - tray.
Qed.

Lemma tray_step env st a : tray_ext st (step env st a).
Proof.
  pose proof (tray_ext_refl st) as H.
  destruct a; simpl; auto using tray_fire with tray.
  - unfold _openSettings. tray.
  - unfold on_toggled. tray.
  - unfold on_bookmark_settings_changed. tray.
Qed.

(** C10: [_notify] shows a notification only when [show-notifications] is
    on and, for an error, [show-error-notifications] is on, for anything
    else, [show-success-notifications] is on.  So with [show-notifications]
    off no action of the extension changes the tray, whatever the other two
    switches say; with [show-success-notifications] off every notification
    that an action adds is an error; the summary of a manual check and the
    counts of the two bulk actions are sent as non-errors; and the schema's
    default for [show-success-notifications] is off. *)
Theorem notifications_are_gated (env : Env) (st : State) (a : Action) :
  (forall ttl msg isError,
      shown (_notify st ttl msg isError) =
        if show_notifications (settings st)
           && (if isError then show_error_notifications (settings st)
               else show_success_notifications (settings st))
        then shown st ++ [mkNotification ttl msg isError]
        else shown st)
  /\ (show_notifications (settings st) = false ->
      shown (step env st a) = shown st)
  /\ (show_success_notifications (settings st) = false ->
      exists l, shown (step env st a) = shown st ++ l
                /\ Forall (fun n => urgent n = true) l)
  /\ (forall isStartup, exists calls m,
        notify_calls (_checkAndMountAll env st true isStartup) =
          calls ++ [mkNotification "Mount Check" m false])
  /\ (exists calls m,
        notify_calls (_mountAllEnabled env st) =
          calls ++ [mkNotification "Mounting All" m false])
  /\ (exists calls m,
        notify_calls (_unmountAll env st) =
          calls ++ [mkNotification "Unmounting All" m false])
  /\ show_success_notifications default_settings = false.
Proof.
  pose proof (tray_step env st a) as [_ (l & Hl & Hall)].
  split; [intros; apply notify_shown |].
  split; [| split].
  - intros Hoff. rewrite Hl.
    destruct l as [| n l]; [apply app_nil_r |].
    apply Forall_cons in Hall as [Hn _].
    unfold passes in Hn. rewrite Hoff in Hn. discriminate.
  - intros Hoff. exists l. split; [exact Hl |].
    eapply Forall_impl; [exact Hall |]. cbn. intros n Hn.
    unfold passes in Hn. rewrite Hoff in Hn.
    destruct (urgent n); [reflexivity |].
    rewrite andb_false_r in Hn. discriminate.
  - split; [| split; [| split; [| reflexivity]]].
    + intros isStartup. unfold _checkAndMountAll.
      destruct (foldl _ _ _) as [st2 [mounted total]].
      rewrite notify_calls_grow. eauto.
    + unfold _mountAllEnabled. destruct (foldl _ _ _) as [st1 count].
      rewrite notify_calls_grow. eauto.
    + unfold _unmountAll. destruct (foldl _ _ _) as [st1 count].
      rewrite notify_calls_grow. eauto.
Qed.

(** ** The sanitiser *)

Lemma replace_runs_map (p p' : N -> bool) (g : N -> N) (s : jsstring) :
  (forall c, p' (g c) = p c) -> (forall c, p c = false -> g c = c) ->
  replace_runs p' (map g s) = replace_runs p s.
Proof.
  intros Hp Hg. induction s as [| c t IH]; [reflexivity |].
  cbn [map replace_runs]. rewrite Hp, IH.
  assert (head_in p' (map g t) = head_in p t) as ->
    by (destruct t; [reflexivity | apply Hp]).
  destruct (p c) eqn:Hc; [reflexivity |]. rewrite (Hg c Hc). reflexivity.
Qed.

Lemma head_after_spaces (t : jsstring) :
  head_in is_underscore (replace_runs is_space t)
  = head_in space_or_underscore t.
Proof.
  induction t as [| c t IH]; [reflexivity |].
  cbn [replace_runs head_in]. unfold space_or_underscore at 1.
  destruct (is_space c) eqn:Hc; [| reflexivity].
  destruct (head_in is_space t) eqn:Ht; [| reflexivity].
  rewrite IH. destruct t as [| c' t]; [discriminate |].
  cbn in *. unfold space_or_underscore. rewrite Ht. reflexivity.
Qed.

Lemma spaces_then_underscores (s : jsstring) :
  replace_runs is_underscore (replace_runs is_space s)
  = replace_runs space_or_underscore s.
Proof.
  induction s as [| c t IH]; [reflexivity |].
  cbn [replace_runs]. unfold space_or_underscore at 1.
  destruct (is_space c) eqn:Hc; cbn [orb].
  - destruct (head_in is_space t) eqn:Ht.
    + rewrite IH.
      assert (head_in space_or_underscore t = true) as ->; [| reflexivity].
      destruct t as [| c' t]; [discriminate |].
      cbn in *. unfold space_or_underscore. rewrite Ht. reflexivity.
    + cbn [replace_runs]. change (is_underscore underscore) with true.
      cbn iota. rewrite head_after_spaces, IH. reflexivity.
  - cbn [replace_runs]. rewrite head_after_spaces, IH. reflexivity.
Qed.

Lemma sanitize_is_one_pass (nm : jsstring) :
  _sanitizeForFilename nm = sanitize_one_pass nm.
Proof.
  unfold _sanitizeForFilename, sanitize_one_pass, replace_each.
  rewrite spaces_then_underscores.
  rewrite (replace_runs_map is_collapsed); [reflexivity | |].
  - intros c. unfold is_collapsed, space_or_underscore.
    destruct (is_forbidden c); [reflexivity |]. reflexivity.
  - intros c. unfold is_collapsed.
    destruct (is_forbidden c); [discriminate | reflexivity].
Qed.

(** What is left after the runs are replaced: underscores and code units
    outside the class. *)
Lemma replace_runs_content (p : N -> bool) (s : jsstring) :
  Forall (fun c => c = underscore \/ p c = false) (replace_runs p s).
Proof.
  induction s as [| c t IH]; [constructor |].
  cbn [replace_runs]. destruct (p c) eqn:Hc.
  - destruct (head_in p t); [exact IH |]. constructor; [left; reflexivity |].
    exact IH.
  - constructor; [right; exact Hc | exact IH].
Qed.

Lemma strip_first_Forall (P : N -> Prop) (s : jsstring) :
  Forall P s -> Forall P (strip_first s).
Proof.
  intros H. destruct s as [| c t]; [constructor |]. cbn.
  destruct (is_underscore c); [| exact H].
  apply Forall_cons in H as [_ H]. exact H.
Qed.

Lemma strip_last_Forall (P : N -> Prop) (s : jsstring) :
  Forall P s -> Forall P (strip_last s).
Proof.
  induction s as [| c t IH]; intros H; [constructor |].
  apply Forall_cons in H as [Hc Ht]. cbn [strip_last].
  destruct t as [| c' t'].
  - destruct (is_underscore c); constructor; [exact Hc | constructor].
  - constructor; [exact Hc | apply IH, Ht].
Qed.

Lemma head_after_runs (s : jsstring) :
  head_in is_collapsed s = false ->
  head_in is_underscore (replace_runs is_collapsed s) = false.
Proof.
  destruct s as [| c t]; [reflexivity |]. cbn. intros Hc. rewrite Hc. cbn.
  unfold is_collapsed in Hc. apply orb_false_elim in Hc as [_ Hc].
  exact Hc.
Qed.

Lemma replace_runs_single (s : jsstring) :
  single_underscores (replace_runs is_collapsed s) = true.
Proof.
  induction s as [| c t IH]; [reflexivity |].
  cbn [replace_runs]. destruct (is_collapsed c) eqn:Hc.
  - destruct (head_in is_collapsed t) eqn:Ht; [exact IH |].
    cbn [single_underscores]. rewrite (head_after_runs t Ht), IH.
    rewrite andb_false_r. reflexivity.
  - cbn [single_underscores]. rewrite IH.
    unfold is_collapsed in Hc. apply orb_false_elim in Hc as [_ Hc].
    rewrite Hc. reflexivity.
Qed.

Lemma strip_first_head (s : jsstring) :
  single_underscores s = true ->
  head_in is_underscore (strip_first s) = false
  /\ single_underscores (strip_first s) = true.
Proof.
  destruct s as [| c t]; [intros _; split; reflexivity |].
  cbn [single_underscores strip_first].
  destruct (is_underscore c) eqn:Hc; cbn [negb andb head_in].
  - intros H. apply andb_prop in H as [H1 H2].
    apply negb_true_iff in H1. split; assumption.
  - intros H. split; [exact Hc |]. cbn [single_underscores].
    rewrite Hc. exact H.
Qed.

Lemma strip_last_head (s : jsstring) :
  head_in is_underscore s = false ->
  head_in is_underscore (strip_last s) = false.
Proof.
  destruct s as [| c [| c' t]]; cbn; intros H; [reflexivity | | exact H].
  rewrite H. exact H.
Qed.

Lemma ends_with_underscore_cons c c' t :
  ends_with_underscore (c :: c' :: t) = ends_with_underscore (c' :: t).
Proof.
  unfold ends_with_underscore. cbn [rev].
  destruct (rev t ++ [c']) as [| x r] eqn:Hr; [| reflexivity].
  destruct (rev t); discriminate.
Qed.

Lemma strip_last_end (s : jsstring) :
  single_underscores s = true -> ends_with_underscore (strip_last s) = false.
Proof.
  induction s as [| c t IH]; [reflexivity |].
  destruct t as [| c' t'].
  - intros _. cbn. destruct (is_underscore c) eqn:Hc; [reflexivity |].
    cbn. exact Hc.
  - intros H. cbn [single_underscores] in H.
    apply andb_prop in H as [H1 H2]. specialize (IH H2).
    change (strip_last (c :: c' :: t')) with (c :: strip_last (c' :: t')).
    destruct (strip_last (c' :: t')) as [| x r] eqn:Hs.
    + (* the tail was a single underscore *)
      destruct t' as [| c'' t'']; [| discriminate].
      cbn in Hs. destruct (is_underscore c') eqn:Hc'; [| discriminate].
      cbn in H1. rewrite Hc', andb_true_r in H1.
      apply negb_true_iff in H1. cbn. exact H1.
    + rewrite ends_with_underscore_cons. exact IH.
Qed.

(** C4, as stated, fails: underscores that the name already has are part of
    the runs that collapse, which the stated rule does not say.  The stated
    rule gives the leaf of the example; on the name [a__b] it leaves the
    name as it is, and the code gives [a_b]. *)
Lemma sanitize_collapses_own_underscores :
  sanitize_spec (js "My Share: /data") = js "My_Share_data"
  /\ sanitize_spec (js "a__b") = js "a__b"
  /\ _sanitizeForFilename (js "a__b") = js "a_b"
  /\ link_name (new_bookmark share_uri (js "a__b"))
     <> sanitize_spec (js "a__b").
Proof.
  split; [reflexivity |]. split; [reflexivity |]. split; [reflexivity |].
  vm_compute. discriminate.
Qed.

(** C4, amended: the symlink path is the base directory (the setting
    [custom-mount-base], or [NetworkMounts] under the home directory when
    the setting is empty), a slash, and the leaf name; it depends on
    nothing but the bookmark, the setting and the home directory.  The leaf
    is [symlinkPath] when that is non-empty, else the sanitised name: every
    maximal run made of the listed characters, whitespace and underscores
    (also underscores that the name already has) becomes one underscore, and
    one underscore is removed at each end.  The sanitised name holds none of
    the listed characters and no whitespace, has no two underscores in a
    row, and neither starts nor ends with an underscore; [My Share: /data]
    gives [My_Share_data]. *)
Theorem getSymlinkPath_leaf (env : Env) (st : State) (bk : Bookmark) :
  let base :=
    if is_empty (custom_mount_base (settings st))
    then home_dir env ++ js "/NetworkMounts"
    else custom_mount_base (settings st) in
  let leaf :=
    if is_empty (symlinkPath bk) then _sanitizeForFilename (name bk)
    else symlinkPath bk in
  _getSymlinkPath env st bk = base ++ slash :: leaf
  /\ (forall env' st',
        home_dir env' = home_dir env ->
        custom_mount_base (settings st') = custom_mount_base (settings st) ->
        _getSymlinkPath env' st' bk = _getSymlinkPath env st bk)
  /\ (forall nm,
        _sanitizeForFilename nm
        = strip_last (strip_first (replace_runs is_collapsed nm))
        /\ Forall (fun c => is_forbidden c = false /\ is_space c = false)
             (_sanitizeForFilename nm)
        /\ single_underscores (replace_runs is_collapsed nm) = true
        /\ head_in is_underscore (_sanitizeForFilename nm) = false
        /\ ends_with_underscore (_sanitizeForFilename nm) = false)
  /\ _sanitizeForFilename (js "My Share: /data") = js "My_Share_data".
Proof.
  cbn zeta. split; [reflexivity |].
  split.
  { intros env' st' Hh Hc. unfold _getSymlinkPath, base_path.
    rewrite Hh, Hc. reflexivity. }
  split; [| reflexivity].
  intros nm. rewrite sanitize_is_one_pass. unfold sanitize_one_pass.
  pose proof (replace_runs_single nm) as Hsingle.
  destruct (strip_first_head _ Hsingle) as [Hhead Hsingle'].
  split; [reflexivity |]. split; [| split; [exact Hsingle | split]].
  - apply strip_last_Forall, strip_first_Forall.
    eapply Forall_impl; [apply replace_runs_content |].
    cbn. intros c [-> | Hc]; [split; reflexivity |].
    unfold is_collapsed in Hc.
    apply orb_false_elim in Hc as [Hc _].
    apply orb_false_elim in Hc as [Hf Hs]. split; assumption.
  - apply strip_last_head, Hhead.
  - apply strip_last_end, Hsingle'.
Qed.

(** ** Removing a symlink *)


(** ** What the symlink methods leave alone *)

Lemma only_links_refl st : only_links st st.
Proof. repeat split. Qed.

Lemma only_links_trans st1 st2 st3 :
  only_links st1 st2 -> only_links st2 st3 -> only_links st1 st3.
Proof.
  unfold only_links. intros H1 H2.
  destruct H1 as (?&?&?&?&?&?&?&?&?&?&?&?).
  destruct H2 as (?&?&?&?&?&?&?&?&?&?&?&?).
  repeat split; congruence.
Qed.

Lemma only_links_removeSymlink env st bk :
  only_links st (_removeSymlink env st bk).1.
Proof. unfold _removeSymlink. repeat case_match; repeat split. Qed.

Lemma only_links_createSymlink env st bk :
  only_links st (_createSymlink env st bk).1.
Proof.
  unfold _createSymlink, _getGvfsMountPath.
  repeat case_match; simplify_eq; cbn [fst];
    try (repeat split; fail);
    match goal with
    | |- only_links ?s (log _ (set_symlinkPaths _ (set_fs _ (_removeSymlink env ?s2 bk).1))) =>
        pose proof (only_links_removeSymlink env s2 bk) as Hr
    | |- only_links ?s (log _ (_removeSymlink env ?s2 bk).1) =>
        pose proof (only_links_removeSymlink env s2 bk) as Hr
    end;
    unfold only_links in *; cbn in *;
    destruct Hr as (?&?&?&?&?&?&?&?&?&?&?&?); repeat split; assumption.
Qed.

Lemma only_links_foldl {A} (f : State -> A -> State) (l : list A) :
  (forall st x, only_links st (f st x)) ->
  forall st, only_links st (foldl f st l).
Proof.
  intros Hf. induction l as [| x l IH]; intros st; simpl.
  - apply only_links_refl.
  - eapply only_links_trans; [apply Hf | apply IH].
Qed.

Lemma only_links_updateBookmarksList env st :
  only_links st (_updateBookmarksList env st).
Proof.
  unfold _updateBookmarksList. apply only_links_foldl.
  intros st' b. unfold refresh_one.
  repeat case_match;
    auto using only_links_refl, only_links_createSymlink.
Qed.

(** ** Loading the persisted settings *)

Lemma alloc_all_spec (bks : list Bookmark) (st : State) :
  (forall x bk, heap st !! x = Some bk ->
                heap (alloc_all st bks).1 !! x = Some bk)
  /\ Forall2 (fun x bk => heap (alloc_all st bks).1 !! x = Some bk)
       (alloc_all st bks).2 bks
  /\ settings (alloc_all st bks).1 = settings st
  /\ console (alloc_all st bks).1 = console st.
Proof.
  revert st. induction bks as [| bk bks IH]; intros st; cbn [alloc_all].
  - repeat split; [auto | constructor].
  - unfold alloc.
    set (r := fresh (dom (heap st))).
    assert (heap st !! r = None) as Hr
      by apply not_elem_of_dom, is_fresh.
    destruct (IH (set_heap (insert r bk) st)) as (Hkeep & Hall & Hs & Hc).
    destruct (alloc_all (set_heap (insert r bk) st) bks) as [st2 rs].
    cbn [fst snd] in *. repeat split.
    + intros x bk' Hx. apply Hkeep. cbn.
      rewrite lookup_insert_ne; [exact Hx | congruence].
    + constructor; [| exact Hall].
      apply Hkeep. cbn. apply lookup_insert_eq.
    + exact Hs.
    + exact Hc.
Qed.

Lemma parse_line_defaults env line : has_defaults (parse_line env line).
Proof.
  unfold parse_line. destruct (split 32 (trim line)); repeat split.
Qed.

(** C9, as stated, fails: [_loadBookmarkSettings] also runs when the
    settings key changes, on bookmarks that already carry loaded values.
    With a malformed string it leaves them as they are; a bookmark that was
    turned off stays off and does not go back to the default. *)
Lemma malformed_settings_keep_loaded_values :
  let st := store_bookmark_settings StrMalformed share_turned_off in
  bookmark_settings (settings st) = StrMalformed
  /\ exists bk,
       heap (_loadBookmarkSettings st) !! 1%positive = Some bk
       /\ enabled bk = false
       /\ ~ has_defaults bk.
Proof.
  cbn zeta. split; [reflexivity |].
  eexists. split; [vm_compute; reflexivity |].
  split; [reflexivity |]. intros [H _]. discriminate.
Qed.

(** C9, amended: when the persisted string is malformed,
    [_loadBookmarkSettings] returns normally, changes no bookmark and adds
    one diagnostic to the console; so the bookmarks that [_loadBookmarks]
    has just made from the bookmark file all keep their default values. *)
Theorem malformed_settings_change_nothing (env : Env) (st : State) :
  bookmark_settings (settings st) = StrMalformed ->
  _loadBookmarkSettings st = log "Error loading bookmark settings:" st
  /\ heap (_loadBookmarkSettings st) = heap st
  /\ console (_loadBookmarkSettings st)
     = console st ++ ["Error loading bookmark settings:"%string]
  /\ (forall c, bookmarks_file env = FileContents c ->
        Forall (fun b => exists bk,
                    heap (_loadBookmarks env st) !! b = Some bk
                    /\ has_defaults bk)
          (_bookmarks (_loadBookmarks env st))
        /\ In "Error loading bookmark settings:"%string
             (console (_loadBookmarks env st))).
Proof.
  intros Hbad. unfold _loadBookmarkSettings at 1 2 3. rewrite Hbad.
  do 3 (split; [reflexivity |]).
  intros c Hc. unfold _loadBookmarks. rewrite Hc.
  destruct (alloc_all_spec (parse_bookmarks env c) st)
    as (_ & Hall & Hs & Hcon).
  destruct (alloc_all st (parse_bookmarks env c)) as [st1 rs].
  cbn [fst snd] in *.
  unfold _loadBookmarkSettings.
  change (settings (set_bookmarks _ st1)) with (settings st1).
  rewrite Hs, Hbad.
  set (st2 := log _ (set_bookmarks _ st1)).
  pose proof (only_links_updateBookmarksList env st2) as (Hh & Hb & _).
  rewrite Hh, Hb. cbn. split.
  - apply Forall_forall. intros b Hin.
    destruct (proj1 (list_elem_of_lookup _ _) Hin) as [i Hi].
    destruct (Forall2_lookup_l _ _ _ _ _ Hall Hi) as (bk & Hbk & Hheap).
    exists bk. split; [exact Hheap |].
    apply list_elem_of_lookup_2, list_elem_of_In in Hbk.
    unfold parse_bookmarks in Hbk. apply in_map_iff in Hbk as (ln & <- & _).
    apply parse_line_defaults.
  - (* the console only grows along the refresh *)
    assert (forall l s, In "Error loading bookmark settings:"%string
                          (console s) ->
              In "Error loading bookmark settings:"%string
                (console (foldl (refresh_one env) s l))) as Hgrow.
    { induction l as [| b l IH]; intros s H; [exact H |].
      cbn [foldl]. apply IH. unfold refresh_one.
      destruct (heap s !! b) as [bk |]; [| exact H].
      destruct (_ && _); [| exact H].
      unfold _createSymlink, _getGvfsMountPath, _removeSymlink.
      repeat case_match; simplify_eq; cbn;
        rewrite ?in_app_iff; auto; cbn; rewrite ?in_app_iff; auto. }
    apply Hgrow. subst st2. cbn. apply in_app_iff. right. left. reflexivity.
Qed.

Lemma malformed_settings_witness :
  bookmark_settings
    (settings (store_bookmark_settings StrMalformed one_bookmark))
  = StrMalformed
  /\ heap (_loadBookmarkSettings
             (store_bookmark_settings StrMalformed one_bookmark))
     = heap (store_bookmark_settings StrMalformed one_bookmark).
Proof.
  split; [reflexivity |].
  exact (proj1 (proj2 (malformed_settings_change_nothing quiet_env
                         (store_bookmark_settings StrMalformed one_bookmark)
                         eq_refl))).
Defined.

(** ** Disabled bookmarks *)

Lemma pass_ext_same st st' :
  heap st' = heap st -> mount_requests st' = mount_requests st ->
  pass_ext st st'.
Proof.
  intros Hh Hm. split.
  - intros b. rewrite Hh. destruct (heap st !! b); auto.
  - exists []. rewrite Hm, app_nil_r. split; [reflexivity | constructor].
Qed.

Lemma pass_ext_enabled st0 st b :
  pass_ext st0 st -> is_enabled st b = is_enabled st0 b.
Proof.
  intros [H _]. specialize (H b). unfold is_enabled.
  destruct (heap st0 !! b), (heap st !! b); tauto.
Qed.

Lemma pass_ext_trans st1 st2 st3 :
  pass_ext st1 st2 -> pass_ext st2 st3 -> pass_ext st1 st3.
Proof.
  intros H12 H23.
  pose proof (fun b => pass_ext_enabled st1 st2 b H12) as Hen.
  destruct H12 as [H1 (l1 & Hl1 & Hf1)], H23 as [H2 (l2 & Hl2 & Hf2)].
  split.
  - intros b. specialize (H1 b). specialize (H2 b).
    destruct (heap st1 !! b), (heap st2 !! b), (heap st3 !! b); try tauto.
    destruct H1 as (He1 & Hu1 & Hd1), H2 as (He2 & Hu2 & Hd2).
    split; [congruence |]. split; [congruence |].
    intros Hoff. rewrite Hd2 by congruence. auto.
  - exists (l1 ++ l2). rewrite Hl2, Hl1, app_assoc. split; [reflexivity |].
    apply Forall_app. split; [exact Hf1 |].
    eapply Forall_impl; [exact Hf2 |]. cbn. intros r Hr.
    rewrite <- Hen. exact Hr.
Qed.

Lemma pass_ext_createSymlink env st bk :
  pass_ext st (_createSymlink env st bk).1.
Proof.
  pose proof (only_links_createSymlink env st bk)
    as (Hh & _ & _ & _ & _ & _ & _ & _ & Hm & _).
  apply pass_ext_same; assumption.
Qed.

Lemma pass_ext_notify st ttl msg isError :
  pass_ext st (_notify st ttl msg isError).
Proof. apply pass_ext_same; apply notify_frame. Qed.

Lemma pass_ext_handleMountFailure env st b msg :
  is_enabled st b = true -> pass_ext st (_handleMountFailure env st b msg).
Proof.
  unfold is_enabled, _handleMountFailure. intros Hen.
  destruct (heap st !! b) as [bk |] eqn:Hb; [| discriminate].
  match goal with
  | |- pass_ext _ (if _ then _notify ?s _ _ _ else _notify ?s' _ _ _) =>
      assert (pass_ext st s /\ pass_ext st s') as [H1 H2]
  end.
  { assert (pass_ext st (set_heap (insert b (failed (now env) bk)) st))
      as Hset.
    { split.
      - intros b'. cbn. destruct (decide (b = b')) as [<- | Hne].
        + rewrite lookup_insert_eq, Hb.
          split; [reflexivity |]. split; [reflexivity | congruence].
        + rewrite lookup_insert_ne by exact Hne.
          destruct (heap st !! b'); auto.
      - exists []. cbn. rewrite app_nil_r. split; [reflexivity | constructor]. }
    split; [| exact Hset].
    eapply pass_ext_trans; [exact Hset |]. apply pass_ext_same; reflexivity. }
  destruct (_ <=? _)%Z.
  - eapply pass_ext_trans; [exact H1 | apply pass_ext_notify].
  - eapply pass_ext_trans; [exact H2 | apply pass_ext_notify].
Qed.

Lemma pass_ext_mountLocation env st b isRetry isStartup :
  is_enabled st b = true ->
  pass_ext st (_mountLocation env st b isRetry isStartup).
Proof.
  intros Hen. unfold _mountLocation.
  destruct (heap st !! b) as [bk |] eqn:Hb;
    [| apply pass_ext_same; reflexivity].
  destruct (_isLocationMounted env (uri bk)).
  - destruct (_ && _).
    + eapply pass_ext_trans;
        [apply pass_ext_createSymlink | apply pass_ext_notify].
    + apply pass_ext_createSymlink.
  - destruct (mount_throws env !! uri bk) as [msg |].
    + eapply pass_ext_trans;
        [| apply pass_ext_handleMountFailure; exact Hen].
      apply pass_ext_same; reflexivity.
    + split.
      * intros b'. cbn. destruct (heap st !! b'); auto.
      * exists [(b, isStartup)]. split; [reflexivity |].
        constructor; [exact Hen | constructor].
Qed.

Lemma pass_ext_check_one env isStartup st counts b :
  pass_ext st (check_one env isStartup (st, counts) b).1.
Proof.
  unfold check_one. destruct counts as [mounted total].
  destruct (heap st !! b) as [bk |] eqn:Hb;
    [| apply pass_ext_same; reflexivity].
  destruct (enabled bk) eqn:Hen.
  - destruct (_isLocationMounted env (uri bk)); cbn [fst].
    + destruct (createSymlink bk);
        [apply pass_ext_createSymlink | apply pass_ext_same; reflexivity].
    + apply pass_ext_mountLocation. unfold is_enabled. rewrite Hb. exact Hen.
  - cbn [fst]. destruct (_ && _);
      [apply pass_ext_createSymlink | apply pass_ext_same; reflexivity].
Qed.

Lemma pass_ext_foldl env isStartup (l : list positive) :
  forall acc, pass_ext acc.1 (foldl (check_one env isStartup) acc l).1.
Proof.
  induction l as [| b l IH]; intros [st counts]; cbn [foldl fst].
  - apply pass_ext_same; reflexivity.
  - eapply pass_ext_trans; [apply (pass_ext_check_one env isStartup) | apply IH].
Qed.

Lemma loading_makes_no_request env st :
  mount_requests (_loadBookmarks env st) = mount_requests st.
Proof.
  assert (forall s, mount_requests (_updateBookmarksList env s)
                    = mount_requests s) as Hu
    by (intros s; apply only_links_updateBookmarksList).
  assert (forall s, mount_requests (_loadBookmarkSettings s)
                    = mount_requests s) as Hl.
  { intros s. unfold _loadBookmarkSettings.
    destruct (bookmark_settings (settings s)); try reflexivity.
    generalize (_bookmarks s). intros l. revert s.
    induction l as [| b l IH]; intros s; [reflexivity |].
    cbn [foldl]. rewrite IH. unfold load_one. repeat case_match; reflexivity. }
  assert (forall bks s, mount_requests (alloc_all s bks).1
                        = mount_requests s) as Ha.
  { induction bks as [| bk bks IH]; intros s; [reflexivity |].
    cbn [alloc_all]. unfold alloc.
    specialize (IH (set_heap (insert (fresh (dom (heap s))) bk) s)).
    destruct (alloc_all _ bks). exact IH. }
  unfold _loadBookmarks. destruct (bookmarks_file env) as [| | | c];
    try reflexivity; [apply Hu |].
  specialize (Ha (parse_bookmarks env c) st).
  destruct (alloc_all st (parse_bookmarks env c)) as [st1 rs].
  rewrite Hu, Hl. exact Ha.
Qed.

(** ** A disabled bookmark across reloads *)

Lemma keeps_config_same s0 st st' :
  settings st' = settings st -> _bookmarks st' = _bookmarks st ->
  keeps_config s0 st -> keeps_config s0 st'.
Proof. unfold keeps_config. intros Hs Hb [H1 H2]. split; congruence. Qed.

Ltac config_same :=
  intros H; exact (keeps_config_same _ _ _ eq_refl eq_refl H).

Lemma config_log s0 st m : keeps_config s0 st -> keeps_config s0 (log m st).
Proof. config_same. Qed.
Lemma config_set_heap s0 st f :
  keeps_config s0 st -> keeps_config s0 (set_heap f st).
Proof. config_same. Qed.
Lemma config_set_mount_requests s0 st f :
  keeps_config s0 st -> keeps_config s0 (set_mount_requests f st).
Proof. config_same. Qed.
Lemma config_notify s0 st ttl msg isError :
  keeps_config s0 st -> keeps_config s0 (_notify st ttl msg isError).
Proof.
  apply keeps_config_same; apply notify_frame.
Qed.
Lemma config_createSymlink env s0 st bk :
  keeps_config s0 st -> keeps_config s0 (_createSymlink env st bk).1.
Proof.
  pose proof (only_links_createSymlink env st bk)
    as (_ & Hb & _ & _ & _ & _ & Hs & _).
  apply keeps_config_same; assumption.
Qed.
Lemma config_scheduleRetry s0 st b d :
  keeps_config s0 st -> keeps_config s0 (_scheduleRetry st b d).
Proof. config_same. Qed.

Create HintDb config.
#[local] Hint Resolve config_log config_set_heap config_set_mount_requests
  config_notify config_createSymlink config_scheduleRetry : config.

Lemma config_handleMountFailure env s0 st b msg :
  keeps_config s0 st -> keeps_config s0 (_handleMountFailure env st b msg).
Proof.
  intros H. unfold _handleMountFailure.
  repeat case_match; auto 10 with config.
Qed.

#[local] Hint Resolve config_handleMountFailure : config.

Lemma config_mountLocation env s0 st b isRetry isStartup :
  keeps_config s0 st ->
  keeps_config s0 (_mountLocation env st b isRetry isStartup).
Proof.
  intros H. unfold _mountLocation. repeat case_match; auto 10 with config.
Qed.

#[local] Hint Resolve config_mountLocation : config.

Lemma config_check_fold env isStartup (l : list positive) :
  forall acc, keeps_config acc.1 (foldl (check_one env isStartup) acc l).1.
Proof.
  assert (forall s0 acc, keeps_config s0 acc.1 ->
            keeps_config s0 (foldl (check_one env isStartup) acc l).1) as H.
  { induction l as [| b l IH]; intros s0 acc Hacc; [exact Hacc |].
    cbn [foldl]. apply IH. destruct acc as [st [mounted total]].
    unfold check_one. cbn [fst] in *.
    repeat case_match; cbn [fst]; auto 10 with config. }
  intros acc. apply H. split; reflexivity.
Qed.

(** The requests that a pass adds are for bookmarks of the list. *)
Lemma mountLocation_requests env st b isRetry isStartup :
  mount_requests (_mountLocation env st b isRetry isStartup)
  = mount_requests st
  \/ mount_requests (_mountLocation env st b isRetry isStartup)
     = mount_requests st ++ [(b, isStartup)].
Proof.
  unfold _mountLocation.
  destruct (heap st !! b) as [bk |]; [| auto].
  destruct (_isLocationMounted env (uri bk)).
  - left. pose proof (only_links_createSymlink env st bk)
      as (_ & _ & _ & _ & _ & _ & _ & _ & Hm & _).
    destruct (_ && _); [| exact Hm].
    rewrite <- Hm. apply notify_frame.
  - destruct (mount_throws env !! uri bk) as [msg |]; [| right; reflexivity].
    left. unfold _handleMountFailure. cbn.
    destruct (heap st !! b); [| reflexivity].
    destruct (_ <=? _)%Z;
      match goal with
      | |- mount_requests (_notify ?s _ _ _) = _ =>
          pose proof (notify_frame s) as Hn; cbn zeta in Hn;
          rewrite (proj1 (proj2 (proj2 (proj2 (proj2 (proj2 (proj2
                    (Hn _ _ _))))))))
      end; reflexivity.
Qed.

Lemma check_fold_requests env isStartup (l : list positive) :
  forall acc, exists added,
    mount_requests (foldl (check_one env isStartup) acc l).1
    = mount_requests acc.1 ++ added
    /\ Forall (fun r => r.1 ∈ l) added.
Proof.
  induction l as [| b l IH]; intros acc; cbn [foldl].
  - exists []. rewrite app_nil_r. split; [reflexivity | constructor].
  - destruct (IH (check_one env isStartup acc b)) as (added & Hadd & Hall).
    assert (mount_requests (check_one env isStartup acc b).1
            = mount_requests acc.1
            \/ mount_requests (check_one env isStartup acc b).1
               = mount_requests acc.1 ++ [(b, isStartup)]) as Hone.
    { destruct acc as [st [mounted total]]. unfold check_one. cbn [fst].
      destruct (heap st !! b) as [bk |]; [| auto].
      assert (mount_requests (_createSymlink env st bk).1
              = mount_requests st) as Hc
        by apply only_links_createSymlink.
      destruct (enabled bk).
      - destruct (_isLocationMounted env (uri bk)); cbn [fst].
        + destruct (createSymlink bk); auto.
        + apply mountLocation_requests.
      - cbn [fst]. destruct (_ && _); auto. }
    destruct Hone as [Hone | Hone]; rewrite Hone in Hadd.
    + exists added. split; [exact Hadd |].
      eapply Forall_impl; [exact Hall |]. cbn. intros r Hr.
      apply elem_of_cons. right. exact Hr.
    + exists ((b, isStartup) :: added). rewrite Hadd, <- app_assoc.
      split; [reflexivity |]. constructor.
      * apply elem_of_cons. left. reflexivity.
      * eapply Forall_impl; [exact Hall |]. cbn. intros r Hr.
        apply elem_of_cons. right. exact Hr.
Qed.

(** Saving: the entry of a URI records [enabled = false] when every listed
    bookmark of that URI is off. *)
Lemma save_records_off st u (l : list positive) :
  (forall b bk, b ∈ l -> heap st !! b = Some bk -> uri bk = u ->
                enabled bk = false) ->
  forall acc,
    ((exists e, acc !! u = Some e /\ e_enabled e = Some false)
     \/ exists b bk, b ∈ l /\ heap st !! b = Some bk /\ uri bk = u) ->
    exists e, foldl (save_one st) acc l !! u = Some e
              /\ e_enabled e = Some false.
Proof.
  induction l as [| h l IH]; intros Hoff acc Hacc; cbn [foldl].
  - destruct Hacc as [Hacc | (b & bk & Hin & _)]; [exact Hacc |].
    inversion Hin.
  - apply IH.
    + intros b bk Hin. apply Hoff. apply elem_of_cons. right. exact Hin.
    + unfold save_one.
      destruct (heap st !! h) as [hk |] eqn:Hh.
      * destruct (decide (uri hk = u)) as [Hu | Hu].
        -- left. exists (entry_of hk). rewrite Hu, lookup_insert_eq.
           split; [reflexivity |]. cbn.
           rewrite (Hoff h hk (list_elem_of_here _ _) Hh Hu). reflexivity.
        -- destruct Hacc as [(e & He & Hoffe) | (b & bk & Hin & Hb & Hbu)].
           ++ left. exists e. rewrite lookup_insert_ne by exact Hu. auto.
           ++ right. apply elem_of_cons in Hin as [-> | Hin];
                [congruence | eauto].
      * destruct Hacc as [Hacc | (b & bk & Hin & Hb & Hbu)]; [auto |].
        right. apply elem_of_cons in Hin as [-> | Hin];
          [congruence | eauto].
Qed.

(** Loading: every listed bookmark ends up with the [enabled] flag that the
    entry of its URI gives. *)
Lemma load_one_keeps o st x b bk :
  heap st !! b = Some bk ->
  exists bk', heap (load_one o st x) !! b = Some bk' /\ uri bk' = uri bk
              /\ (settled o bk -> settled o bk')
              /\ (x = b -> settled o bk').
Proof.
  intros Hb. unfold load_one.
  destruct (decide (x = b)) as [-> | Hne].
  - rewrite Hb. destruct (o !! uri bk) as [e |] eqn:He.
    + exists (apply_entry e bk). cbn. rewrite lookup_insert_eq.
      split; [reflexivity |]. split; [reflexivity |].
      assert (settled o (apply_entry e bk)) as Hs
        by (intros e'; cbn; rewrite He; intros [= <-]; reflexivity).
      auto.
    + exists bk. split; [exact Hb |]. split; [reflexivity |].
      assert (settled o bk) as Hs by (intros e'; rewrite He; discriminate).
      auto.
  - exists bk. split; [| split; [reflexivity | split; [auto | congruence]]].
    destruct (heap st !! x) as [xk |]; [| exact Hb].
    destruct (o !! uri xk); [| exact Hb].
    cbn. rewrite lookup_insert_ne by exact Hne. exact Hb.
Qed.

Lemma load_fold_keeps o (l : list positive) :
  forall st b bk,
    heap st !! b = Some bk ->
    exists bk', heap (foldl (load_one o) st l) !! b = Some bk'
                /\ uri bk' = uri bk
                /\ (settled o bk \/ b ∈ l -> settled o bk').
Proof.
  induction l as [| x l IH]; intros st b bk Hb; cbn [foldl].
  - exists bk. split; [exact Hb |]. split; [reflexivity |].
    intros [H | H]; [exact H | inversion H].
  - destruct (load_one_keeps o st x b bk Hb) as (bk1 & Hb1 & Hu1 & Hk1 & Hx1).
    destruct (IH (load_one o st x) b bk1 Hb1) as (bk2 & Hb2 & Hu2 & Hk2).
    exists bk2. split; [exact Hb2 |]. split; [congruence |].
    intros [H | H]; apply Hk2.
    + left. auto.
    + apply elem_of_cons in H as [-> | H]; [left; auto | right; exact H].
Qed.

(** The switch records the URI as disabled when no other listed bookmark
    has it. *)
Lemma toggle_keeps_off st index b bk :
  _bookmarks st !! index = Some b -> heap st !! b = Some bk ->
  (forall b' bk', b' ∈ _bookmarks st -> heap st !! b' = Some bk' ->
                  uri bk' = uri bk -> b' = b) ->
  kept_off (uri bk) (on_toggled st index false).
Proof.
  intros Hi Hb Huniq. unfold on_toggled. rewrite Hi.
  set (off := fun k : Bookmark =>
                {| uri := uri k; name := name k; enabled := false;
                   createSymlink := createSymlink k;
                   symlinkPath := symlinkPath k;
                   lastAttempt := lastAttempt k;
                   failCount := failCount k |}).
  set (st1 := set_heap (alter off b) st).
  assert (heap st1 !! b = Some (off bk)) as Hb1.
  { subst st1. cbn. rewrite lookup_alter_eq, Hb. reflexivity. }
  assert (forall b' bk', b' ∈ _bookmarks st1 -> heap st1 !! b' = Some bk' ->
                         uri bk' = uri bk -> enabled bk' = false) as Hoff.
  { intros b' bk' Hin Hb' Hu.
    destruct (decide (b' = b)) as [-> | Hne].
    - rewrite Hb1 in Hb'. injection Hb' as <-. reflexivity.
    - exfalso. apply Hne. subst st1. cbn in Hb', Hin.
      rewrite lookup_alter_ne in Hb' by congruence.
      exact (Huniq b' bk' Hin Hb' Hu). }
  split.
  - eexists. split; [reflexivity |].
    apply save_records_off; [exact Hoff |].
    right. exists b, (off bk). split; [| split; [exact Hb1 | reflexivity]].
    apply list_elem_of_lookup. exists index. exact Hi.
  - exact Hoff.
Qed.

Lemma loadBookmarks_settings env st :
  settings (_loadBookmarks env st) = settings st.
Proof.
  assert (forall s, settings (_updateBookmarksList env s) = settings s) as Hu
    by (intros s; apply only_links_updateBookmarksList).
  assert (forall s, settings (_loadBookmarkSettings s) = settings s) as Hl.
  { intros s. unfold _loadBookmarkSettings.
    destruct (bookmark_settings (settings s)); try reflexivity.
    generalize (_bookmarks s). intros l. revert s.
    induction l as [| b l IH]; intros s; [reflexivity |].
    cbn [foldl]. rewrite IH. unfold load_one. repeat case_match; reflexivity. }
  unfold _loadBookmarks. destruct (bookmarks_file env) as [| | | c];
    try reflexivity; [apply Hu |].
  destruct (alloc_all_spec (parse_bookmarks env c) st) as (_ & _ & Hs & _).
  destruct (alloc_all st (parse_bookmarks env c)) as [st1 rs].
  rewrite Hu, Hl. exact Hs.
Qed.

Lemma reload_keeps_off env u st :
  kept_off u st -> kept_off u (_loadBookmarks env st).
Proof.
  intros [(o & Ho & Hoff) Hlist].
  split; [rewrite loadBookmarks_settings; eauto |].
  unfold _loadBookmarks. destruct (bookmarks_file env) as [| | | c].
  - intros r bkr Hin. inversion Hin.
  - pose proof (only_links_updateBookmarksList env st) as (Hh & Hb & _).
    rewrite Hh, Hb. exact Hlist.
  - exact Hlist.
  - destruct (alloc_all_spec (parse_bookmarks env c) st)
      as (_ & Hall & Hs & _).
    destruct (alloc_all st (parse_bookmarks env c)) as [st1 rs].
    cbn [fst snd] in *.
    set (st2 := set_bookmarks (fun _ => rs) st1).
    pose proof (only_links_updateBookmarksList env
                  (_loadBookmarkSettings st2)) as (Hh & Hb & _).
    rewrite Hh, Hb.
    unfold _loadBookmarkSettings.
    change (settings st2) with (settings st1). rewrite Hs, Ho.
    change (_bookmarks st2) with rs.
    assert (_bookmarks (foldl (load_one o) st2 rs) = rs) as ->.
    { assert (forall l s, _bookmarks (foldl (load_one o) s l) = _bookmarks s)
        as Hbl.
      { induction l as [| x l IH]; intros s; [reflexivity |].
        cbn [foldl]. rewrite IH. unfold load_one.
        repeat case_match; reflexivity. }
      apply Hbl. }
    intros r bkr Hin Hr Hu.
    destruct (proj1 (list_elem_of_lookup _ _) Hin) as [i Hi].
    destruct (Forall2_lookup_l _ _ _ _ _ Hall Hi) as (bk0 & _ & Hheap).
    destruct (load_fold_keeps o rs st2 r bk0 Hheap)
      as (bk' & Hb' & Hu' & Hset).
    rewrite Hr in Hb'. injection Hb' as <-.
    destruct Hoff as (e & He & Hen).
    rewrite (Hset (or_intror Hin) e) by (rewrite Hu; exact He).
    rewrite Hen. reflexivity.
Qed.

(** A reconciliation pass keeps a URI off and asks for no mount of a
    bookmark of that URI. *)
Lemma pass_keeps_off env u st manual isStartup :
  kept_off u st ->
  let st' := _checkAndMountAll env st manual isStartup in
  kept_off u st'
  /\ exists added,
       mount_requests st' = mount_requests st ++ added
       /\ Forall (fun r => exists bkr, heap st' !! r.1 = Some bkr
                                       /\ enabled bkr = true
                                       /\ uri bkr <> u) added.
Proof.
  intros Hoff. cbn zeta.
  pose proof (reload_keeps_off env u st Hoff) as [Hset1 Hlist1].
  set (st1 := _loadBookmarks env st) in *.
  assert (pass_ext st1 (_checkAndMountAll env st manual isStartup)
          /\ keeps_config st1 (_checkAndMountAll env st manual isStartup)
          /\ exists added,
               mount_requests (_checkAndMountAll env st manual isStartup)
               = mount_requests st1 ++ added
               /\ Forall (fun r => r.1 ∈ _bookmarks st1) added)
    as (Hpass & [Hcs Hcb] & (added & Hadd & Hfrom)).
  { unfold _checkAndMountAll. fold st1.
    pose proof (pass_ext_foldl env isStartup (_bookmarks st1)
                  (st1, (0, 0)%Z)) as Hp.
    pose proof (config_check_fold env isStartup (_bookmarks st1)
                  (st1, (0, 0)%Z)) as Hc.
    pose proof (check_fold_requests env isStartup (_bookmarks st1)
                  (st1, (0, 0)%Z)) as Hr.
    destruct (foldl _ _ _) as [st2 [mounted total]]. cbn [fst] in *.
    destruct manual; [| auto].
    split; [eapply pass_ext_trans; [exact Hp | apply pass_ext_notify] |].
    split; [apply config_notify, Hc |].
    destruct Hr as (added & Hadd & Hfrom). exists added.
    split; [| exact Hfrom]. rewrite <- Hadd. apply notify_frame. }
  set (st' := _checkAndMountAll env st manual isStartup) in *.
  destruct Hpass as [Hobj (added' & Hadd' & Hen)].
  assert (added' = added) as ->
    by (rewrite Hadd in Hadd'; exact (eq_sym (app_inv_head _ _ _ Hadd'))).
  split.
  - split; [rewrite Hcs; exact Hset1 |]. rewrite Hcb.
    intros r bkr Hin Hr Hu. specialize (Hobj r). rewrite Hr in Hobj.
    destruct (heap st1 !! r) as [bk1 |] eqn:Hr1; [| contradiction].
    destruct Hobj as (Hsame & Huri & _).
    rewrite Hsame. apply (Hlist1 r bk1 Hin Hr1). congruence.
  - exists added. rewrite Hadd.
    unfold st1 at 1. rewrite loading_makes_no_request.
    split; [reflexivity |].
    apply Forall_forall. intros r Hr.
    pose proof (proj1 (Forall_forall _ _) Hfrom r Hr) as Hin.
    pose proof (proj1 (Forall_forall _ _) Hen r Hr) as Hon.
    cbn in Hin, Hon. unfold is_enabled in Hon. specialize (Hobj r.1).
    destruct (heap st1 !! r.1) as [bk1 |] eqn:Hr1; [| discriminate].
    destruct (heap st' !! r.1) as [bkr |]; [| contradiction].
    destruct Hobj as (Hsame & Huri & _).
    exists bkr. split; [reflexivity |]. split; [congruence |].
    intros Hu. rewrite Huri in Hu.
    pose proof (Hlist1 r.1 bk1 Hin Hr1 Hu). congruence.
Qed.


(** The retry callback tests the object it captured.  After a reload the
    list holds a new object for the URI, the switch turns that one off, and
    the old retry still sees its own object enabled: it asks for a mount of
    the bookmark that was turned off. *)
Lemma stale_retry_mounts_disabled_bookmark :
  let reloaded := _checkAndMountAll quiet_env after_one_failure false false in
  let off := on_toggled reloaded 0 false in
  _bookmarks off = [2%positive]
  /\ is_enabled off 2 = false
  /\ sources off !! 1%positive = Some (mkSource 30 (CbRetry 1))
  /\ mount_requests off = [(2%positive, false)]
  /\ mount_requests (fire quiet_env off 1)
     = [(2%positive, false); (1%positive, false)].
Proof. cbn zeta. repeat split; vm_compute; reflexivity. Qed.



(** ** Ensuring and removing twice *)

(** C8, as stated, fails.  The link of the share is tracked under the old
    base directory and the base directory has moved to a place that holds a
    link of the same name.  The first removal deletes the tracked link and
    forgets it; the second one works on the newly computed path and deletes
    the other link.  The first ensure deletes the tracked link and then
    fails on the occupied path; the second one replaces the other link. *)
Lemma ensure_and_remove_twice_differ :
  let once := (_removeSymlink mounted_env base_moved share_with_link).1 in
  let twice := (_removeSymlink mounted_env once share_with_link).1 in
  let made := (_createSymlink mounted_env base_moved share_with_link).1 in
  let remade := (_createSymlink mounted_env made share_with_link).1 in
  heap base_moved !! 1%positive = Some share_with_link
  /\ fs once !! other_link = Some (ESymlink (js "/srv/old"))
  /\ fs twice !! other_link = None
  /\ fs twice <> fs once
  /\ fs made !! other_link = Some (ESymlink (js "/srv/old"))
  /\ fs remade !! other_link = Some (ESymlink gvfs_path)
  /\ fs remade <> fs made.
Proof.
  intros once twice made remade.
  assert (fs once !! other_link = Some (ESymlink (js "/srv/old"))) as H1
    by (vm_compute; reflexivity).
  assert (fs twice !! other_link = None) as H2
    by (vm_compute; reflexivity).
  assert (fs made !! other_link = Some (ESymlink (js "/srv/old"))) as H3
    by (vm_compute; reflexivity).
  assert (fs remade !! other_link = Some (ESymlink gvfs_path)) as H4
    by (vm_compute; reflexivity).
  split; [vm_compute; reflexivity |].
  split; [exact H1 |]. split; [exact H2 |].
  split; [intros Heq; congruence |].
  split; [exact H3 |]. split; [exact H4 |].
  intros Heq.
  assert (ESymlink (js "/srv/old") = ESymlink gvfs_path) as Hbad
    by congruence.
  vm_compute in Hbad. discriminate Hbad.
Qed.

Lemma fs_removeSymlink env st bk :
  fs (_removeSymlink env st bk).1 = remove_fs env (located env st bk) (fs st).
Proof.
  unfold _removeSymlink, remove_fs.
  destruct (_ && _); [| reflexivity].
  destruct (file_delete _ _ _); reflexivity.
Qed.

(** After a removal the method works on the computed path. *)
Lemma located_after_remove env st bk :
  located env st bk = _getSymlinkPath env st bk ->
  located env (_removeSymlink env st bk).1 bk = _getSymlinkPath env st bk.
Proof.
  intros Hloc. unfold _removeSymlink.
  destruct (_ && _); [destruct (file_delete _ _ _) |];
    cbn [fst]; try exact Hloc;
    unfold located; cbn; rewrite lookup_delete_eq; reflexivity.
Qed.

Lemma remove_fs_twice env p f :
  remove_fs env p (remove_fs env p f) = remove_fs env p f.
Proof.
  unfold remove_fs at 2 3.
  destruct (query_exists env f p && get_is_symlink f p) eqn:Hq.
  - unfold file_delete. destruct (bool_decide (p ∈ deny env)) eqn:Hd.
    + unfold remove_fs, file_delete. rewrite Hq, Hd. reflexivity.
    + unfold remove_fs, query_exists, get_is_symlink.
      rewrite lookup_delete_eq. reflexivity.
  - unfold remove_fs. rewrite Hq. reflexivity.
Qed.

Lemma remove_fs_lookup env p f :
  remove_fs env p f = f
  \/ (remove_fs env p f = delete p f
      /\ exists t, f !! p = Some (ESymlink t) /\ (t ∉ gone env)
                   /\ (p ∉ deny env)).
Proof.
  unfold remove_fs, query_exists, get_is_symlink, file_delete.
  destruct (f !! p) as [[| | t] |] eqn:Hp; cbn; auto.
  destruct (bool_decide (t ∉ gone env)) eqn:Hg; cbn; auto.
  destruct (bool_decide (p ∈ deny env)) eqn:Hd; cbn; auto.
  right. split; [reflexivity |]. exists t.
  apply bool_decide_eq_true in Hg. apply bool_decide_eq_false in Hd. auto.
Qed.

(** Rewriting the file operations under known lookups and memberships. *)
Ltac fs_simpl :=
  repeat first
    [ rewrite lookup_insert_eq
    | rewrite lookup_delete_eq
    | rewrite bool_decide_eq_true_2 by tauto
    | rewrite bool_decide_eq_false_2 by tauto
    | progress cbn [andb negb]
    | match goal with
      | H : ?f !! ?p = _ |- context [?f !! ?p] => rewrite H
      end ].

Ltac fs_unfold :=
  unfold link_fs, make_symbolic_link, remove_fs, query_exists,
    get_is_symlink, file_delete.

Lemma link_fs_result env g p f :
  link_fs env g p f = f \/ link_fs env g p f = <[p := ESymlink g]> f.
Proof.
  fs_unfold.
  destruct (f !! p) as [[| | t] |] eqn:Hp; fs_simpl; auto.
  - destruct (decide (t ∈ gone env)), (decide (p ∈ deny env));
      fs_simpl; auto.
    right. apply insert_delete_eq.
  - destruct (decide (p ∈ deny env)); fs_simpl; auto.
Qed.

Lemma link_fs_keeps env g p f q :
  is_Some (f !! q) -> is_Some (link_fs env g p f !! q).
Proof.
  intros Hq. destruct (link_fs_result env g p f) as [-> | ->]; [exact Hq |].
  destruct (decide (p = q)) as [-> | Hne].
  - rewrite lookup_insert_eq. eauto.
  - rewrite lookup_insert_ne by exact Hne. exact Hq.
Qed.

Lemma link_fs_deny env g p f : p ∈ deny env -> link_fs env g p f = f.
Proof.
  intros Hd. fs_unfold.
  destruct (f !! p) as [[| | t] |] eqn:Hp; fs_simpl; try reflexivity.
  destruct (decide (t ∈ gone env)); fs_simpl; reflexivity.
Qed.

Lemma link_fs_fresh_link env g p h :
  p ∉ deny env ->
  link_fs env g p (<[p := ESymlink g]> h) = <[p := ESymlink g]> h.
Proof.
  intros Hd. fs_unfold. fs_simpl.
  destruct (decide (g ∈ gone env)); fs_simpl; [reflexivity |].
  rewrite insert_delete_eq. apply insert_insert_eq.
Qed.

Lemma link_fs_twice env g p f :
  link_fs env g p (link_fs env g p f) = link_fs env g p f.
Proof.
  destruct (decide (p ∈ deny env)) as [Hd | Hd].
  - rewrite !(link_fs_deny env g p) by exact Hd. reflexivity.
  - destruct (link_fs_result env g p f) as [H | H]; rewrite H.
    + exact H.
    + apply link_fs_fresh_link, Hd.
Qed.

Lemma ensure_fs_twice env g p f :
  ensure_fs env g p (ensure_fs env g p f) = ensure_fs env g p f.
Proof.
  unfold ensure_fs at 2 3. unfold make_directory_with_parents.
  set (d := path_get_dirname p).
  assert (forall h, is_Some (h !! d) ->
            ensure_fs env g p (link_fs env g p h) = link_fs env g p h)
    as Hthere.
  { intros h Hd. apply (link_fs_keeps env g p) in Hd as [e He].
    unfold ensure_fs, make_directory_with_parents. fold d. rewrite He.
    apply link_fs_twice. }
  destruct (f !! d) as [e |] eqn:Hd.
  - apply Hthere. rewrite Hd. eauto.
  - destruct (bool_decide (d ∈ deny env)) eqn:Hdeny.
    + unfold ensure_fs, make_directory_with_parents. fold d.
      rewrite Hd, Hdeny. reflexivity.
    + apply Hthere. rewrite lookup_insert_eq. eauto.
Qed.

Lemma getSymlinkPath_nonempty env st bk :
  is_empty (_getSymlinkPath env st bk) = false.
Proof.
  unfold _getSymlinkPath. destruct (base_path env st); reflexivity.
Qed.

Lemma located_same env st st' bk :
  _symlinkPaths st' = _symlinkPaths st -> settings st' = settings st ->
  located env st' bk = located env st bk.
Proof.
  intros Hp Hs. unfold located, _getSymlinkPath, base_path.
  rewrite Hp, Hs. reflexivity.
Qed.

(** The linking step of [_createSymlink], from a state that works on the
    computed path. *)
Lemma link_step_summary env st bk g :
  located env st bk = _getSymlinkPath env st bk ->
  let p := _getSymlinkPath env st bk in
  let st3 := (_removeSymlink env st bk).1 in
  let r :=
    match make_symbolic_link env (fs st3) p g with
    | Some f' =>
        (log "Created symlink:"
           (set_symlinkPaths (insert (uri bk) p)
              (set_fs (fun _ => f') st3)), true)
    | None => (log "Failed to create symlink for" st3, false)
    end in
  located env r.1 bk = p /\ fs r.1 = link_fs env g p (fs st).
Proof.
  intros Hloc p st3 r. subst r.
  pose proof (located_after_remove env st bk Hloc) as Hloc3.
  pose proof (fs_removeSymlink env st bk) as Hfs3.
  rewrite Hloc in Hfs3. fold p st3 in Hloc3, Hfs3.
  pose proof (only_links_removeSymlink env st bk)
    as (_ & _ & _ & _ & _ & _ & Hset & _).
  fold st3 in Hset.
  unfold link_fs. rewrite <- Hfs3.
  destruct (make_symbolic_link env (fs st3) p g) as [f' |]; cbn [fst].
  - split; [| reflexivity].
    unfold located. cbn. rewrite lookup_insert_eq.
    fold (_getSymlinkPath env st bk). fold p.
    unfold p at 1. rewrite getSymlinkPath_nonempty. reflexivity.
  - split; [| reflexivity].
    rewrite <- Hloc3. apply located_same; reflexivity.
Qed.

Lemma createSymlink_summary env st bk :
  located env st bk = _getSymlinkPath env st bk ->
  located env (_createSymlink env st bk).1 bk = _getSymlinkPath env st bk
  /\ fs (_createSymlink env st bk).1 =
       if createSymlink bk then
         match mount_table env !! uri bk with
         | Some (QMount (Some g)) =>
             if is_empty g then fs st
             else ensure_fs env g (_getSymlinkPath env st bk) (fs st)
         | _ => fs st
         end
       else fs st.
Proof.
  intros Hloc. unfold _createSymlink, _getGvfsMountPath.
  destruct (createSymlink bk); cbn [negb]; [| split; [exact Hloc | reflexivity]].
  destruct (mount_table env !! uri bk) as [[[g |] |] |];
    try (split; [exact Hloc | reflexivity]).
  destruct (is_empty g); [split; [exact Hloc | reflexivity] |].
  cbn zeta. unfold ensure_fs.
  destruct (make_directory_with_parents env (fs st)
              (path_get_dirname (_getSymlinkPath env st bk))) as [f' | |].
  - apply (link_step_summary env (set_fs (fun _ => f') st) bk g). exact Hloc.
  - apply (link_step_summary env st bk g). exact Hloc.
  - split; [exact Hloc | reflexivity].
Qed.

(** C8, amended: when the path tracked for the bookmark is the one that the
    settings give now (or nothing is tracked), a second [_removeSymlink]
    leaves the file system as the first one left it, and so does a second
    [_createSymlink], with the mount table unchanged in between. *)
Theorem ensure_and_remove_twice_agree
    (env : Env) (st : State) (bk : Bookmark) :
  located env st bk = _getSymlinkPath env st bk ->
  fs (_removeSymlink env (_removeSymlink env st bk).1 bk).1
  = fs (_removeSymlink env st bk).1
  /\ fs (_createSymlink env (_createSymlink env st bk).1 bk).1
     = fs (_createSymlink env st bk).1.
Proof.
  intros Hloc. split.
  - rewrite !fs_removeSymlink.
    rewrite (located_after_remove env st bk Hloc), Hloc.
    apply remove_fs_twice.
  - destruct (createSymlink_summary env st bk Hloc) as [Hloc1 Hfs1].
    pose proof (only_links_createSymlink env st bk)
      as (_ & _ & _ & _ & _ & _ & Hset & _).
    assert (_getSymlinkPath env (_createSymlink env st bk).1 bk
            = _getSymlinkPath env st bk) as Hpath
      by (unfold _getSymlinkPath, base_path; rewrite Hset; reflexivity).
    rewrite <- Hpath in Hloc1.
    destruct (createSymlink_summary env _ bk Hloc1) as [_ Hfs2].
    rewrite Hfs2, Hpath, Hfs1.
    destruct (createSymlink bk); [| reflexivity].
    destruct (mount_table env !! uri bk) as [[[g |] |] |]; try reflexivity.
    destruct (is_empty g); [reflexivity |].
    apply ensure_fs_twice.
Qed.

Lemma ensure_and_remove_twice_witness :
  located mounted_env share_linked share_with_link
  = _getSymlinkPath mounted_env share_linked share_with_link
  /\ fs (_createSymlink mounted_env
           (_createSymlink mounted_env share_linked share_with_link).1
           share_with_link).1
     = fs (_createSymlink mounted_env share_linked share_with_link).1.
Proof.
  split; [vm_compute; reflexivity |].
  apply (ensure_and_remove_twice_agree mounted_env share_linked
           share_with_link).
  vm_compute. reflexivity.
Defined.

(** ** Teardown *)

(** C5 fails on the code: the link of the share is in place and tracked,
    and the bookmark's [createSymlink] has been switched off since.
    [_cleanupAllSymlinks] skips the bookmark, [clear] forgets the record,
    and the link stays on disk. *)
Lemma destroy_leaves_tracked_link :
  let st' := destroy mounted_env link_switched_off in
  _symlinkPaths link_switched_off !! share_uri = Some home_link
  /\ fs link_switched_off !! home_link = Some (ESymlink gvfs_path)
  /\ _symlinkPaths st' = ∅
  /\ sources st' = ∅
  /\ fs st' !! home_link = Some (ESymlink gvfs_path).
Proof. cbn zeta. repeat split; vm_compute; reflexivity. Qed.

(** With the share unmounted, the link of a bookmark that still has
    [createSymlink] on dangles; [query_exists] follows the link, reports it
    absent, and the link is not deleted. *)
Lemma destroy_leaves_dangling_link :
  let st' := destroy unmounted_env share_linked in
  heap share_linked !! 1%positive = Some share_with_link
  /\ _symlinkPaths share_linked !! share_uri = Some home_link
  /\ _symlinkPaths st' = ∅
  /\ fs st' !! home_link = Some (ESymlink gvfs_path).
Proof. cbn zeta. repeat split; vm_compute; reflexivity. Qed.

(** What [destroy] does achieve. *)

Lemma remove_fs_at env p f t :
  remove_fs env p f !! p = Some (ESymlink t) -> t ∈ gone env \/ p ∈ deny env.
Proof.
  unfold remove_fs, query_exists, get_is_symlink, file_delete.
  destruct (f !! p) as [[| | t'] |] eqn:Hp; fs_simpl; try congruence.
  destruct (decide (t' ∈ gone env)) as [Hg | Hg]; fs_simpl.
  - intros [= <-]. left. exact Hg.
  - destruct (decide (p ∈ deny env)) as [Hd | Hd]; fs_simpl; [auto |].
    discriminate.
Qed.

Lemma loses_links_refl f : loses_links f f.
Proof. intros q. left. reflexivity. Qed.

Lemma loses_links_trans f1 f2 f3 :
  loses_links f1 f2 -> loses_links f2 f3 -> loses_links f1 f3.
Proof.
  intros H12 H23 q. destruct (H23 q) as [H2 | [H2 [t Ht2]]].
  - rewrite H2. apply H12.
  - right. split; [exact H2 |].
    destruct (H12 q) as [H1 | [H1 _]]; [exists t | ]; congruence.
Qed.

Lemma loses_links_remove env p f : loses_links f (remove_fs env p f).
Proof.
  destruct (remove_fs_lookup env p f) as [-> | [-> (t & Ht & _)]];
    [apply loses_links_refl |].
  intros q. destruct (decide (p = q)) as [<- | Hne].
  - right. rewrite lookup_delete_eq. eauto.
  - left. apply lookup_delete_ne. exact Hne.
Qed.

Lemma loses_links_cleanup_one env st b :
  loses_links (fs st) (fs (cleanup_one env st b)).
Proof.
  unfold cleanup_one. destruct (heap st !! b) as [bk |];
    [| apply loses_links_refl].
  destruct (createSymlink bk); [| apply loses_links_refl].
  rewrite fs_removeSymlink. apply loses_links_remove.
Qed.

Lemma only_links_cleanup_one env st b : only_links st (cleanup_one env st b).
Proof.
  unfold cleanup_one. destruct (heap st !! b) as [bk |];
    [| apply only_links_refl].
  destruct (createSymlink bk);
    [apply only_links_removeSymlink | apply only_links_refl].
Qed.

Lemma loses_links_cleanup env (l : list positive) :
  forall st, loses_links (fs st) (fs (foldl (cleanup_one env) st l)).
Proof.
  induction l as [| b l IH]; intros st; cbn [foldl].
  - apply loses_links_refl.
  - eapply loses_links_trans; [apply loses_links_cleanup_one | apply IH].
Qed.

Lemma cleared_mono env f f' p :
  loses_links f f' -> cleared env f p -> cleared env f' p.
Proof.
  intros Hl Hc t Ht. destruct (Hl p) as [H | [H _]]; [| congruence].
  apply (Hc t). congruence.
Qed.

Lemma cleanup_one_step env st h :
  cleanup_one env st h = st
  \/ exists hk, heap st !! h = Some hk /\ createSymlink hk = true
                /\ cleanup_one env st h = (_removeSymlink env st hk).1.
Proof.
  unfold cleanup_one. destruct (heap st !! h) as [hk |]; [| auto].
  destruct (createSymlink hk) eqn:Hcs; [| auto]. right. eauto.
Qed.

(** After the link of [hk] is removed, another bookmark is located where it
    was, or it was located where the removal worked. *)
Lemma located_after_other_remove env st hk bk :
  located env (_removeSymlink env st hk).1 bk = located env st bk
  \/ located env st bk = located env st hk.
Proof.
  assert (located env (set_symlinkPaths (delete (uri hk)) st) bk
          = located env st bk
          \/ located env st bk = located env st hk) as Hdel.
  { unfold located. cbn.
    destruct (decide (uri hk = uri bk)) as [Heq | Hne].
    - rewrite Heq, lookup_delete_eq.
      destruct (_symlinkPaths st !! uri bk) as [tp |]; [| auto].
      destruct (is_empty tp); auto.
    - rewrite lookup_delete_ne by exact Hne. auto. }
  unfold _removeSymlink.
  destruct (_ && _); [destruct (file_delete _ _ _) |]; cbn [fst]; auto.
Qed.

Lemma cleanup_clears env (l : list positive) :
  forall st b bk,
    b ∈ l -> heap st !! b = Some bk -> createSymlink bk = true ->
    cleared env (fs (foldl (cleanup_one env) st l)) (located env st bk).
Proof.
  induction l as [| h l IH]; intros st b bk Hin Hb Hcs;
    [inversion Hin |].
  cbn [foldl].
  pose proof (only_links_cleanup_one env st h) as (Hheap & _).
  (* the step for the head clears the path it works on *)
  assert (forall hk, heap st !! h = Some hk -> createSymlink hk = true ->
            cleared env (fs (foldl (cleanup_one env) (cleanup_one env st h) l))
              (located env st hk)) as Hhead.
  { intros hk Hh Hhcs.
    eapply cleared_mono; [apply loses_links_cleanup |].
    unfold cleanup_one. rewrite Hh, Hhcs, fs_removeSymlink.
    intros t. apply remove_fs_at. }
  apply elem_of_cons in Hin as [-> | Hin]; [exact (Hhead bk Hb Hcs) |].
  specialize (IH (cleanup_one env st h) b bk Hin).
  rewrite Hheap in IH. specialize (IH Hb Hcs).
  destruct (cleanup_one_step env st h) as [Heq | (hk & Hh & Hhcs & Heq)].
  - rewrite Heq in IH at 2. exact IH.
  - rewrite Heq in IH at 2.
    destruct (located_after_other_remove env st hk bk) as [Hl | Hl].
    + rewrite Hl in IH. exact IH.
    + rewrite Hl. exact (Hhead hk Hh Hhcs).
Qed.

Lemma sources_after_removals (ids : gset positive) st :
  let st' := set_fold source_remove st ids in
  (forall id, id ∈ ids -> sources st' !! id = None)
  /\ (forall id, id ∉ ids -> sources st' !! id = sources st !! id)
  /\ only_links st (set_sources (fun _ => sources st) st')
  /\ fs st' = fs st /\ _symlinkPaths st' = _symlinkPaths st.
Proof.
  cbn zeta.
  apply (set_fold_ind_L
           (fun st' (X : gset positive) =>
              (forall id, id ∈ X -> sources st' !! id = None)
              /\ (forall id, id ∉ X -> sources st' !! id = sources st !! id)
              /\ only_links st (set_sources (fun _ => sources st) st')
              /\ fs st' = fs st /\ _symlinkPaths st' = _symlinkPaths st)).
  - split; [intros id Hid; apply not_elem_of_empty in Hid; contradiction |].
    repeat split.
  - intros x X st' Hx (Hin & Hout & Hrest & Hfs & Hsym).
    split; [| split; [| split; [exact Hrest | split; assumption]]].
    + intros id Hid. cbn. destruct (decide (x = id)) as [<- | Hne].
      * apply lookup_delete_eq.
      * rewrite lookup_delete_ne by exact Hne. apply Hin.
        apply elem_of_union in Hid as [Hid | Hid]; [| exact Hid].
        apply elem_of_singleton in Hid. congruence.
    + intros id Hid. cbn.
      assert (x <> id) as Hne.
      { intros ->. apply Hid, elem_of_union. left.
        apply elem_of_singleton. reflexivity. }
      rewrite lookup_delete_ne by exact Hne. apply Hout.
      intros Hin'. apply Hid, elem_of_union. right. exact Hin'.
Qed.

(** [destroy] cancels the periodic timer and every tracked timeout, forgets
    every symlink record, and takes nothing from the disk but symbolic
    links; for every listed bookmark with [createSymlink] on, the link at
    the path that [_removeSymlink] works on is gone afterwards, unless its
    target does not resolve or the deletion is refused.  This holds
    whatever the mount table says and whichever deletions fail. *)
Lemma destroy_cleans_up (env : Env) (st : State) :
  let st' := destroy env st in
  _timeoutId st' = None /\ _timeoutIds st' = ∅
  /\ (forall id, _timeoutId st = Some id \/ id ∈ _timeoutIds st ->
                 sources st' !! id = None)
  /\ (forall id, _timeoutId st <> Some id -> id ∉ _timeoutIds st ->
                 sources st' !! id = sources st !! id)
  /\ _symlinkPaths st' = ∅
  /\ loses_links (fs st) (fs st')
  /\ (forall b bk,
        b ∈ _bookmarks st -> heap st !! b = Some bk ->
        createSymlink bk = true ->
        cleared env (fs st') (located env st bk)).
Proof.
  cbn zeta. unfold destroy, _cleanupAllSymlinks.
  set (st1 := match _timeoutId st with
              | Some id => set_timeoutId (fun _ => None) (source_remove id st)
              | None => st
              end).
  assert (_timeoutId st1 = None /\ _timeoutIds st1 = _timeoutIds st
          /\ heap st1 = heap st /\ _bookmarks st1 = _bookmarks st
          /\ fs st1 = fs st /\ _symlinkPaths st1 = _symlinkPaths st
          /\ settings st1 = settings st
          /\ (forall id, _timeoutId st = Some id -> sources st1 !! id = None)
          /\ (forall id, _timeoutId st <> Some id ->
                         sources st1 !! id = sources st !! id))
    as (Hid1 & Hids1 & Hheap1 & Hbm1 & Hfs1 & Hsym1 & Hset1 & Hper & Hoth).
  { subst st1. destruct (_timeoutId st) as [pid |] eqn:Hp; cbn.
    - do 7 (split; [reflexivity |]). split.
      + intros id [= <-]. apply lookup_delete_eq.
      + intros id Hne. apply lookup_delete_ne. congruence.
    - split; [exact Hp |]. do 6 (split; [reflexivity |]).
      split; [discriminate | reflexivity]. }
  destruct (sources_after_removals (_timeoutIds st1) st1)
    as (Hin2 & Hout2 & Hrest2 & Hfs2 & Hsym2).
  set (st2 := set_fold source_remove st1 (_timeoutIds st1)) in *.
  destruct Hrest2 as (Hheap2 & Hbm2 & _ & Hid2 & _ & _ & Hset2 & _).
  cbn in Hheap2, Hbm2, Hid2, Hset2.
  set (st3 := set_timeoutIds (fun _ => ∅) st2).
  pose proof (only_links_foldl (cleanup_one env) (_bookmarks st3)
                (only_links_cleanup_one env) st3)
    as (_ & _ & _ & Hid4 & Hids4 & _ & _ & Hsrc4 & _).
  cbn [_timeoutId _timeoutIds sources _symlinkPaths fs set_symlinkPaths].
  rewrite Hid4, Hids4, Hsrc4.
  split; [cbn; congruence |]. split; [reflexivity |].
  split; [| split; [| split; [reflexivity | split]]].
  - intros id Hid. cbn.
    destruct (decide (id ∈ _timeoutIds st1)) as [Hin | Hout];
      [apply Hin2, Hin |].
    rewrite (Hout2 id Hout). apply Hper.
    rewrite Hids1 in Hout. tauto.
  - intros id Hne Hout. cbn. rewrite <- Hids1 in Hout.
    rewrite (Hout2 id Hout). apply Hoth, Hne.
  - pose proof (loses_links_cleanup env (_bookmarks st3) st3) as Hl.
    change (fs st3) with (fs st2) in Hl. rewrite Hfs2, Hfs1 in Hl. exact Hl.
  - intros b bk Hin Hb Hcs.
    assert (_bookmarks st3 = _bookmarks st) as Hbm3
      by (change (_bookmarks st3) with (_bookmarks st2); congruence).
    assert (heap st3 = heap st) as Hheap3
      by (change (heap st3) with (heap st2); congruence).
    assert (located env st3 bk = located env st bk) as <-
      by (apply located_same; cbn; congruence).
    apply (cleanup_clears env (_bookmarks st3) st3 b bk).
    + rewrite Hbm3. exact Hin.
    + rewrite Hheap3. exact Hb.
    + exact Hcs.
Qed.

(** * Further properties of the code *)

(** ** The sanitiser, continued *)

Lemma replace_runs_none (p : N -> bool) (s : jsstring) :
  Forall (fun c => p c = false) s -> replace_runs p s = s.
Proof.
  induction 1 as [| c t Hc _ IH]; [reflexivity |].
  cbn [replace_runs]. rewrite Hc, IH. reflexivity.
Qed.

Lemma replace_each_none (p : N -> bool) (s : jsstring) :
  Forall (fun c => p c = false) s -> replace_each p s = s.
Proof.
  induction 1 as [| c t Hc _ IH]; [reflexivity |].
  unfold replace_each in *. cbn [map]. rewrite Hc, IH. reflexivity.
Qed.

Lemma is_underscore_eq c : is_underscore c = true -> c = underscore.
Proof. unfold is_underscore. apply N.eqb_eq. Qed.

Lemma replace_runs_singles (s : jsstring) :
  single_underscores s = true -> replace_runs is_underscore s = s.
Proof.
  induction s as [| c t IH]; [reflexivity |].
  cbn [single_underscores replace_runs]. intros H.
  apply andb_prop in H as [H1 H2]. rewrite (IH H2).
  destruct (is_underscore c) eqn:Hc; [| reflexivity].
  cbn in H1. apply negb_true_iff in H1. rewrite H1.
  rewrite (is_underscore_eq c Hc). reflexivity.
Qed.

Lemma strip_first_none (s : jsstring) :
  head_in is_underscore s = false -> strip_first s = s.
Proof. destruct s as [| c t]; [reflexivity |]. cbn. intros ->. reflexivity. Qed.

Lemma strip_last_none (s : jsstring) :
  ends_with_underscore s = false -> strip_last s = s.
Proof.
  induction s as [| c t IH]; [reflexivity |].
  destruct t as [| c' t'].
  - unfold ends_with_underscore. cbn. intros ->. reflexivity.
  - rewrite ends_with_underscore_cons. intros H.
    change (strip_last (c :: c' :: t')) with (c :: strip_last (c' :: t')).
    rewrite (IH H). reflexivity.
Qed.

Lemma strip_last_single (s : jsstring) :
  single_underscores s = true -> single_underscores (strip_last s) = true.
Proof.
  induction s as [| c t IH]; [reflexivity |].
  destruct t as [| c' t'].
  - intros _. cbn. destruct (is_underscore c) eqn:Hc; [reflexivity |].
    cbn. rewrite Hc. reflexivity.
  - intros H. cbn [single_underscores] in H.
    apply andb_prop in H as [H1 H2]. specialize (IH H2).
    change (strip_last (c :: c' :: t')) with (c :: strip_last (c' :: t')).
    cbn [single_underscores]. rewrite IH, andb_true_r.
    destruct (is_underscore c) eqn:Hc; [| reflexivity].
    cbn in H1. apply negb_true_iff in H1.
    destruct t' as [| c'' t'']; cbn; rewrite H1; cbn; rewrite ?H1;
      reflexivity.
Qed.

(** X1: sanitising a sanitised name changes nothing. *)
Theorem sanitize_idempotent (nm : jsstring) :
  _sanitizeForFilename (_sanitizeForFilename nm) = _sanitizeForFilename nm.
Proof.
  set (out := _sanitizeForFilename nm).
  pose proof (replace_runs_single nm) as Hsingle.
  destruct (strip_first_head _ Hsingle) as [Hhead Hsingle'].
  assert (Forall (fun c => is_forbidden c = false /\ is_space c = false) out)
    as Hclean.
  { subst out. rewrite sanitize_is_one_pass. unfold sanitize_one_pass.
    apply strip_last_Forall, strip_first_Forall.
    eapply Forall_impl; [apply replace_runs_content |].
    cbn. intros c [-> | Hc]; [split; reflexivity |].
    unfold is_collapsed in Hc.
    apply orb_false_elim in Hc as [Hc _].
    apply orb_false_elim in Hc as [Hf Hs]. split; assumption. }
  assert (single_underscores out = true) as Hs
    by (subst out; rewrite sanitize_is_one_pass; apply strip_last_single,
          Hsingle').
  assert (head_in is_underscore out = false) as Hh
    by (subst out; rewrite sanitize_is_one_pass; apply strip_last_head,
          Hhead).
  assert (ends_with_underscore out = false) as He
    by (subst out; rewrite sanitize_is_one_pass; apply strip_last_end,
          Hsingle').
  unfold _sanitizeForFilename at 1.
  rewrite (replace_each_none is_forbidden out)
    by (eapply Forall_impl; [exact Hclean |]; cbn; tauto).
  rewrite (replace_runs_none is_space out)
    by (eapply Forall_impl; [exact Hclean |]; cbn; tauto).
  rewrite (replace_runs_singles _ Hs), (strip_first_none _ Hh).
  apply strip_last_none, He.
Qed.

Lemma replace_runs_all (p : N -> bool) (s : jsstring) :
  forallb p s = true ->
  replace_runs p s = match s with [] => [] | _ :: _ => [underscore] end.
Proof.
  induction s as [| c t IH]; [reflexivity |].
  cbn [forallb replace_runs]. intros H. apply andb_prop in H as [Hc Ht].
  rewrite Hc, (IH Ht). destruct t as [| c' t']; [reflexivity |].
  cbn in Ht |- *. apply andb_prop in Ht as [-> _]. reflexivity.
Qed.

Lemma replace_runs_keeps (p : N -> bool) (s : jsstring) (c : N) :
  In c s -> p c = false -> In c (replace_runs p s).
Proof.
  intros Hin Hc. induction s as [| x t IH]; [contradiction |].
  cbn [replace_runs]. destruct Hin as [-> | Hin].
  - rewrite Hc. left. reflexivity.
  - specialize (IH Hin). destruct (p x); [| right; exact IH].
    destruct (head_in p t); [exact IH | right; exact IH].
Qed.

Lemma strip_first_keeps (s : jsstring) (c : N) :
  In c s -> is_underscore c = false -> In c (strip_first s).
Proof.
  destruct s as [| x t]; [contradiction |]. cbn [strip_first].
  intros [-> | Hin] Hc; [rewrite Hc; left; reflexivity |].
  destruct (is_underscore x); [exact Hin | right; exact Hin].
Qed.

Lemma strip_last_keeps (s : jsstring) (c : N) :
  In c s -> is_underscore c = false -> In c (strip_last s).
Proof.
  intros Hin Hc. induction s as [| x t IH]; [contradiction |].
  destruct t as [| x' t'].
  - destruct Hin as [-> | []]. cbn. rewrite Hc. left. reflexivity.
  - change (strip_last (x :: x' :: t')) with (x :: strip_last (x' :: t')).
    destruct Hin as [-> | Hin]; [left; reflexivity | right; auto].
Qed.

(** X2: the sanitised name is empty exactly when the name is made of
    nothing but the listed characters, whitespace and underscores; the link
    path of such a bookmark, without [symlinkPath], is the base directory
    followed by a slash. *)
Theorem sanitize_empty_iff (env : Env) (st : State) (bk : Bookmark) :
  (_sanitizeForFilename (name bk) = []
   <-> forallb is_collapsed (name bk) = true)
  /\ (symlinkPath bk = [] -> forallb is_collapsed (name bk) = true ->
      _getSymlinkPath env st bk = base_path env st ++ [slash]).
Proof.
  assert (_sanitizeForFilename (name bk) = []
          <-> forallb is_collapsed (name bk) = true) as Hiff.
  { rewrite sanitize_is_one_pass. unfold sanitize_one_pass. split.
    - intros Hempty. apply forallb_forall. intros c Hin.
      destruct (is_collapsed c) eqn:Hc; [reflexivity |].
      assert (is_underscore c = false) as Hu
        by (unfold is_collapsed in Hc; apply orb_false_elim in Hc; tauto).
      pose proof (strip_last_keeps _ c
                    (strip_first_keeps _ c
                       (replace_runs_keeps is_collapsed _ c Hin Hc) Hu) Hu)
        as Hkept.
      rewrite Hempty in Hkept. contradiction.
    - intros Hall. rewrite (replace_runs_all _ _ Hall).
      destruct (name bk); reflexivity. }
  split; [exact Hiff |].
  intros Hsp Hall. unfold _getSymlinkPath, link_name.
  rewrite Hsp. cbn [is_empty]. rewrite (proj2 Hiff Hall). reflexivity.
Qed.

(** ** Reading the bookmark file *)

Lemma split_head_lacks (sep : N) (s : jsstring) :
  exists w ws, split sep s = w :: ws /\ lacks sep w.
Proof.
  induction s as [| c t (w & ws & Hs & Hw)]; cbn [split].
  - exists [], []. split; [reflexivity | constructor].
  - destruct (c =? sep) eqn:Hc.
    + exists [], (split sep t). split; [reflexivity | constructor].
    + rewrite Hs. exists (c :: w), ws. split; [reflexivity |].
      constructor; [apply N.eqb_neq, Hc | exact Hw].
Qed.

Lemma split_prefix (sep : N) (u rest : jsstring) :
  lacks sep u -> split sep (u ++ sep :: rest) = u :: split sep rest.
Proof.
  induction 1 as [| c t Hc _ IH]; cbn [app split].
  - rewrite N.eqb_refl. reflexivity.
  - apply N.eqb_neq in Hc. rewrite Hc, IH. reflexivity.
Qed.

Lemma split_whole (sep : N) (u : jsstring) :
  lacks sep u -> split sep u = [u].
Proof.
  induction 1 as [| c t Hc _ IH]; cbn [split]; [reflexivity |].
  apply N.eqb_neq in Hc. rewrite Hc, IH. reflexivity.
Qed.

Lemma join_split (sep : N) (s : jsstring) : join sep (split sep s) = s.
Proof.
  induction s as [| c t IH]; [reflexivity |]. cbn [split].
  destruct (split_head_lacks sep t) as (w & ws & Hs & _).
  rewrite Hs in IH |- *.
  destruct (c =? sep) eqn:Hc.
  - apply N.eqb_eq in Hc. subst c.
    change (join sep ([] :: w :: ws)) with (sep :: join sep (w :: ws)).
    rewrite IH. reflexivity.
  - destruct ws as [| w' ws].
    + cbn in IH |- *. rewrite IH. reflexivity.
    + change (join sep ((c :: w) :: w' :: ws))
        with (c :: join sep (w :: w' :: ws)).
      rewrite IH. reflexivity.
Qed.

Lemma trim_start_head (s : jsstring) :
  head_in is_space (trim_start s) = false.
Proof.
  induction s as [| c t IH]; [reflexivity |]. cbn [trim_start].
  destruct (is_space c) eqn:Hc; [exact IH | exact Hc].
Qed.

Lemma trim_start_snoc (l : jsstring) (c : N) :
  is_space c = false -> exists l', trim_start (l ++ [c]) = l' ++ [c].
Proof.
  intros Hc. induction l as [| x l [l' IH]]; cbn [app trim_start].
  - rewrite Hc. exists []. reflexivity.
  - destruct (is_space x); [eauto |]. exists (x :: l). reflexivity.
Qed.

(** A trimmed line is empty or starts with a code unit that is no
    whitespace. *)
Lemma trim_head (s : jsstring) : head_in is_space (trim s) = false.
Proof.
  unfold trim. pose proof (trim_start_head s) as Hh.
  destruct (trim_start s) as [| c t]; [reflexivity |]. cbn in Hh.
  cbn [rev]. destruct (trim_start_snoc (rev t) c Hh) as [l' ->].
  rewrite rev_app_distr. cbn. exact Hh.
Qed.

(** X3: a line of the bookmark file that reads, once trimmed, as a first
    word, a space and a rest gives the bookmark whose URI is the first word
    and whose name is the rest, kept as it is (inner spaces too); when the
    rest is empty, or the line is one word, the name is the one derived
    from the URI.  The new bookmark is enabled, asks for no symlink and has
    no failure on record. *)
Theorem parse_line_format (env : Env) (line u rest : jsstring) :
  lacks 32 u ->
  (trim line = u ++ 32 :: rest ->
   parse_line env line
   = {| uri := u;
        name := if is_empty rest then uri_name env u else rest;
        enabled := true; createSymlink := false; symlinkPath := [];
        lastAttempt := 0; failCount := 0 |})
  /\ (trim line = u ->
      parse_line env line
      = {| uri := u; name := uri_name env u;
           enabled := true; createSymlink := false; symlinkPath := [];
           lastAttempt := 0; failCount := 0 |}).
Proof.
  intros Hu. unfold parse_line, new_bookmark. split; intros ->.
  - rewrite (split_prefix 32 u rest Hu).
    change (split 32 rest) with (split 32 rest).
    rewrite join_split. reflexivity.
  - rewrite (split_whole 32 u Hu). reflexivity.
Qed.

Lemma parse_line_format_witness :
  lacks 32 (js "sftp://host/")
  /\ parse_line quiet_env (js "  sftp://host/ My  Data ")
     = {| uri := js "sftp://host/"; name := js "My  Data";
          enabled := true; createSymlink := false; symlinkPath := [];
          lastAttempt := 0; failCount := 0 |}.
Proof.
  assert (lacks 32 (js "sftp://host/")) as Hu
    by (repeat constructor; discriminate).
  split; [exact Hu |].
  exact (proj1 (parse_line_format quiet_env (js "  sftp://host/ My  Data ")
                  (js "sftp://host/") (js "My  Data") Hu) eq_refl).
Defined.

(** X4: every bookmark that [_loadBookmarks] reads from the file comes from
    a line that holds [://] and does not start with [file://]; its URI is
    not empty and holds no space, and it starts enabled, without symlink,
    with [failCount] 0. *)
Theorem parsed_bookmarks_shape (env : Env) (contents : jsstring)
    (bk : Bookmark) :
  In bk (parse_bookmarks env contents) ->
  (exists line,
      In line (split 10 contents)
      /\ includes line (js "://") = true
      /\ startsWith line (js "file://") = false
      /\ bk = parse_line env line)
  /\ uri bk <> [] /\ lacks 32 (uri bk)
  /\ enabled bk = true /\ createSymlink bk = false /\ symlinkPath bk = []
  /\ failCount bk = 0%Z /\ lastAttempt bk = 0%Z.
Proof.
  unfold parse_bookmarks. intros Hin.
  apply in_map_iff in Hin as (line & <- & Hline).
  apply filter_In in Hline as [Hline Hkeep].
  unfold keep_line in Hkeep.
  apply andb_prop in Hkeep as [Hkeep Hfile].
  apply andb_prop in Hkeep as [Hblank Hurl].
  apply negb_true_iff in Hfile, Hblank.
  split; [exists line; auto |].
  unfold parse_line.
  pose proof (trim_head line) as Hhead.
  destruct (split_head_lacks 32 (trim line)) as (w & ws & Hs & Hw).
  rewrite Hs. cbn.
  split; [| repeat split; exact Hw].
  destruct (trim line) as [| c t] eqn:Ht; [discriminate |].
  cbn in Hhead, Hs. destruct (c =? 32) eqn:Hc.
  - apply N.eqb_eq in Hc. subst c. discriminate.
  - destruct (split 32 t); injection Hs as <- _; discriminate.
Qed.

Lemma parsed_bookmarks_witness :
  In share (parse_bookmarks quiet_env (js "smb://server/share Share"))
  /\ uri share <> [].
Proof.
  assert (In share (parse_bookmarks quiet_env (js "smb://server/share Share")))
    as Hin by (left; reflexivity).
  split; [exact Hin |].
  exact (proj1 (proj2 (parsed_bookmarks_shape quiet_env _ share Hin))).
Defined.

(** ** Saving and loading the per-bookmark settings *)

Lemma save_lookup st u e (l : list positive) :
  (forall b bk, b ∈ l -> heap st !! b = Some bk -> uri bk = u ->
                entry_of bk = e) ->
  forall acc,
    (acc !! u = Some e
     \/ exists b bk, b ∈ l /\ heap st !! b = Some bk /\ uri bk = u) ->
    foldl (save_one st) acc l !! u = Some e.
Proof.
  induction l as [| h l IH]; intros Hsame acc Hacc; cbn [foldl].
  - destruct Hacc as [Hacc | (b & bk & Hin & _)]; [exact Hacc |].
    inversion Hin.
  - apply IH.
    + intros b bk Hin. apply Hsame. apply elem_of_cons. right. exact Hin.
    + unfold save_one. destruct (heap st !! h) as [hk |] eqn:Hh.
      * destruct (decide (uri hk = u)) as [Hu | Hu].
        -- left. rewrite Hu, lookup_insert_eq.
           rewrite (Hsame h hk (list_elem_of_here _ _) Hh Hu). reflexivity.
        -- destruct Hacc as [Hacc | (b & bk & Hin & Hb & Hbu)].
           ++ left. rewrite lookup_insert_ne by exact Hu. exact Hacc.
           ++ right. apply elem_of_cons in Hin as [-> | Hin];
                [congruence | eauto].
      * destruct Hacc as [Hacc | (b & bk & Hin & Hb & Hbu)]; [auto |].
        right. apply elem_of_cons in Hin as [-> | Hin];
          [congruence | eauto].
Qed.

Lemma save_lookup_none st u (l : list positive) :
  (forall b bk, b ∈ l -> heap st !! b = Some bk -> uri bk <> u) ->
  forall acc, foldl (save_one st) acc l !! u = acc !! u.
Proof.
  induction l as [| h l IH]; intros Hnone acc; cbn [foldl]; [reflexivity |].
  rewrite IH
    by (intros b bk Hin; apply Hnone; apply elem_of_cons; right; exact Hin).
  unfold save_one. destruct (heap st !! h) as [hk |] eqn:Hh; [| reflexivity].
  apply lookup_insert_ne. exact (Hnone h hk (list_elem_of_here _ _) Hh).
Qed.

Lemma save_lookup_some st u (l : list positive) :
  forall acc,
    (is_Some (acc !! u)
     \/ exists b bk, b ∈ l /\ heap st !! b = Some bk /\ uri bk = u) ->
    is_Some (foldl (save_one st) acc l !! u).
Proof.
  induction l as [| h l IH]; intros acc Hacc; cbn [foldl].
  - destruct Hacc as [Hacc | (b & bk & Hin & _)]; [exact Hacc |].
    inversion Hin.
  - apply IH. unfold save_one. destruct (heap st !! h) as [hk |] eqn:Hh.
    + destruct (decide (uri hk = u)) as [Hu | Hu].
      * left. rewrite Hu, lookup_insert_eq. eauto.
      * destruct Hacc as [Hacc | (b & bk & Hin & Hb & Hbu)].
        -- left. rewrite lookup_insert_ne by exact Hu. exact Hacc.
        -- right. apply elem_of_cons in Hin as [-> | Hin];
             [congruence | eauto].
    + destruct Hacc as [Hacc | (b & bk & Hin & Hb & Hbu)]; [auto |].
      right. apply elem_of_cons in Hin as [-> | Hin];
        [congruence | eauto].
Qed.

Lemma listed_or_not st u (l : list positive) :
  (exists b bk, b ∈ l /\ heap st !! b = Some bk /\ uri bk = u)
  \/ (forall b bk, b ∈ l -> heap st !! b = Some bk -> uri bk <> u).
Proof.
  induction l as [| h l [(b & bk & Hin & Hb & Hu) | Hnone]].
  - right. intros b bk Hin. inversion Hin.
  - left. exists b, bk. split; [apply elem_of_cons; right; exact Hin | auto].
  - destruct (heap st !! h) as [hk |] eqn:Hh.
    + destruct (decide (uri hk = u)) as [Hu | Hu].
      * left. exists h, hk. split; [apply list_elem_of_here | auto].
      * right. intros b bk Hin Hb.
        apply elem_of_cons in Hin as [-> | Hin]; [congruence | eauto].
    + right. intros b bk Hin Hb.
      apply elem_of_cons in Hin as [-> | Hin]; [congruence | eauto].
Qed.

Lemma apply_entry_of bk : apply_entry (entry_of bk) bk = bk.
Proof. destruct bk as [u n [] c s l f]; reflexivity. Qed.

Lemma set_heap_insert_same st b bk :
  heap st !! b = Some bk -> set_heap (insert b bk) st = st.
Proof.
  intros Hb. destruct st. unfold set_heap. cbn in *.
  rewrite (insert_id _ _ _ Hb). reflexivity.
Qed.


Lemma load_all_same o (l : list positive) st :
  (forall b bk, b ∈ l -> heap st !! b = Some bk ->
                o !! uri bk = None \/ o !! uri bk = Some (entry_of bk)) ->
  foldl (load_one o) st l = st.
Proof.
  induction l as [| h l IH]; intros Hall; cbn [foldl]; [reflexivity |].
  assert (load_one o st h = st) as ->.
  { unfold load_one. destruct (heap st !! h) as [hk |] eqn:Hh; [| reflexivity].
    destruct (Hall h hk (list_elem_of_here _ _) Hh) as [-> | ->];
      [reflexivity |].
    rewrite apply_entry_of. apply set_heap_insert_same, Hh. }
  apply IH. intros b bk Hin. apply Hall. apply elem_of_cons. right. exact Hin.
Qed.



(** The round trip needs the URIs to differ: with the same URI listed
    twice, the bookmark that was off comes back enabled. *)
Lemma save_then_load_twins :
  is_enabled twin_bookmarks 1 = false
  /\ is_enabled (_loadBookmarkSettings (_saveBookmarkSettings twin_bookmarks))
       1 = true.
Proof. split; vm_compute; reflexivity. Qed.

Lemma apply_entry_twice e bk :
  apply_entry e (apply_entry e bk) = apply_entry e bk.
Proof. reflexivity. Qed.

Lemma load_one_applies o st x b bk0 bk :
  heap st !! b = Some bk ->
  uri bk = uri bk0 ->
  (bk = bk0 \/ exists e, o !! uri bk0 = Some e /\ bk = apply_entry e bk0) ->
  exists bk',
    heap (load_one o st x) !! b = Some bk'
    /\ uri bk' = uri bk0
    /\ (bk' = bk0 \/ exists e, o !! uri bk0 = Some e /\ bk' = apply_entry e bk0)
    /\ (bk' = bk \/ x = b)
    /\ (x = b -> forall e, o !! uri bk0 = Some e -> bk' = apply_entry e bk0)
    /\ ((forall e, o !! uri bk0 = Some e -> bk = apply_entry e bk0) ->
        forall e, o !! uri bk0 = Some e -> bk' = apply_entry e bk0).
Proof.
  intros Hb Hu Hrel. unfold load_one.
  destruct (decide (x = b)) as [-> | Hne].
  - rewrite Hb, Hu. destruct (o !! uri bk0) as [e |] eqn:He.
    + exists (apply_entry e bk). cbn. rewrite lookup_insert_eq.
      assert (apply_entry e bk = apply_entry e bk0) as Heq.
      { destruct Hrel as [-> | (e' & [= <-] & ->)]; reflexivity. }
      rewrite Heq. split; [reflexivity |]. split; [exact Hu |].
      split; [right; eauto |]. split; [auto |].
      split; intros; congruence.
    + exists bk. split; [exact Hb |]. split; [exact Hu |].
      split; [exact Hrel |]. split; [auto |]. split; intros; discriminate.
  - exists bk.
    assert (heap match heap st !! x with
                 | Some xk =>
                     match o !! uri xk with
                     | Some e => set_heap <[x:=apply_entry e xk]> st
                     | None => st
                     end
                 | None => st
                 end !! b = Some bk) as Hkeep.
    { destruct (heap st !! x) as [xk |]; [| exact Hb].
      destruct (o !! uri xk); [| exact Hb].
      cbn. rewrite lookup_insert_ne by exact Hne. exact Hb. }
    split; [exact Hkeep |]. split; [exact Hu |]. split; [exact Hrel |].
    split; [auto |]. split; [congruence | auto].
Qed.

Lemma load_fold_applies o (l : list positive) :
  forall st b bk0 bk,
    heap st !! b = Some bk ->
    uri bk = uri bk0 ->
    (bk = bk0 \/ exists e, o !! uri bk0 = Some e /\ bk = apply_entry e bk0) ->
    exists bk',
      heap (foldl (load_one o) st l) !! b = Some bk'
      /\ uri bk' = uri bk0
      /\ (b ∉ l -> bk' = bk)
      /\ (bk' = bk0 \/ exists e, o !! uri bk0 = Some e
                                 /\ bk' = apply_entry e bk0)
      /\ ((b ∈ l \/ forall e, o !! uri bk0 = Some e -> bk = apply_entry e bk0)
          -> forall e, o !! uri bk0 = Some e -> bk' = apply_entry e bk0).
Proof.
  induction l as [| x l IH]; intros st b bk0 bk Hb Hu Hrel; cbn [foldl].
  - exists bk. split; [exact Hb |]. split; [exact Hu |]. split; [auto |].
    split; [exact Hrel |]. intros [Hin | Hdone]; [inversion Hin | exact Hdone].
  - destruct (load_one_applies o st x b bk0 bk Hb Hu Hrel)
      as (bk1 & Hb1 & Hu1 & Hrel1 & Hsame1 & Hnow1 & Hkeep1).
    destruct (IH (load_one o st x) b bk0 bk1 Hb1 Hu1 Hrel1)
      as (bk2 & Hb2 & Hu2 & Hout2 & Hrel2 & Hdone2).
    exists bk2. split; [exact Hb2 |]. split; [exact Hu2 |].
    split; [| split; [exact Hrel2 |]].
    + intros Hnot. rewrite Hout2.
      * destruct Hsame1 as [-> | ->]; [reflexivity |].
        exfalso. apply Hnot, list_elem_of_here.
      * intros Hin. apply Hnot. apply elem_of_cons. right. exact Hin.
    + intros [Hin | Hdone]; apply Hdone2.
      * apply elem_of_cons in Hin as [-> | Hin]; [right; auto | left; exact Hin].
      * right. auto.
Qed.

Lemma load_fold_none o (l : list positive) :
  forall st b, heap st !! b = None ->
               heap (foldl (load_one o) st l) !! b = None.
Proof.
  induction l as [| x l IH]; intros st b Hb; cbn [foldl]; [exact Hb |].
  apply IH. unfold load_one.
  destruct (heap st !! x) as [xk |] eqn:Hx; [| exact Hb].
  destruct (o !! uri xk); [| exact Hb].
  cbn. rewrite lookup_insert_ne by congruence. exact Hb.
Qed.



(** ** Creating a symlink *)

Lemma drop_last_component_none (r : jsstring) :
  lacks slash r -> drop_last_component r = None.
Proof.
  induction 1 as [| c t Hc _ IH]; [reflexivity |].
  cbn [drop_last_component]. rewrite IH.
  apply N.eqb_neq in Hc. rewrite Hc. reflexivity.
Qed.

Lemma drop_last_component_app (d r : jsstring) :
  lacks slash r -> drop_last_component (d ++ slash :: r) = Some d.
Proof.
  intros Hr. induction d as [| c d IH]; cbn [app drop_last_component].
  - rewrite (drop_last_component_none r Hr). reflexivity.
  - rewrite IH. reflexivity.
Qed.

Lemma drop_last_component_shorter (s d : jsstring) :
  drop_last_component s = Some d -> (length d < length s)%nat.
Proof.
  revert d. induction s as [| c t IH]; intros d; [discriminate |].
  cbn [drop_last_component].
  destruct (drop_last_component t) as [d' |].
  - intros [= <-]. specialize (IH d' eq_refl). cbn. lia.
  - destruct (c =? slash); [| discriminate]. intros [= <-]. cbn. lia.
Qed.

Lemma strip_slashes_length (r : jsstring) :
  (length (strip_slashes r) <= length r)%nat.
Proof.
  induction r as [| c t IH]; cbn [strip_slashes]; [lia |].
  destruct (c =? slash); cbn; lia.
Qed.

(** The directory of a path made of a non-empty base, a slash and a leaf is
    never the path itself. *)
Lemma dirname_differs (b leaf : jsstring) :
  b <> [] -> path_get_dirname (b ++ slash :: leaf) <> b ++ slash :: leaf.
Proof.
  intros Hb Heq.
  assert (2 <= length (b ++ slash :: leaf))%nat as Hlen.
  { rewrite length_app. destruct b; [contradiction |]. cbn. lia. }
  unfold path_get_dirname in Heq.
  destruct (drop_last_component (b ++ slash :: leaf)) as [d |] eqn:Hd.
  - apply drop_last_component_shorter in Hd.
    pose proof (strip_slashes_length (rev d)) as Hs.
    rewrite length_rev in Hs.
    destruct (rev (strip_slashes (rev d))) as [| x r] eqn:Hr.
    + rewrite <- Heq in Hlen. cbn in Hlen. lia.
    + assert (length (x :: r) = length (strip_slashes (rev d))) as Hxr
        by (rewrite <- Hr; apply length_rev).
      rewrite Heq in Hxr. lia.
  - rewrite <- Heq in Hlen. cbn in Hlen. lia.
Qed.

Lemma base_path_nonempty env st : base_path env st <> [].
Proof.
  unfold base_path.
  destruct (custom_mount_base (settings st)) as [| c t] eqn:Hc; cbn.
  - destruct (home_dir env); discriminate.
  - discriminate.
Qed.

Lemma strip_slashes_none (r : jsstring) :
  head_in (N.eqb slash) r = false -> strip_slashes r = r.
Proof.
  destruct r as [| c t]; [reflexivity |]. cbn [head_in strip_slashes].
  intros H. rewrite N.eqb_sym, H. reflexivity.
Qed.

Lemma sanitize_lacks_slash (nm : jsstring) :
  lacks slash (_sanitizeForFilename nm).
Proof.
  rewrite sanitize_is_one_pass. unfold sanitize_one_pass.
  apply strip_last_Forall, strip_first_Forall.
  eapply Forall_impl; [apply replace_runs_content |].
  cbn. intros c [-> | Hc]; [discriminate |].
  intros ->. discriminate.
Qed.

(** X8: the directory that [_createSymlink] creates is the base directory
    itself, when the leaf name holds no slash and the base directory does
    not end with one; the sanitised name never holds a slash, and the
    default base directory never ends with one. *)
Theorem symlink_directory_is_base (env : Env) (st : State) (bk : Bookmark) :
  (lacks slash (link_name bk) -> ends_with_slash (base_path env st) = false ->
   path_get_dirname (_getSymlinkPath env st bk) = base_path env st)
  /\ (symlinkPath bk = [] -> lacks slash (link_name bk))
  /\ (custom_mount_base (settings st) = [] ->
      ends_with_slash (base_path env st) = false).
Proof.
  split; [| split].
  - intros Hleaf Hbase. unfold _getSymlinkPath, path_get_dirname.
    rewrite (drop_last_component_app _ _ Hleaf).
    unfold ends_with_slash in Hbase.
    rewrite (strip_slashes_none _ Hbase), rev_involutive.
    pose proof (base_path_nonempty env st) as Hne.
    destruct (base_path env st); [contradiction | reflexivity].
  - intros Hsp. unfold link_name. rewrite Hsp. cbn [is_empty].
    apply sanitize_lacks_slash.
  - intros Hc. unfold base_path, ends_with_slash. rewrite Hc. cbn [is_empty].
    rewrite rev_app_distr. reflexivity.
Qed.

(** What [_createSymlink] does, case by case. *)
Lemma createSymlink_cases env st bk :
  createSymlink bk = true ->
  let p := _getSymlinkPath env st bk in
  let d := path_get_dirname p in
  let r := _createSymlink env st bk in
  (r.2 = false /\ fs r.1 = fs st /\ _symlinkPaths r.1 = _symlinkPaths st
   /\ ((forall g, mount_table env !! uri bk = Some (QMount (Some g)) ->
                  is_empty g = true)
       \/ (fs st !! d = None /\ d ∈ deny env)))
  \/ exists a g,
       mount_table env !! uri bk = Some (QMount (Some g))
       /\ is_empty g = false
       /\ ((a = fs st /\ is_Some (fs st !! d))
           \/ (a = <[d := EDir]> (fs st) /\ fs st !! d = None
               /\ (d ∉ deny env)))
       /\ ((r.2 = true
            /\ remove_fs env (located env st bk) a !! p = None
            /\ (p ∉ deny env)
            /\ fs r.1
               = <[p := ESymlink g]> (remove_fs env (located env st bk) a)
            /\ _symlinkPaths r.1 !! uri bk = Some p)
           \/ (r.2 = false
               /\ (is_Some (remove_fs env (located env st bk) a !! p)
                   \/ p ∈ deny env)
               /\ fs r.1 = remove_fs env (located env st bk) a)).
Proof.
  intros Hcs. cbn zeta. unfold _createSymlink, _getGvfsMountPath.
  rewrite Hcs. cbn [negb].
  destruct (mount_table env !! uri bk) as [[[g |] |] |] eqn:Hm;
    try (left; do 3 (split; [reflexivity |]); left; discriminate).
  destruct (is_empty g) eqn:Hg;
    [left; do 3 (split; [reflexivity |]); left; congruence |].
  assert (forall st2,
            _symlinkPaths st2 = _symlinkPaths st ->
            settings st2 = settings st ->
            let r := match
                make_symbolic_link env (fs (_removeSymlink env st2 bk).1)
                  (_getSymlinkPath env st bk) g
              with
              | Some f' =>
                  (log "Created symlink:"
                     (set_symlinkPaths
                        (insert (uri bk) (_getSymlinkPath env st bk))
                        (set_fs (fun _ => f') (_removeSymlink env st2 bk).1)),
                   true)
              | None =>
                  (log "Failed to create symlink for"
                     (_removeSymlink env st2 bk).1, false)
              end in
            (r.2 = true
             /\ remove_fs env (located env st bk) (fs st2)
                !! _getSymlinkPath env st bk = None
             /\ (_getSymlinkPath env st bk ∉ deny env)
             /\ fs r.1
                = <[_getSymlinkPath env st bk := ESymlink g]>
                    (remove_fs env (located env st bk) (fs st2))
             /\ _symlinkPaths r.1 !! uri bk
                = Some (_getSymlinkPath env st bk))
            \/ (r.2 = false
                /\ (is_Some (remove_fs env (located env st bk) (fs st2)
                             !! _getSymlinkPath env st bk)
                    \/ _getSymlinkPath env st bk ∈ deny env)
                /\ fs r.1 = remove_fs env (located env st bk) (fs st2)))
    as Hlink.
  { intros st2 Hsp Hset. cbn zeta.
    rewrite fs_removeSymlink, (located_same env st st2 bk Hsp Hset).
    unfold make_symbolic_link.
    destruct (remove_fs env (located env st bk) (fs st2)
              !! _getSymlinkPath env st bk) as [e |] eqn:Hp.
    - right. cbn. rewrite fs_removeSymlink,
        (located_same env st st2 bk Hsp Hset). eauto.
    - destruct (bool_decide (_getSymlinkPath env st bk ∈ deny env)) eqn:Hd.
      + apply bool_decide_eq_true in Hd. right. cbn.
        rewrite fs_removeSymlink, (located_same env st st2 bk Hsp Hset).
        auto.
      + apply bool_decide_eq_false in Hd. left. cbn.
        rewrite lookup_insert_eq. auto. }
  unfold make_directory_with_parents.
  destruct (fs st !! path_get_dirname (_getSymlinkPath env st bk))
    as [e |] eqn:Hd.
  - right. exists (fs st), g.
    split; [reflexivity |]. split; [exact Hg |].
    split; [left; eauto |]. exact (Hlink st eq_refl eq_refl).
  - destruct (bool_decide
                (path_get_dirname (_getSymlinkPath env st bk) ∈ deny env))
      eqn:Hdeny.
    + apply bool_decide_eq_true in Hdeny. left.
      do 3 (split; [reflexivity |]). right. auto.
    + apply bool_decide_eq_false in Hdeny. right.
      exists (<[path_get_dirname (_getSymlinkPath env st bk) := EDir]> (fs st)),
        g.
      split; [reflexivity |]. split; [exact Hg |].
      split; [right; auto |].
      exact (Hlink (set_fs (fun _ => _) st) eq_refl eq_refl).
Qed.

Lemma remove_fs_spares env loc a q :
  a !! q = Some EFile \/ a !! q = Some EDir \/ (is_Some (a !! q) /\ q <> loc)
  \/ (a !! q = None) ->
  remove_fs env loc a !! q = a !! q.
Proof.
  intros Hq.
  destruct (remove_fs_lookup env loc a) as [-> | [-> (t & Ht & _)]];
    [reflexivity |].
  destruct (decide (loc = q)) as [-> | Hne];
    [| apply lookup_delete_ne; exact Hne].
  destruct Hq as [Hq | [Hq | [[_ Hq] | Hq]]]; congruence.
Qed.

Lemma createSymlink_off env st bk :
  createSymlink bk = false -> _createSymlink env st bk = (st, true).
Proof. intros Hcs. unfold _createSymlink. rewrite Hcs. reflexivity. Qed.


(** The link is made when nothing stands in the way. *)
Lemma link_made env st bk g :
  createSymlink bk = true ->
  mount_table env !! uri bk = Some (QMount (Some g)) -> g <> [] ->
  located env st bk = _getSymlinkPath env st bk ->
  _getSymlinkPath env st bk ∉ deny env ->
  (is_Some (fs st !! path_get_dirname (_getSymlinkPath env st bk))
   \/ path_get_dirname (_getSymlinkPath env st bk) ∉ deny env) ->
  (fs st !! _getSymlinkPath env st bk = None
   \/ exists t, fs st !! _getSymlinkPath env st bk = Some (ESymlink t)
                /\ (t ∉ gone env)) ->
  (_createSymlink env st bk).2 = true
  /\ fs (_createSymlink env st bk).1 !! _getSymlinkPath env st bk
     = Some (ESymlink g)
  /\ _symlinkPaths (_createSymlink env st bk).1 !! uri bk
     = Some (_getSymlinkPath env st bk)
  /\ (forall q, q <> _getSymlinkPath env st bk ->
                q <> path_get_dirname (_getSymlinkPath env st bk) ->
                fs (_createSymlink env st bk).1 !! q = fs st !! q).
Proof.
  intros Hcs Hm Hg Hloc Hdeny Hdir Hfree.
  set (p := _getSymlinkPath env st bk) in *.
  set (d := path_get_dirname p) in *.
  assert (d <> p) as Hdp
    by (apply dirname_differs, base_path_nonempty).
  destruct (createSymlink_cases env st bk Hcs)
    as [(_ & _ & _ & [Hno | [Hd Hdd]]) | (a & g' & Hm' & _ & Ha & Hlink)].
  - specialize (Hno g Hm). destruct g; [contradiction | discriminate].
  - fold p d in Hd, Hdd. destruct Hdir as [[e He] | Hdir];
      [congruence | contradiction].
  - rewrite Hm in Hm'. injection Hm' as <-. fold p d in Ha, Hlink.
    rewrite Hloc in Hlink.
    assert (a !! p = fs st !! p) as Hap.
    { destruct Ha as [[-> _] | (-> & _)]; [reflexivity |].
      apply lookup_insert_ne. exact Hdp. }
    assert (remove_fs env p a !! p = None) as Hgone.
    { unfold remove_fs, query_exists, get_is_symlink, file_delete.
      rewrite Hap.
      destruct Hfree as [Hnone | (t & Hsome & Ht)].
      - rewrite Hnone. cbn. rewrite Hap. exact Hnone.
      - rewrite Hsome. fs_simpl. reflexivity. }
    assert (forall q, q <> p -> q <> d ->
                      remove_fs env p a !! q = fs st !! q) as Hother.
    { intros q Hqp Hqd.
      assert (a !! q = fs st !! q) as Haq.
      { destruct Ha as [[-> _] | (-> & _)]; [reflexivity |].
        apply lookup_insert_ne. congruence. }
      destruct (remove_fs_lookup env p a) as [-> | [-> _]]; [exact Haq |].
      rewrite lookup_delete_ne by congruence. exact Haq. }
    destruct Hlink as [(Hret & _ & _ & Hfs & Hrec) | (_ & [Hsome | Hd] & _)].
    + split; [exact Hret |]. split; [rewrite Hfs; apply lookup_insert_eq |].
      split; [exact Hrec |].
      intros q Hqp Hqd. rewrite Hfs, lookup_insert_ne by congruence.
      apply Hother; assumption.
    + rewrite Hgone in Hsome. destruct Hsome. discriminate.
    + contradiction.
Qed.



(** X11: when the computed path holds a regular file or a directory,
    [_createSymlink] (with [createSymlink] on) reports failure and leaves
    that entry in place. *)
Theorem createSymlink_conflict
    (env : Env) (st : State) (bk : Bookmark) :
  createSymlink bk = true ->
  fs st !! _getSymlinkPath env st bk = Some EFile
  \/ fs st !! _getSymlinkPath env st bk = Some EDir ->
  (_createSymlink env st bk).2 = false
  /\ fs (_createSymlink env st bk).1 !! _getSymlinkPath env st bk
     = fs st !! _getSymlinkPath env st bk.
Proof.
  intros Hcs Hp.
  set (p := _getSymlinkPath env st bk) in *.
  destruct (createSymlink_cases env st bk Hcs)
    as [(Hret & -> & _) | (a & g & _ & _ & Ha & Hlink)]; [auto |].
  fold p in Ha, Hlink.
  assert (a !! p = fs st !! p) as Hap.
  { destruct Ha as [[-> _] | (-> & Hd & _)]; [reflexivity |].
    apply lookup_insert_ne. intros Heq. rewrite Heq in Hd.
    destruct Hp; congruence. }
  assert (remove_fs env (located env st bk) a !! p = fs st !! p) as Hbp.
  { rewrite <- Hap. apply remove_fs_spares. rewrite Hap. tauto. }
  destruct Hlink as [(_ & Hnone & _) | (Hret & _ & ->)].
  - rewrite Hnone in Hbp. destruct Hp; congruence.
  - auto.
Qed.

Lemma createSymlink_conflict_witness :
  (_createSymlink mounted_env
     (set_fs (fun _ => {[home_link := EFile]}) one_bookmark)
     share_with_link).2 = false.
Proof.
  refine (proj1 (createSymlink_conflict mounted_env
                   (set_fs (fun _ => {[home_link := EFile]}) one_bookmark)
                   share_with_link eq_refl _)).
  left. vm_compute. reflexivity.
Defined.

(** ** Timers *)

Lemma arms_refl st : arms_only st st.
Proof.
  split; [reflexivity |]. split; [auto |]. split; [auto |].
  split; [congruence | auto].
Qed.

Lemma arms_trans s0 s1 s2 :
  arms_only s0 s1 -> arms_only s1 s2 -> arms_only s0 s2.
Proof.
  intros (Hp1 & Hold1 & Hids1 & Hnew1 & Htr1) (Hp2 & Hold2 & Hids2 & Hnew2 & Htr2).
  split; [congruence |]. split; [auto |]. split; [auto |]. split.
  - intros id src H0 H2. destruct (sources s1 !! id) as [src1 |] eqn:H1.
    + destruct (Hnew1 id src1 H0 H1) as [Hin Hcb].
      rewrite (Hold2 id src1 H1) in H2. injection H2 as <-. auto.
    + eauto.
  - intros id Hin. destruct (Htr2 id Hin) as [H1 | [H1 H2]].
    + destruct (Htr1 id H1) as [H0 | [H0 [src Hs]]]; [auto |].
      right. split; [exact H0 |]. rewrite (Hold2 id src Hs). eauto.
    + right. split; [| exact H2].
      destruct (sources s0 !! id) as [src |] eqn:H0; [| reflexivity].
      rewrite (Hold1 id src H0) in H1. discriminate.
Qed.

Lemma arms_same s0 st st' :
  _timeoutId st' = _timeoutId st -> _timeoutIds st' = _timeoutIds st ->
  sources st' = sources st -> arms_only s0 st -> arms_only s0 st'.
Proof.
  unfold arms_only. intros -> -> ->. auto.
Qed.

Ltac arms_same :=
  intros H; exact (arms_same _ _ _ eq_refl eq_refl eq_refl H).

Lemma arms_log s0 st m : arms_only s0 st -> arms_only s0 (log m st).
Proof. arms_same. Qed.
Lemma arms_set_heap s0 st f :
  arms_only s0 st -> arms_only s0 (set_heap f st).
Proof. arms_same. Qed.
Lemma arms_set_bookmarks s0 st f :
  arms_only s0 st -> arms_only s0 (set_bookmarks f st).
Proof. arms_same. Qed.
Lemma arms_set_mountedLocations s0 st f :
  arms_only s0 st -> arms_only s0 (set_mountedLocations f st).
Proof. arms_same. Qed.
Lemma arms_set_symlinkPaths s0 st f :
  arms_only s0 st -> arms_only s0 (set_symlinkPaths f st).
Proof. arms_same. Qed.
Lemma arms_set_startup s0 st f :
  arms_only s0 st -> arms_only s0 (set_startupMountInProgress f st).
Proof. arms_same. Qed.
Lemma arms_set_fs s0 st f : arms_only s0 st -> arms_only s0 (set_fs f st).
Proof. arms_same. Qed.
Lemma arms_set_mount_requests s0 st f :
  arms_only s0 st -> arms_only s0 (set_mount_requests f st).
Proof. arms_same. Qed.
Lemma arms_set_unmount_requests s0 st f :
  arms_only s0 st -> arms_only s0 (set_unmount_requests f st).
Proof. arms_same. Qed.
Lemma arms_save s0 st :
  arms_only s0 st -> arms_only s0 (_saveBookmarkSettings st).
Proof. arms_same. Qed.
Lemma arms_notify s0 st ttl msg isError :
  arms_only s0 st -> arms_only s0 (_notify st ttl msg isError).
Proof. apply arms_same; apply notify_frame. Qed.
Lemma arms_createSymlink env s0 st bk :
  arms_only s0 st -> arms_only s0 (_createSymlink env st bk).1.
Proof. apply arms_same; apply only_links_createSymlink. Qed.
Lemma arms_removeSymlink env s0 st bk :
  arms_only s0 st -> arms_only s0 (_removeSymlink env st bk).1.
Proof. apply arms_same; apply only_links_removeSymlink. Qed.

(** Arming a one-shot timeout and tracking its id. *)
Lemma arms_add s0 st d cb :
  cb <> CbPeriodic -> arms_only s0 st ->
  arms_only s0
    (set_timeoutIds (fun ids => {[fresh (dom (sources st))]} ∪ ids)
       (set_sources (insert (fresh (dom (sources st))) (mkSource d cb)) st)).
Proof.
  intros Hcb H. eapply arms_trans; [exact H |].
  pose proof (fresh_source_unused st) as Hfresh.
  set (id := fresh (dom (sources st))) in *.
  split; [reflexivity |]. cbn. split; [| split; [| split]].
  - intros i src Hi. rewrite lookup_insert_ne by congruence. exact Hi.
  - intros i Hi. apply elem_of_union. right. exact Hi.
  - intros i src Hi. destruct (decide (id = i)) as [<- | Hne].
    + rewrite lookup_insert_eq. intros [= <-]. split; [| exact Hcb].
      apply elem_of_union. left. apply elem_of_singleton. reflexivity.
    + rewrite lookup_insert_ne by exact Hne. congruence.
  - intros i Hi. apply elem_of_union in Hi as [Hi | Hi]; [| auto].
    apply elem_of_singleton in Hi. subst i. right.
    split; [exact Hfresh |]. rewrite lookup_insert_eq. eauto.
Qed.

Lemma arms_scheduleRetry s0 st b d :
  arms_only s0 st -> arms_only s0 (_scheduleRetry st b d).
Proof. apply arms_add. discriminate. Qed.

Create HintDb timers.
#[local] Hint Resolve arms_refl arms_log arms_set_heap arms_set_bookmarks
  arms_set_mountedLocations arms_set_symlinkPaths arms_set_startup
  arms_set_fs arms_set_mount_requests arms_set_unmount_requests arms_save
  arms_notify arms_createSymlink arms_removeSymlink arms_scheduleRetry
  : timers.

Ltac arms := repeat case_match; simplify_eq; simpl; auto 20 with timers.

Lemma arms_foldl {A} (f : State -> A -> State) s0 (l : list A) :
  (forall st x, arms_only s0 st -> arms_only s0 (f st x)) ->
  forall st, arms_only s0 st -> arms_only s0 (foldl f st l).
Proof.
  intros Hf. induction l as [| x l IH]; intros st H; simpl; [exact H |].
  apply IH, Hf, H.
Qed.

Lemma arms_foldl_fst {A B} (f : State * B -> A -> State * B) s0
    (l : list A) :
  (forall acc x, arms_only s0 acc.1 -> arms_only s0 (f acc x).1) ->
  forall acc, arms_only s0 acc.1 -> arms_only s0 (foldl f acc l).1.
Proof.
  intros Hf. induction l as [| x l IH]; intros acc H; simpl; [exact H |].
  apply IH, Hf, H.
Qed.

Lemma arms_loadBookmarkSettings s0 st :
  arms_only s0 st -> arms_only s0 (_loadBookmarkSettings st).
Proof.
  intros H. unfold _loadBookmarkSettings. arms.
  apply arms_foldl; [| exact H].
  intros st' b H'. unfold load_one. arms.
Qed.

Lemma arms_updateBookmarksList env s0 st :
  arms_only s0 st -> arms_only s0 (_updateBookmarksList env st).
Proof.
  intros H. unfold _updateBookmarksList.
  apply arms_foldl; [| exact H].
  intros st' b H'. unfold refresh_one. arms.
Qed.

Lemma arms_alloc_all s0 bks :
  forall st, arms_only s0 st -> arms_only s0 (alloc_all st bks).1.
Proof.
  induction bks as [| bk bks IH]; intros st H; simpl; [exact H |].
  specialize (IH (set_heap (insert (fresh (dom (heap st))) bk) st)).
  destruct (alloc_all _ bks) as [st2 rs]. simpl in *. auto with timers.
Qed.

#[local] Hint Resolve arms_loadBookmarkSettings arms_updateBookmarksList
  : timers.

Lemma arms_loadBookmarks env s0 st :
  arms_only s0 st -> arms_only s0 (_loadBookmarks env st).
Proof.
  intros H. unfold _loadBookmarks.
  destruct (bookmarks_file env) as [| | | c]; auto 10 with timers.
  pose proof (arms_alloc_all s0 (parse_bookmarks env c) st H) as Ha.
  destruct (alloc_all st (parse_bookmarks env c)) as [st1 rs].
  simpl in Ha. auto 10 with timers.
Qed.

#[local] Hint Resolve arms_loadBookmarks : timers.

Lemma arms_handleMountFailure env s0 st b msg :
  arms_only s0 st -> arms_only s0 (_handleMountFailure env st b msg).
Proof. intros H. unfold _handleMountFailure. arms. Qed.

#[local] Hint Resolve arms_handleMountFailure : timers.

Lemma arms_mountLocation env s0 st b isRetry isStartup :
  arms_only s0 st -> arms_only s0 (_mountLocation env st b isRetry isStartup).
Proof. intros H. unfold _mountLocation. arms. Qed.

Lemma arms_mount_finished env s0 st b isStartup result :
  arms_only s0 st -> arms_only s0 (mount_finished env st b isStartup result).
Proof.
  intros H. unfold mount_finished.
  destruct result as [msg |]; [auto with timers |].
  destruct (heap st !! b) as [bk |]; [| exact H].
  unfold timeout_add_seconds. cbn zeta.
  apply (arms_add s0
           (set_mountedLocations (insert (uri bk) (now env))
              (set_heap (insert b (succeeded (now env) bk))
                 (log "Successfully mounted:" st)))); [discriminate |].
  auto with timers.
Qed.

Lemma arms_unmountLocation env s0 st b :
  arms_only s0 st -> arms_only s0 (_unmountLocation env st b).
Proof. intros H. unfold _unmountLocation. arms. Qed.

Lemma arms_unmount_finished s0 st b result :
  arms_only s0 st -> arms_only s0 (unmount_finished st b result).
Proof. intros H. unfold unmount_finished. arms. Qed.

#[local] Hint Resolve arms_mountLocation arms_mount_finished
  arms_unmountLocation arms_unmount_finished : timers.

Lemma arms_checkAndMountAll env s0 st manual isStartup :
  arms_only s0 st -> arms_only s0 (_checkAndMountAll env st manual isStartup).
Proof.
  intros H. unfold _checkAndMountAll.
  pose proof (arms_foldl_fst (check_one env isStartup) s0
                (_bookmarks (_loadBookmarks env st))) as Hf.
  specialize (Hf ltac:(intros [st' [m t]] b H'; unfold check_one; simpl in *;
                       arms)
                (_loadBookmarks env st, (0, 0)%Z)
                ltac:(simpl; auto with timers)).
  destruct (foldl _ _ _) as [st2 [mounted total]]. simpl in Hf.
  destruct manual; auto with timers.
Qed.

Lemma arms_mountAllEnabled env s0 st :
  arms_only s0 st -> arms_only s0 (_mountAllEnabled env st).
Proof.
  intros H. unfold _mountAllEnabled.
  pose proof (arms_foldl_fst (mount_enabled_one env) s0
                (List.filter (is_enabled st) (_bookmarks st))) as Hf.
  specialize (Hf ltac:(intros [st' c] b H'; unfold mount_enabled_one;
                       simpl in *; arms)
                (st, 0%Z) H).
  destruct (foldl _ _ _) as [st1 count]. simpl in Hf. auto with timers.
Qed.

Lemma arms_unmountAll env s0 st :
  arms_only s0 st -> arms_only s0 (_unmountAll env st).
Proof.
  intros H. unfold _unmountAll.
  pose proof (arms_foldl_fst (unmount_one env) s0 (_bookmarks st)) as Hf.
  specialize (Hf ltac:(intros [st' c] b H'; unfold unmount_one;
                       simpl in *; arms)
                (st, 0%Z) H).
  destruct (foldl _ _ _) as [st1 count]. simpl in Hf. auto with timers.
Qed.

#[local] Hint Resolve arms_checkAndMountAll arms_mountAllEnabled
  arms_unmountAll : timers.

(** A step that only arms tracked one-shot timers keeps the timers
    tracked. *)
Lemma arms_tracked s0 st :
  arms_only s0 st -> timers_tracked s0 -> timers_tracked st.
Proof.
  intros (Hp & Hold & Hids & Hnew & Htr) (Hone & Hper & Hall).
  split; [| split].
  - intros id Hin. destruct (Htr id Hin) as [H0 | [H0 [src Hs]]].
    + destruct (Hone id H0) as (src & Hs & Hcb). eauto.
    + exists src. split; [exact Hs |]. apply (Hnew id src H0 Hs).
  - intros id Hid. rewrite Hp in Hid.
    destruct (Hper id Hid) as (src & Hs & Hcb). eauto.
  - intros id [src Hs]. destruct (sources s0 !! id) as [src0 |] eqn:H0.
    + destruct (Hall id ltac:(eauto)) as [Hin | Hid]; [auto |].
      right. congruence.
    + left. apply (Hnew id src H0 Hs).
Qed.

Lemma tracked_disjoint st id :
  timers_tracked st -> _timeoutId st = Some id -> id ∉ _timeoutIds st.
Proof.
  intros (Hone & Hper & _) Hid Hin.
  destruct (Hone id Hin) as (src & Hs & Hcb).
  destruct (Hper id Hid) as (src' & Hs' & Hcb'). congruence.
Qed.

Lemma tracked_startPeriodicCheck st :
  timers_tracked st -> timers_tracked (_startPeriodicCheck st).
Proof.
  intros Ht. unfold _startPeriodicCheck.
  set (st1 := match _timeoutId st with
              | Some id => set_timeoutId (fun _ => None) (source_remove id st)
              | None => st
              end).
  assert (timers_tracked st1 /\ _timeoutId st1 = None) as [Ht1 Hp1].
  { subst st1. destruct (_timeoutId st) as [pid |] eqn:Hp; [| auto].
    split; [| reflexivity].
    pose proof (tracked_disjoint st pid Ht Hp) as Hdis.
    destruct Ht as (Hone & Hper & Hall). split; [| split]; cbn.
    - intros id Hin. rewrite lookup_delete_ne by congruence. auto.
    - discriminate.
    - intros id Hs. destruct (decide (pid = id)) as [<- | Hne].
      + rewrite lookup_delete_eq in Hs. destruct Hs. discriminate.
      + rewrite lookup_delete_ne in Hs by exact Hne.
        destruct (Hall id Hs) as [Hin | Hid]; [auto | congruence]. }
  clearbody st1. unfold timeout_add_seconds.
  pose proof (fresh_source_unused st1) as Hfresh.
  set (id := fresh (dom (sources st1))) in *.
  destruct Ht1 as (Hone & Hper & Hall). split; [| split]; cbn.
  - intros i Hin. destruct (Hone i Hin) as (src & Hs & Hcb).
    exists src. rewrite lookup_insert_ne by congruence. auto.
  - intros i [= <-]. rewrite lookup_insert_eq. eauto.
  - intros i Hs. destruct (decide (id = i)) as [<- | Hne]; [auto |].
    rewrite lookup_insert_ne in Hs by exact Hne.
    destruct (Hall i Hs) as [Hin | Hid]; [auto | congruence].
Qed.

(** A one-shot callback that is done: its id leaves the set and the main
    loop drops the source. *)
Lemma tracked_done st id :
  timers_tracked st -> id ∈ _timeoutIds st ->
  timers_tracked
    (source_remove id (set_timeoutIds (fun ids => ids ∖ {[id]}) st)).
Proof.
  intros Ht Hin.
  assert (_timeoutId st <> Some id) as Hnp
    by (intros Hp; exact (tracked_disjoint st id Ht Hp Hin)).
  destruct Ht as (Hone & Hper & Hall). split; [| split]; cbn.
  - intros i Hi. apply elem_of_difference in Hi as [Hi Hne].
    rewrite lookup_delete_ne; [auto |].
    intros ->. apply Hne, elem_of_singleton. reflexivity.
  - intros i Hi. rewrite lookup_delete_ne by congruence. auto.
  - intros i Hs. destruct (decide (id = i)) as [<- | Hne].
    + rewrite lookup_delete_eq in Hs. destruct Hs. discriminate.
    + rewrite lookup_delete_ne in Hs by exact Hne.
      destruct (Hall i Hs) as [Hi | Hi]; [| auto].
      left. apply elem_of_difference. split; [exact Hi |].
      intros Heq. apply elem_of_singleton in Heq. congruence.
Qed.

Lemma tracked_fire env st id :
  timers_tracked st -> timers_tracked (fire env st id).
Proof.
  intros Ht. unfold fire.
  destruct (sources st !! id) as [src |] eqn:Hs; [| exact Ht].
  assert (callback src <> CbPeriodic -> id ∈ _timeoutIds st) as Hin.
  { intros Hcb. destruct Ht as (_ & Hper & Hall).
    destruct (Hall id ltac:(eauto)) as [Hi | Hi]; [exact Hi |].
    destruct (Hper id Hi) as (src' & Hs' & Hcb'). congruence. }
  assert (forall st', arms_only st st' -> callback src <> CbPeriodic ->
            timers_tracked
              (source_remove id
                 (set_timeoutIds (fun ids => ids ∖ {[id]}) st'))) as Hdone.
  { intros st' Ha Hcb. apply tracked_done.
    - exact (arms_tracked st st' Ha Ht).
    - apply Ha. auto. }
  unfold run_callback.
  destruct (callback src) as [| | b isStartup | b |].
  - apply Hdone; [auto with timers | discriminate].
  - apply Hdone; [auto 10 with timers | discriminate].
  - destruct (heap st !! b) as [bk |].
    + pose proof (arms_createSymlink env st st bk (arms_refl st)) as Hc.
      destruct (_createSymlink env st bk) as [st1 created]. simpl in Hc.
      apply Hdone; [| discriminate].
      destruct isStartup; simpl; auto with timers.
    + apply Hdone; [auto with timers | discriminate].
  - destruct (heap st !! b) as [bk |].
    + apply Hdone; [| discriminate]. arms.
    + apply Hdone; [auto with timers | discriminate].
  - apply (arms_tracked st); [auto with timers | exact Ht].
Qed.

Lemma tracked_destroy env st :
  timers_tracked st ->
  sources (destroy env st) = ∅ /\ timers_tracked (destroy env st).
Proof.
  intros (Hone & Hper & Hall).
  destruct (destroy_cleans_up env st) as (Hp & Hids & Hgone & Hkept & _).
  assert (sources (destroy env st) = ∅) as He.
  { apply map_eq. intros id. rewrite lookup_empty.
    destruct (decide (_timeoutId st = Some id)) as [Hid | Hid];
      [apply Hgone; auto |].
    destruct (decide (id ∈ _timeoutIds st)) as [Hin | Hin];
      [apply Hgone; auto |].
    rewrite (Hkept id Hid Hin).
    destruct (sources st !! id) as [src |] eqn:Hs; [| reflexivity].
    destruct (Hall id ltac:(eauto)); contradiction. }
  split; [exact He |]. split; [| split].
  - rewrite Hids. intros id Hin. apply not_elem_of_empty in Hin. contradiction.
  - rewrite Hp. discriminate.
  - rewrite He. intros id [src Hs]. rewrite lookup_empty in Hs. discriminate.
Qed.

Lemma tracked_step env st a :
  timers_tracked st -> timers_tracked (step env st a).
Proof.
  intros Ht.
  assert (forall st', arms_only st st' -> timers_tracked st') as Ha
    by (intros st' H; exact (arms_tracked st st' H Ht)).
  destruct a; simpl; try (apply Ha; auto with timers; fail).
  - apply Ha. unfold _openSettings. arms.
  - apply Ha. unfold on_toggled. arms.
  - apply Ha. unfold on_bookmark_settings_changed. arms.
  - apply tracked_startPeriodicCheck, Ht.
  - apply tracked_fire, Ht.
  - apply tracked_destroy, Ht.
Qed.

Lemma tracked_init env cfg disk : timers_tracked (_init env cfg disk).
Proof.
  unfold _init.
  set (st0 := {| heap := ∅; _bookmarks := []; _mountedLocations := ∅;
                 _symlinkPaths := ∅; _timeoutId := None; _timeoutIds := ∅;
                 _startupMountInProgress := false; settings := cfg;
                 fs := disk; sources := ∅; mount_requests := [];
                 unmount_requests := []; notify_calls := []; shown := [];
                 console := [] |}).
  assert (timers_tracked st0) as H0.
  { split; [| split]; cbn.
    - intros id Hin. apply not_elem_of_empty in Hin. contradiction.
    - discriminate.
    - intros id [src Hs]. rewrite lookup_empty in Hs. discriminate. }
  assert (timers_tracked (_startPeriodicCheck (_loadBookmarks env st0))) as H1.
  { apply tracked_startPeriodicCheck.
    apply (arms_tracked st0); [auto with timers | exact H0]. }
  set (st1 := _startPeriodicCheck (_loadBookmarks env st0)) in *.
  clearbody st1. unfold timeout_add_seconds. cbn zeta.
  set (st2 := set_startupMountInProgress (fun _ => true) st1).
  set (st4 := set_timeoutIds
                (fun ids => {[fresh (dom (sources st2))]} ∪ ids)
                (set_sources
                   (insert (fresh (dom (sources st2)))
                      (mkSource 5 CbStartupCheck)) st2)).
  apply (arms_tracked st1); [| exact H1].
  apply (arms_add st1 st4); [discriminate |].
  apply (arms_add st1 st2); [discriminate |].
  apply arms_set_startup, arms_refl.
Qed.

Lemma tracked_outside st cfg disk :
  timers_tracked st ->
  timers_tracked (set_fs (fun _ => disk) (set_settings (fun _ => cfg) st)).
Proof. intros H. exact H. Qed.

Lemma reachable_tracked st : reachable st -> timers_tracked st.
Proof.
  induction 1 as [env cfg disk | env st a _ IH | st cfg disk _ IH].
  - apply tracked_init.
  - apply tracked_step, IH.
  - apply tracked_outside, IH.
Qed.

(** X12: in every state that the indicator goes through, the timeouts
    pending in the main loop are the tracked ones: each id of
    [_timeoutIds] is a pending one-shot timeout, [_timeoutId] (when set) is
    a pending periodic check, and nothing else is pending.  So there is at
    most one periodic check at a time. *)
Theorem timers_stay_tracked (st : State) :
  reachable st -> timers_tracked st.
Proof. apply reachable_tracked. Qed.

Lemma timers_stay_tracked_witness :
  timers_tracked
    (step quiet_env (_init quiet_env default_settings ∅) ActCheckAllNow).
Proof.
  apply timers_stay_tracked.
  apply reachable_step, reachable_init.
Defined.

(** X13: [destroy] leaves no timeout pending, in whatever state the
    indicator is when it is destroyed. *)
Theorem destroy_leaves_no_timeout (env : Env) (st : State) :
  reachable st -> sources (destroy env st) = ∅.
Proof. intros Hr. apply tracked_destroy, reachable_tracked, Hr. Qed.

Lemma destroy_leaves_no_timeout_witness :
  sources (destroy quiet_env (_init quiet_env default_settings ∅)) = ∅.
Proof.
  apply destroy_leaves_no_timeout.
  apply reachable_init.
Defined.

(** ** A mount that keeps failing *)

Lemma notify_startup st ttl msg isError :
  _startupMountInProgress (_notify st ttl msg isError)
  = _startupMountInProgress st.
Proof.
  unfold _notify; simpl.
  destruct (show_notifications (settings st)),
    (show_error_notifications (settings st)),
    (show_success_notifications (settings st)), isError; reflexivity.
Qed.

(** One round: the count goes up by one, no timer is left behind, and the
    mount is asked for again exactly when the new count is within
    [retry-attempts]. *)
Lemma failing_round_step env b errorMsg st bk :
  heap st !! b = Some bk -> enabled bk = true ->
  _isLocationMounted env (uri bk) = false ->
  mount_throws env !! uri bk = None ->
  let st' := failing_round env b errorMsg st in
  heap st' = <[b := failed (now env) bk]> (heap st)
  /\ sources st' = sources st
  /\ settings st' = settings st
  /\ _startupMountInProgress st' = _startupMountInProgress st
  /\ mount_requests st'
     = mount_requests st
       ++ (if (failCount bk + 1 <=? retry_attempts (settings st))%Z
           then [(b, _startupMountInProgress st)] else [])
  /\ notify_calls st'
     = notify_calls st
       ++ [if (failCount bk + 1 <=? retry_attempts (settings st))%Z
           then mkNotification "Mount Failed - Retrying"
                  (retrying_message (failed (now env) bk)
                     (retry_attempts (settings st))) true
           else mkNotification "Mount Failed"
                  (failure_message (failed (now env) bk) errorMsg) true].
Proof.
  intros Hb Hen Hmnt Hthr. cbn zeta.
  unfold failing_round, mount_finished, _handleMountFailure.
  change (heap (log "Failed to mount" st)) with (heap st). rewrite Hb.
  cbn zeta.
  change (settings (set_heap _ (log "Failed to mount" st)))
    with (settings st).
  change (failCount (failed (now env) bk)) with (failCount bk + 1)%Z.
  pose proof (fresh_source_unused st) as Hfresh.
  set (id := fresh (dom (sources st))) in *.
  set (sth := set_heap (insert b (failed (now env) bk))
                (log "Failed to mount" st)).
  destruct (failCount bk + 1 <=? retry_attempts (settings st))%Z.
  - set (st1 := _notify (_scheduleRetry sth b (retry_delay (settings st)))
                  "Mount Failed - Retrying"
                  (retrying_message (failed (now env) bk)
                     (retry_attempts (settings st))) true).
    pose proof (notify_frame (_scheduleRetry sth b (retry_delay (settings st)))
                  "Mount Failed - Retrying"
                  (retrying_message (failed (now env) bk)
                     (retry_attempts (settings st))) true)
      as (Hh & Hs & _ & Hset & _ & _ & Hm & _).
    pose proof (notify_calls_grow
                  (_scheduleRetry sth b (retry_delay (settings st)))
                  "Mount Failed - Retrying"
                  (retrying_message (failed (now env) bk)
                     (retry_attempts (settings st))) true) as Hn.
    pose proof (notify_startup
                  (_scheduleRetry sth b (retry_delay (settings st)))
                  "Mount Failed - Retrying"
                  (retrying_message (failed (now env) bk)
                     (retry_attempts (settings st))) true) as Hst.
    cbn zeta in Hh, Hs, Hset, Hm. fold st1 in Hh, Hs, Hset, Hm, Hn, Hst.
    assert (sources st1 = <[id := mkSource (retry_delay (settings st))
                                   (CbRetry b)]> (sources st)) as Hs1
      by exact Hs.
    assert (heap st1 !! b = Some (failed (now env) bk)) as Hb1
      by (rewrite Hh; apply lookup_insert_eq).
    unfold fire. rewrite Hs1, lookup_insert_eq.
    cbn [callback run_callback]. rewrite Hb1.
    cbn [enabled failed uri]. rewrite Hen, Hmnt. cbn [andb negb].
    unfold _mountLocation. rewrite Hb1. cbn [uri failed].
    rewrite Hmnt, Hthr. cbn.
    rewrite Hs1, delete_insert_id by exact Hfresh.
    rewrite Hh, Hset, Hm, Hn, Hst. repeat split; reflexivity.
  - set (st1 := _notify sth "Mount Failed"
                  (failure_message (failed (now env) bk) errorMsg) true).
    pose proof (notify_frame sth "Mount Failed"
                  (failure_message (failed (now env) bk) errorMsg) true)
      as (Hh & Hs & _ & Hset & _ & _ & Hm & _).
    pose proof (notify_calls_grow sth "Mount Failed"
                  (failure_message (failed (now env) bk) errorMsg) true)
      as Hn.
    pose proof (notify_startup sth "Mount Failed"
                  (failure_message (failed (now env) bk) errorMsg) true)
      as Hst.
    cbn zeta in Hh, Hs, Hset, Hm. fold st1 in Hh, Hs, Hset, Hm, Hn, Hst.
    assert (sources st1 = sources st) as Hs1 by exact Hs.
    unfold fire. rewrite Hs1, Hfresh.
    rewrite Hh, Hs1, Hset, Hm, Hn, Hst, app_nil_r. repeat split; reflexivity.
Qed.

Lemma replicate_min_S {A} (x : A) (n k : nat) :
  replicate (Nat.min (S n) k) x
  = replicate (Nat.min n k) x ++ (if (n <? k)%nat then [x] else []).
Proof.
  destruct (Nat.ltb_spec n k) as [Hlt | Hge].
  - rewrite (Nat.min_l (S n) k), (Nat.min_l n k) by lia.
    change [x] with (replicate 1 x). rewrite <- replicate_add.
    f_equal. lia.
  - rewrite (Nat.min_r (S n) k), (Nat.min_r n k) by lia.
    symmetry. apply app_nil_r.
Qed.

(** X14: a mount that keeps failing is asked for again after each of the
    first [retry-attempts] failures (counted from the bookmark's
    [failCount]) and not after the later ones.  After [n] rounds of
    failure-then-retry-timer the count has grown by [n], every retry timer
    that was armed has fired and is gone, and the number of new mount
    requests is the smaller of [n] and [retry-attempts - failCount]. *)
Theorem failing_mount_is_retried_up_to_the_limit
    (env : Env) (st : State) (b : positive) (bk : Bookmark)
    (errorMsg : jsstring) (n : nat) :
  heap st !! b = Some bk -> enabled bk = true ->
  _isLocationMounted env (uri bk) = false ->
  mount_throws env !! uri bk = None ->
  let st' := Nat.iter n (failing_round env b errorMsg) st in
  let allowed := Z.to_nat (retry_attempts (settings st) - failCount bk) in
  (exists bk',
      heap st' !! b = Some bk'
      /\ failCount bk' = (failCount bk + Z.of_nat n)%Z
      /\ uri bk' = uri bk /\ enabled bk' = enabled bk)
  /\ sources st' = sources st
  /\ mount_requests st'
     = mount_requests st
       ++ replicate (Nat.min n allowed) (b, _startupMountInProgress st)
  /\ length (notify_calls st') = (length (notify_calls st) + n)%nat.
Proof.
  intros Hb Hen Hmnt Hthr. cbn zeta.
  assert (let st' := Nat.iter n (failing_round env b errorMsg) st in
          (exists bk',
              heap st' !! b = Some bk'
              /\ failCount bk' = (failCount bk + Z.of_nat n)%Z
              /\ uri bk' = uri bk /\ enabled bk' = enabled bk)
          /\ sources st' = sources st
          /\ settings st' = settings st
          /\ _startupMountInProgress st' = _startupMountInProgress st
          /\ mount_requests st'
             = mount_requests st
               ++ replicate
                    (Nat.min n (Z.to_nat (retry_attempts (settings st)
                                          - failCount bk)))
                    (b, _startupMountInProgress st)
          /\ length (notify_calls st') = (length (notify_calls st) + n)%nat)
    as H; [| cbn zeta in H; tauto].
  induction n as [| n IH]; cbn zeta.
  - cbn [Nat.iter]. split; [exists bk; repeat split; try assumption; lia |].
    cbn [Nat.min replicate]. rewrite app_nil_r, Nat.add_0_r. tauto.
  - cbn zeta in IH.
    destruct IH as ((bk1 & Hb1 & Hf1 & Hu1 & He1) & Hs1 & Hset1 & Hst1
                    & Hm1 & Hn1).
    change (Nat.iter (S n) (failing_round env b errorMsg) st)
      with (failing_round env b errorMsg
              (Nat.iter n (failing_round env b errorMsg) st)).
    set (stn := Nat.iter n (failing_round env b errorMsg) st) in *.
    destruct (failing_round_step env b errorMsg stn bk1 Hb1
                ltac:(congruence) ltac:(congruence) ltac:(congruence))
      as (Hh & Hs & Hset & Hst & Hm & Hn).
    split; [| split; [congruence | split; [congruence |
               split; [congruence | split]]]].
    + exists (failed (now env) bk1). rewrite Hh, lookup_insert_eq.
      split; [reflexivity |]. cbn [failCount failed uri enabled].
      split; [lia | auto].
    + rewrite Hm, Hm1, Hset1, Hst1, Hf1, <- app_assoc. f_equal.
      rewrite replicate_min_S.
      f_equal.
      destruct (Z.leb_spec (failCount bk + Z.of_nat n + 1)
                  (retry_attempts (settings st))) as [Hle | Hgt];
        destruct (Nat.ltb_spec n
                    (Z.to_nat (retry_attempts (settings st) - failCount bk)))
        as [Hlt | Hge]; (reflexivity || lia).
    + rewrite Hn, length_app, Hn1. cbn. lia.
Qed.

(** The share under the default settings: three retries are allowed, so
    five failing rounds ask for the mount three times. *)
Lemma failing_mount_witness :
  mount_requests (Nat.iter 5 (failing_round quiet_env 1 (js "timed out"))
                    one_bookmark)
  = mount_requests one_bookmark
    ++ replicate 3 (1%positive, _startupMountInProgress one_bookmark).
Proof.
  exact (proj1 (proj2 (proj2
           (failing_mount_is_retried_up_to_the_limit quiet_env one_bookmark 1
              share (js "timed out") 5 eq_refl eq_refl eq_refl eq_refl)))).
Defined.

(** ** The bulk actions and their counts *)

Lemma filter_filter_and {A} (p q : A -> bool) (l : list A) :
  List.filter q (List.filter p l) = List.filter (fun x => p x && q x) l.
Proof.
  induction l as [| x l IH]; [reflexivity |]. cbn.
  destruct (p x); cbn; [destruct (q x) |]; rewrite IH; reflexivity.
Qed.

Lemma pass_ext_refl st : pass_ext st st.
Proof. apply pass_ext_same; reflexivity. Qed.

Lemma pass_ext_mounted env st0 st b :
  pass_ext st0 st -> uri_mounted env st b = uri_mounted env st0 b.
Proof.
  intros [H _]. specialize (H b). unfold uri_mounted.
  destruct (heap st0 !! b), (heap st !! b); try tauto.
  destruct H as (_ & -> & _). reflexivity.
Qed.

Lemma mount_enabled_fold env st0 (l : list positive) :
  Forall (fun b => is_enabled st0 b = true) l ->
  forall st c,
    pass_ext st0 st ->
    pass_ext st0 (foldl (mount_enabled_one env) (st, c) l).1
    /\ (foldl (mount_enabled_one env) (st, c) l).2
       = (c + Z.of_nat
                (length (List.filter
                           (fun b => negb (uri_mounted env st0 b)) l)))%Z.
Proof.
  induction 1 as [| b l Hb _ IH]; intros st c Hp; cbn [foldl].
  - cbn. split; [exact Hp | lia].
  - pose proof (pass_ext_enabled st0 st b Hp) as Hen. rewrite Hb in Hen.
    pose proof (pass_ext_mounted env st0 st b Hp) as Hm.
    unfold is_enabled in Hen. unfold uri_mounted at 1 in Hm.
    cbn [List.filter].
    assert (mount_enabled_one env (st, c) b
            = if negb (uri_mounted env st0 b)
              then (_mountLocation env st b false false, (c + 1)%Z)
              else (st, c)) as ->.
    { unfold mount_enabled_one.
      destruct (heap st !! b) as [bk |]; [| discriminate].
      rewrite Hm. reflexivity. }
    destruct (heap st !! b) as [bk |] eqn:Hbk; [| discriminate].
    destruct (uri_mounted env st0 b); cbn [negb].
    + apply IH, Hp.
    + destruct (IH (_mountLocation env st b false false) (c + 1)%Z)
        as [H1 H2].
      { eapply pass_ext_trans; [exact Hp |].
        apply pass_ext_mountLocation. unfold is_enabled. rewrite Hbk.
        exact Hen. }
      split; [exact H1 |]. rewrite H2. cbn [length]. lia.
Qed.

Lemma mount_enabled_requests env st0 (l : list positive) :
  (forall b bk, heap st0 !! b = Some bk -> mount_throws env !! uri bk = None) ->
  Forall (fun b => is_enabled st0 b = true) l ->
  forall st c,
    heap st = heap st0 ->
    heap (foldl (mount_enabled_one env) (st, c) l).1 = heap st0
    /\ mount_requests (foldl (mount_enabled_one env) (st, c) l).1
       = mount_requests st
         ++ map (fun b => (b, false))
              (List.filter (fun b => negb (uri_mounted env st0 b)) l).
Proof.
  intros Hthr. induction 1 as [| b l Hb _ IH]; intros st c Hh; cbn [foldl].
  - cbn. rewrite app_nil_r. auto.
  - cbn [List.filter]. unfold is_enabled in Hb.
    destruct (heap st0 !! b) as [bk |] eqn:Hbk; [| discriminate].
    assert (uri_mounted env st0 b = _isLocationMounted env (uri bk)) as Hum
      by (unfold uri_mounted; rewrite Hbk; reflexivity).
    assert (mount_enabled_one env (st, c) b
            = if negb (uri_mounted env st0 b)
              then (set_mount_requests (fun l => l ++ [(b, false)]) st,
                    (c + 1)%Z)
              else (st, c)) as ->.
    { unfold mount_enabled_one. rewrite Hh, Hbk, Hum.
      destruct (_isLocationMounted env (uri bk)) eqn:Hm; [reflexivity |].
      cbn [negb]. unfold _mountLocation.
      rewrite Hh, Hbk, Hm, (Hthr b bk Hbk). reflexivity. }
    destruct (uri_mounted env st0 b); cbn [negb].
    + apply IH, Hh.
    + destruct (IH (set_mount_requests (fun l => l ++ [(b, false)]) st)
                  (c + 1)%Z Hh) as [H1 H2].
      split; [exact H1 |]. rewrite H2. cbn. rewrite <- app_assoc.
      reflexivity.
Qed.

(** X15: Mount All Enabled reports the number of listed bookmarks that
    are enabled and not mounted; when no mount call throws at once, it asks
    for the mount of exactly these, in the order of the list, and changes
    no bookmark. *)
Theorem mountAllEnabled_counts (env : Env) (st : State) :
  let st' := _mountAllEnabled env st in
  let due := List.filter (needs_mount env st) (_bookmarks st) in
  last (notify_calls st')
  = Some (mkNotification "Mounting All"
            [Lit "Attempting to mount "; Num (Z.of_nat (length due));
             Lit " locations"] false)
  /\ ((forall b bk, heap st !! b = Some bk ->
                    mount_throws env !! uri bk = None) ->
      heap st' = heap st
      /\ mount_requests st'
         = mount_requests st ++ map (fun b => (b, false)) due).
Proof.
  cbn zeta. unfold _mountAllEnabled, needs_mount.
  rewrite <- (filter_filter_and (is_enabled st)
                (fun b => negb (uri_mounted env st b))).
  assert (Forall (fun b => is_enabled st b = true)
            (List.filter (is_enabled st) (_bookmarks st))) as Hall.
  { apply List.Forall_forall. intros b Hin.
    apply List.filter_In in Hin. tauto. }
  destruct (mount_enabled_fold env st _ Hall st 0%Z (pass_ext_refl st))
    as [_ Hc].
  pose proof (fun Hthr => mount_enabled_requests env st _ Hthr Hall st 0%Z
                            eq_refl) as Hr.
  destruct (foldl _ _ _) as [st1 count]. cbn [fst snd] in Hc, Hr.
  subst count. split.
  - rewrite notify_calls_grow, last_snoc. reflexivity.
  - intros Hthr. destruct (Hr Hthr) as [Hh Hm].
    pose proof (notify_frame st1 "Mounting All"
                  [Lit "Attempting to mount ";
                   Num (0 + Z.of_nat (length (List.filter
                          (fun b => negb (uri_mounted env st b))
                          (List.filter (is_enabled st) (_bookmarks st)))));
                   Lit " locations"] false)
      as (Hh' & _ & _ & _ & _ & _ & Hm' & _).
    cbn zeta in Hh', Hm'. rewrite Hh', Hm'. auto.
Qed.

Lemma notify_unmount_requests st ttl msg isError :
  unmount_requests (_notify st ttl msg isError) = unmount_requests st.
Proof.
  unfold _notify; simpl.
  destruct (show_notifications (settings st)),
    (show_error_notifications (settings st)),
    (show_success_notifications (settings st)), isError; reflexivity.
Qed.

(** [_unmountLocation] changes no bookmark; on a mounted URI whose unmount
    call does not throw it adds the request. *)
Lemma unmountLocation_heap env st b :
  heap (_unmountLocation env st b) = heap st.
Proof.
  unfold _unmountLocation.
  destruct (heap st !! b) as [bk |]; [| reflexivity].
  assert (heap (if createSymlink bk then (_removeSymlink env st bk).1 else st)
          = heap st) as Hr.
  { destruct (createSymlink bk); [| reflexivity].
    apply only_links_removeSymlink. }
  destruct (mount_table env !! uri bk) as [[root |] |]; [| | reflexivity].
  - destruct (bool_decide _); exact Hr.
  - rewrite <- Hr. apply notify_frame.
Qed.

Lemma unmountLocation_request env st b bk :
  heap st !! b = Some bk -> _isLocationMounted env (uri bk) = true ->
  uri bk ∉ unmount_throws env ->
  unmount_requests (_unmountLocation env st b) = unmount_requests st ++ [b].
Proof.
  intros Hb Hm Hthr. unfold _unmountLocation, _isLocationMounted in *.
  rewrite Hb. destruct (mount_table env !! uri bk) as [[root |] |];
    try discriminate.
  rewrite bool_decide_eq_false_2 by exact Hthr. cbn.
  destruct (createSymlink bk); [| reflexivity].
  f_equal. apply only_links_removeSymlink.
Qed.

Lemma unmount_fold env st0 (l : list positive) :
  forall st c,
    heap st = heap st0 ->
    heap (foldl (unmount_one env) (st, c) l).1 = heap st0
    /\ (foldl (unmount_one env) (st, c) l).2
       = (c + Z.of_nat (length (List.filter (uri_mounted env st0) l)))%Z
    /\ ((forall b bk, heap st0 !! b = Some bk ->
                      uri bk ∉ unmount_throws env) ->
        unmount_requests (foldl (unmount_one env) (st, c) l).1
        = unmount_requests st ++ List.filter (uri_mounted env st0) l).
Proof.
  induction l as [| b l IH]; intros st c Hh; cbn [foldl].
  - cbn. rewrite app_nil_r. split; [exact Hh |]. split; [lia | auto].
  - cbn [List.filter].
    assert (unmount_one env (st, c) b
            = if uri_mounted env st0 b
              then (_unmountLocation env st b, (c + 1)%Z)
              else (st, c)) as ->.
    { unfold unmount_one, uri_mounted. rewrite Hh.
      destruct (heap st0 !! b); reflexivity. }
    destruct (uri_mounted env st0 b) eqn:Hum; [| apply IH, Hh].
    unfold uri_mounted in Hum.
    destruct (heap st0 !! b) as [bk |] eqn:Hbk; [| discriminate].
    rename Hum into Hm.
    destruct (IH (_unmountLocation env st b) (c + 1)%Z) as (H1 & H2 & H3).
    { rewrite unmountLocation_heap. exact Hh. }
    split; [exact H1 |]. split; [rewrite H2; cbn [length]; lia |].
    intros Hthr. rewrite (H3 Hthr).
    rewrite (unmountLocation_request env st b bk) by
      (rewrite ?Hh; eauto).
    rewrite <- app_assoc. reflexivity.
Qed.

(** X16: Unmount All reports the number of listed bookmarks whose URI is
    mounted and changes no bookmark; when no unmount call throws at once,
    it asks for the unmount of exactly these, in the order of the list. *)
Theorem unmountAll_counts (env : Env) (st : State) :
  let st' := _unmountAll env st in
  let due := List.filter (uri_mounted env st) (_bookmarks st) in
  last (notify_calls st')
  = Some (mkNotification "Unmounting All"
            [Lit "Unmounting "; Num (Z.of_nat (length due));
             Lit " locations"] false)
  /\ heap st' = heap st
  /\ ((forall b bk, heap st !! b = Some bk ->
                    uri bk ∉ unmount_throws env) ->
      unmount_requests st' = unmount_requests st ++ due).
Proof.
  cbn zeta. unfold _unmountAll.
  destruct (unmount_fold env st (_bookmarks st) st 0%Z eq_refl)
    as (Hh & Hc & Hr).
  destruct (foldl _ _ _) as [st1 count]. cbn [fst snd] in Hh, Hc, Hr.
  subst count. split; [| split].
  - rewrite notify_calls_grow, last_snoc. reflexivity.
  - rewrite <- Hh. apply notify_frame.
  - intros Hthr. rewrite notify_unmount_requests. exact (Hr Hthr).
Qed.

Lemma check_one_counts env isStartup st0 st m t b :
  pass_ext st0 st ->
  (check_one env isStartup (st, (m, t)) b).2
  = ((m + if mounted_enabled env st0 b then 1 else 0)%Z,
     (t + if is_enabled st0 b then 1 else 0)%Z).
Proof.
  intros Hp.
  pose proof (pass_ext_enabled st0 st b Hp) as Hen.
  pose proof (pass_ext_mounted env st0 st b Hp) as Hm.
  unfold mounted_enabled. rewrite <- Hen, <- Hm.
  unfold check_one, is_enabled, uri_mounted.
  destruct (heap st !! b) as [bk |]; cbn [snd andb].
  - destruct (enabled bk); cbn [andb snd].
    + destruct (_isLocationMounted env (uri bk)); cbn [snd];
        f_equal; lia.
    + f_equal; lia.
  - f_equal; lia.
Qed.

Lemma check_fold_counts env isStartup st0 (l : list positive) :
  forall st m t,
    pass_ext st0 st ->
    (foldl (check_one env isStartup) (st, (m, t)) l).2
    = ((m + Z.of_nat (length (List.filter (mounted_enabled env st0) l)))%Z,
       (t + Z.of_nat (length (List.filter (is_enabled st0) l)))%Z).
Proof.
  induction l as [| b l IH]; intros st m t Hp; cbn [foldl List.filter].
  - cbn. f_equal; lia.
  - pose proof (check_one_counts env isStartup st0 st m t b Hp) as Hc.
    pose proof (pass_ext_check_one env isStartup st (m, t) b) as Hp1.
    destruct (check_one env isStartup (st, (m, t)) b) as [st1 [m1 t1]].
    cbn [fst snd] in Hc, Hp1. injection Hc as -> ->.
    rewrite (IH st1 _ _ (pass_ext_trans _ _ _ Hp Hp1)).
    destruct (mounted_enabled env st0 b), (is_enabled st0 b);
      cbn [length]; f_equal; lia.
Qed.

(** X17: a manual check does what an automatic one does and then sends
    one summary, whose two numbers are the number of enabled bookmarks of
    the reloaded list and the number of those that are mounted. *)
Theorem checkAndMountAll_counts
    (env : Env) (st : State) (isStartup : bool) :
  let st1 := _loadBookmarks env st in
  let total := length (List.filter (is_enabled st1) (_bookmarks st1)) in
  let mounted :=
    length (List.filter (mounted_enabled env st1) (_bookmarks st1)) in
  _checkAndMountAll env st true isStartup
  = _notify (_checkAndMountAll env st false isStartup) "Mount Check"
      [Lit "Checking "; Num (Z.of_nat total); Lit " locations, ";
       Num (Z.of_nat mounted); Lit " already mounted"] false.
Proof.
  cbn zeta. unfold _checkAndMountAll.
  pose proof (check_fold_counts env isStartup (_loadBookmarks env st)
                (_bookmarks (_loadBookmarks env st)) (_loadBookmarks env st)
                0%Z 0%Z (pass_ext_refl _)) as Hc.
  destruct (foldl _ _ _) as [st2 [mounted total]]. cbn [snd] in Hc.
  injection Hc as -> ->. reflexivity.
Qed.

(** ** From a successful mount to its symlink *)

(** X18: when a mount request succeeds for a bookmark with
    [createSymlink] on, the one-second timeout that the success callback
    arms makes the symlink once it fires, provided nothing stands in the
    way (the share is mounted at a non-empty path, the tracked path is the
    computed one, the path is free or holds a link whose target resolves,
    and nothing is refused).  Afterwards the path holds a link to the
    mount path and is tracked, the timeout is gone, the bookmark has
    [failCount] 0, and Mounted Successfully is sent with the name and the
    path of the link, unless the mount was a startup mount. *)
Theorem mount_success_makes_the_link
    (env : Env) (st : State) (b : positive) (bk : Bookmark) (g : jsstring)
    (isStartup : bool) :
  heap st !! b = Some bk ->
  createSymlink bk = true ->
  mount_table env !! uri bk = Some (QMount (Some g)) -> g <> [] ->
  located env st bk = _getSymlinkPath env st bk ->
  _getSymlinkPath env st bk ∉ deny env ->
  (is_Some (fs st !! path_get_dirname (_getSymlinkPath env st bk))
   \/ path_get_dirname (_getSymlinkPath env st bk) ∉ deny env) ->
  (fs st !! _getSymlinkPath env st bk = None
   \/ exists t, fs st !! _getSymlinkPath env st bk = Some (ESymlink t)
                /\ (t ∉ gone env)) ->
  let st' := fire env (mount_finished env st b isStartup None)
               (fresh (dom (sources st))) in
  fs st' !! _getSymlinkPath env st bk = Some (ESymlink g)
  /\ _symlinkPaths st' !! uri bk = Some (_getSymlinkPath env st bk)
  /\ sources st' = sources st
  /\ heap st' !! b = Some (succeeded (now env) bk)
  /\ notify_calls st'
     = notify_calls st
       ++ (if isStartup then []
           else [mkNotification "Mounted Successfully"
                   [Str (name bk); Lit " → ";
                    Str (_getSymlinkPath env st bk)] false]).
Proof.
  intros Hb Hcs Hm Hg Hloc Hdeny Hdir Hfree. cbn zeta.
  unfold mount_finished. rewrite Hb. unfold timeout_add_seconds. cbn zeta.
  pose proof (fresh_source_unused st) as Hfresh.
  change (sources (set_mountedLocations _ _)) with (sources st).
  set (id := fresh (dom (sources st))) in *.
  set (bk1 := succeeded (now env) bk).
  set (st1 := set_timeoutIds _ _).
  assert (sources st1 = <[id := mkSource 1 (CbSymlink b isStartup)]>
                          (sources st)) as Hs1 by reflexivity.
  assert (heap st1 !! b = Some bk1) as Hb1 by apply lookup_insert_eq.
  unfold fire. rewrite Hs1, lookup_insert_eq.
  cbn [callback run_callback]. rewrite Hb1.
  destruct (link_made env st1 bk1 g Hcs Hm Hg Hloc Hdeny Hdir Hfree)
    as (Hret & Hlink & Hrec & _).
  pose proof (only_links_createSymlink env st1 bk1)
    as (Hh & _ & _ & _ & _ & _ & Hset & Hsrc & _ & _ & Hn & _).
  change (_getSymlinkPath env st1 bk1) with (_getSymlinkPath env st bk)
    in Hlink, Hrec.
  change (uri bk1) with (uri bk) in Hrec.
  destruct (_createSymlink env st1 bk1) as [st2 created].
  cbn [fst snd] in *. subst created.
  assert (mounted_message env st2 bk1 true
          = [Str (name bk); Lit " → "; Str (_getSymlinkPath env st bk)])
    as Hmsg.
  { unfold mounted_message. change (createSymlink bk1) with (createSymlink bk).
    rewrite Hcs. cbn [andb]. unfold _getSymlinkPath, base_path.
    rewrite Hset. reflexivity. }
  rewrite Hmsg.
  destruct isStartup; cbn [negb].
  - cbn. rewrite Hsrc, Hs1, delete_insert_id by exact Hfresh.
    rewrite Hh, Hn, app_nil_r. auto.
  - pose proof (notify_frame st2 "Mounted Successfully"
                  [Str (name bk); Lit " → ";
                   Str (_getSymlinkPath env st bk)] false)
      as (Hh' & Hsrc' & _ & _ & Hfs' & Hsym' & _).
    cbn zeta in Hh', Hsrc', Hfs', Hsym'. cbn.
    rewrite Hfs', Hsym', Hsrc', Hh', notify_calls_grow.
    rewrite Hsrc, Hs1, delete_insert_id by exact Hfresh.
    rewrite Hh, Hn. auto.
Qed.

Lemma mount_success_makes_the_link_witness :
  fs (fire mounted_env
        (mount_finished mounted_env
           (set_heap (fun _ => {[1%positive := share_with_link]})
              one_bookmark) 1 false None)
        (fresh (dom (sources one_bookmark)))) !! home_link
  = Some (ESymlink gvfs_path).
Proof.
  refine (proj1 (mount_success_makes_the_link mounted_env
                   (set_heap (fun _ => {[1%positive := share_with_link]})
                      one_bookmark)
                   1 share_with_link gvfs_path false eq_refl eq_refl eq_refl
                   _ eq_refl _ _ _)).
  - discriminate.
  - vm_compute. set_solver.
  - right. vm_compute. set_solver.
  - left. reflexivity.
Defined.

(** ** Reloading the bookmarks *)

Lemma alloc_all_fresh (bks : list Bookmark) :
  forall st,
    Forall2 (fun r bk => heap (alloc_all st bks).1 !! r = Some bk
                         /\ heap st !! r = None)
      (alloc_all st bks).2 bks
    /\ NoDup (alloc_all st bks).2
    /\ (forall x bk, heap st !! x = Some bk ->
                     heap (alloc_all st bks).1 !! x = Some bk)
    /\ (forall x, heap (alloc_all st bks).1 !! x = None -> heap st !! x = None).
Proof.
  induction bks as [| bk bks IH]; intros st; cbn [alloc_all].
  - cbn. split; [constructor |]. split; [constructor | auto].
  - unfold alloc.
    set (r := fresh (dom (heap st))).
    assert (heap st !! r = None) as Hr by apply not_elem_of_dom, is_fresh.
    destruct (IH (set_heap (insert r bk) st)) as (Hall & Hnd & Hkeep & Hnone).
    destruct (alloc_all (set_heap (insert r bk) st) bks) as [st2 rs].
    cbn [fst snd] in *.
    assert (heap st2 !! r = Some bk) as Hr2
      by (apply Hkeep; cbn; apply lookup_insert_eq).
    split; [| split; [| split]].
    + constructor; [auto |].
      eapply Forall2_impl; [exact Hall |]. cbn.
      intros x xk [Hx Hfresh]. split; [exact Hx |].
      destruct (decide (r = x)) as [<- | Hne].
      * rewrite lookup_insert_eq in Hfresh. discriminate.
      * rewrite lookup_insert_ne in Hfresh by exact Hne. exact Hfresh.
    + apply NoDup_cons. split; [| exact Hnd].
      intros Hin. apply list_elem_of_lookup in Hin as [i Hi].
      destruct (Forall2_lookup_l _ _ _ _ _ Hall Hi) as (xk & _ & _ & Hfresh).
      cbn in Hfresh. rewrite lookup_insert_eq in Hfresh. discriminate.
    + intros x xk Hx. apply Hkeep. cbn.
      rewrite lookup_insert_ne; [exact Hx | congruence].
    + intros x Hx. specialize (Hnone x Hx). cbn in Hnone.
      destruct (decide (r = x)) as [<- | Hne].
      * rewrite lookup_insert_eq in Hnone. discriminate.
      * rewrite lookup_insert_ne in Hnone by exact Hne. exact Hnone.
Qed.

(** What [_loadBookmarkSettings] does to one object, whatever the
    persisted string is. *)
Lemma loadBookmarkSettings_object st b bk :
  heap st !! b = Some bk ->
  exists bk',
    heap (_loadBookmarkSettings st) !! b = Some bk'
    /\ uri bk' = uri bk /\ name bk' = name bk
    /\ failCount bk' = failCount bk /\ lastAttempt bk' = lastAttempt bk
    /\ (b ∉ _bookmarks st -> bk' = bk).
Proof.
  intros Hb. unfold _loadBookmarkSettings.
  destruct (bookmark_settings (settings st)) as [| | o];
    try (exists bk; repeat split; auto; fail).
  destruct (load_fold_applies o (_bookmarks st) st b bk bk Hb eq_refl
              (or_introl eq_refl))
    as (bk' & Hb' & Hu' & Hout & Hrel & _).
  exists bk'. split; [exact Hb' |]. split; [exact Hu' |].
  assert (name bk' = name bk /\ failCount bk' = failCount bk
          /\ lastAttempt bk' = lastAttempt bk) as (Hn & Hf & Hl)
    by (destruct Hrel as [-> | (e & _ & ->)]; repeat split).
  auto.
Qed.

Lemma loadBookmarkSettings_bookmarks st :
  _bookmarks (_loadBookmarkSettings st) = _bookmarks st.
Proof.
  unfold _loadBookmarkSettings.
  destruct (bookmark_settings (settings st)) as [| | o]; try reflexivity.
  generalize (_bookmarks st) at 1. intros l. revert st.
  induction l as [| b l IH]; intros st; [reflexivity |].
  cbn [foldl]. rewrite IH. unfold load_one. repeat case_match; reflexivity.
Qed.

Lemma parsed_counts_start_at_zero env contents :
  Forall (fun pb => failCount pb = 0%Z /\ lastAttempt pb = 0%Z)
    (parse_bookmarks env contents).
Proof.
  unfold parse_bookmarks. apply Forall_map, Forall_forall.
  intros line _. unfold parse_line.
  destruct (split 32 (trim line)); split; reflexivity.
Qed.

Lemma Forall2_with_right {A B} (P R : A -> B -> Prop) (Q : B -> Prop)
    (l : list A) (k : list B) :
  (forall x y, P x y -> Q y -> R x y) ->
  Forall2 P l k -> Forall Q k -> Forall2 R l k.
Proof.
  intros Himp H. induction H as [| x y l k Hxy _ IH]; intros Hq.
  - constructor.
  - apply Forall_cons in Hq as [Hy Hk]. constructor; auto.
Qed.

(** X19: when the bookmark file is read, [_loadBookmarks] lists new
    bookmark objects, one per kept line and in the order of the file: each
    is an object that did not exist before, with the URI and the name of
    its line and with [failCount] and [lastAttempt] 0, and no object is
    listed twice.  The objects that existed before are left as they were
    (a pending retry still holds one of them). *)
Theorem reload_lists_new_bookmarks
    (env : Env) (st : State) (contents : jsstring) :
  bookmarks_file env = FileContents contents ->
  let st' := _loadBookmarks env st in
  Forall2 (fun b pb =>
             heap st !! b = None
             /\ exists bk,
                 heap st' !! b = Some bk
                 /\ uri bk = uri pb /\ name bk = name pb
                 /\ failCount bk = 0%Z /\ lastAttempt bk = 0%Z)
    (_bookmarks st') (parse_bookmarks env contents)
  /\ NoDup (_bookmarks st')
  /\ (forall x bk, heap st !! x = Some bk -> heap st' !! x = Some bk).
Proof.
  intros Hfile. cbn zeta. unfold _loadBookmarks. rewrite Hfile.
  destruct (alloc_all_fresh (parse_bookmarks env contents) st)
    as (Hall & Hnd & Hkeep & _).
  destruct (alloc_all st (parse_bookmarks env contents)) as [st1 rs].
  cbn [fst snd] in Hall, Hnd, Hkeep.
  set (st2 := set_bookmarks (fun _ => rs) st1).
  pose proof (only_links_updateBookmarksList env (_loadBookmarkSettings st2))
    as (Hh & Hbm & _).
  rewrite Hh, Hbm, loadBookmarkSettings_bookmarks.
  change (_bookmarks st2) with rs.
  split; [| split; [exact Hnd |]].
  - eapply Forall2_with_right;
      [| exact Hall | apply parsed_counts_start_at_zero].
    cbn. intros b pb [Hb Hfresh] [Hf Hl]. split; [exact Hfresh |].
    destruct (loadBookmarkSettings_object st2 b pb Hb)
      as (bk' & Hb' & Hu' & Hn' & Hf' & Hl' & _).
    exists bk'. split; [exact Hb' |]. repeat split; congruence.
  - intros x bk Hx.
    destruct (loadBookmarkSettings_object st2 x bk (Hkeep x bk Hx))
      as (bk' & Hb' & _ & _ & _ & _ & Hout).
    rewrite Hb'. f_equal. apply Hout. cbn.
    intros Hin. apply list_elem_of_lookup in Hin as [i Hi].
    destruct (Forall2_lookup_l _ _ _ _ _ Hall Hi) as (xk & _ & _ & Hfresh).
    congruence.
Qed.

Lemma reload_lists_new_bookmarks_witness :
  NoDup (_bookmarks (_loadBookmarks quiet_env after_one_failure)).
Proof.
  exact (proj1 (proj2 (reload_lists_new_bookmarks quiet_env after_one_failure
                         (js "smb://server/share Share") eq_refl))).
Defined.

(** ** Unmounting *)

Lemma notify_mountedLocations st ttl msg isError :
  _mountedLocations (_notify st ttl msg isError) = _mountedLocations st.
Proof.
  unfold _notify; simpl.
  destruct (show_notifications (settings st)),
    (show_error_notifications (settings st)),
    (show_success_notifications (settings st)), isError; reflexivity.
Qed.

(** Removing a link that is there, resolves and may be deleted. *)
Lemma removeSymlink_live env st bk t :
  fs st !! located env st bk = Some (ESymlink t) ->
  t ∉ gone env -> located env st bk ∉ deny env ->
  _removeSymlink env st bk
  = (set_symlinkPaths (delete (uri bk))
       (log "Removed symlink:"
          (set_fs (fun _ => delete (located env st bk) (fs st)) st)), true).
Proof.
  intros Hp Hg Hd.
  unfold _removeSymlink, query_exists, get_is_symlink, file_delete.
  rewrite Hp. fs_simpl. reflexivity.
Qed.

(** X20: unmounting a mounted bookmark with [createSymlink] on deletes
    its symlink and forgets the record before the unmount is asked for;
    when the unmount then fails, the link is not put back and the location
    stays recorded as mounted, and Unmount Failed is sent as an error;
    when it succeeds, the record of the mount is dropped and Unmounted is
    sent. *)
Theorem unmount_removes_the_link_first
    (env : Env) (st : State) (b : positive) (bk : Bookmark)
    (t errorMsg : jsstring) :
  heap st !! b = Some bk -> createSymlink bk = true ->
  _isLocationMounted env (uri bk) = true ->
  uri bk ∉ unmount_throws env ->
  fs st !! located env st bk = Some (ESymlink t) ->
  t ∉ gone env -> located env st bk ∉ deny env ->
  let st1 := _unmountLocation env st b in
  let failure := unmount_finished st1 b (Some errorMsg) in
  let success := unmount_finished st1 b None in
  unmount_requests st1 = unmount_requests st ++ [b]
  /\ fs st1 = delete (located env st bk) (fs st)
  /\ _symlinkPaths st1 = delete (uri bk) (_symlinkPaths st)
  /\ (fs failure = fs st1 /\ _symlinkPaths failure = _symlinkPaths st1
      /\ _mountedLocations failure = _mountedLocations st
      /\ last (notify_calls failure)
         = Some (mkNotification "Unmount Failed"
                   (failure_message bk errorMsg) true))
  /\ (fs success = fs st1
      /\ _mountedLocations success = delete (uri bk) (_mountedLocations st)
      /\ last (notify_calls success)
         = Some (mkNotification "Unmounted" [Str (name bk)] false)).
Proof.
  intros Hb Hcs Hm Hthr Hp Hg Hd. cbn zeta.
  assert (_unmountLocation env st b
          = set_unmount_requests (fun l => l ++ [b])
              (set_symlinkPaths (delete (uri bk))
                 (log "Removed symlink:"
                    (set_fs (fun _ => delete (located env st bk) (fs st))
                       st)))) as ->.
  { unfold _unmountLocation, _isLocationMounted in *. rewrite Hb.
    destruct (mount_table env !! uri bk) as [[root |] |]; try discriminate.
    rewrite Hcs, (removeSymlink_live env st bk t Hp Hg Hd).
    rewrite bool_decide_eq_false_2 by exact Hthr. reflexivity. }
  set (st1 := set_unmount_requests _ _).
  assert (heap st1 !! b = Some bk) as Hb1 by exact Hb.
  do 3 (split; [reflexivity |]).
  unfold unmount_finished. rewrite Hb1. split.
  - match goal with
    | |- context [_notify ?s ?ttl ?msg ?e] =>
        pose proof (notify_frame s ttl msg e)
          as (_ & _ & _ & _ & Hfs & Hsym & _);
        rewrite (notify_mountedLocations s ttl msg e),
          (notify_calls_grow s ttl msg e)
    end.
    cbn zeta in Hfs, Hsym. rewrite Hfs, Hsym, last_snoc. auto.
  - match goal with
    | |- context [_notify ?s ?ttl ?msg ?e] =>
        pose proof (notify_frame s ttl msg e)
          as (_ & _ & _ & _ & Hfs & _);
        rewrite (notify_mountedLocations s ttl msg e),
          (notify_calls_grow s ttl msg e)
    end.
    cbn zeta in Hfs. rewrite Hfs, last_snoc. auto.
Qed.

Lemma unmount_removes_the_link_first_witness :
  fs (_unmountLocation mounted_env share_linked 1) !! home_link = None.
Proof.
  assert (heap share_linked !! 1%positive = Some share_with_link) as Hb
    by (vm_compute; reflexivity).
  assert (fs share_linked !! located mounted_env share_linked share_with_link
          = Some (ESymlink gvfs_path)) as Hp by (vm_compute; reflexivity).
  assert (located mounted_env share_linked share_with_link = home_link)
    as Hloc by (vm_compute; reflexivity).
  destruct (unmount_removes_the_link_first mounted_env share_linked 1
              share_with_link gvfs_path [] Hb eq_refl eq_refl
              ltac:(vm_compute; set_solver) Hp
              ltac:(vm_compute; set_solver) ltac:(vm_compute; set_solver))
    as (_ & Hfs & _).
  rewrite Hfs, Hloc. apply lookup_delete_eq.
Defined.

(** ** Timeouts that fire *)

(** X21: a one-shot timeout (startup check, startup status, symlink,
    retry) is gone from the main loop and from [_timeoutIds] once it has
    fired; the periodic check stays armed under the same id. *)
Theorem timeouts_fire_once_periodic_stays
    (env : Env) (st : State) (id : positive) (src : Source) :
  sources st !! id = Some src ->
  (callback src <> CbPeriodic ->
   sources (fire env st id) !! id = None
   /\ id ∉ _timeoutIds (fire env st id))
  /\ (callback src = CbPeriodic ->
      sources (fire env st id) !! id = Some src).
Proof.
  intros Hs. unfold fire. rewrite Hs.
  assert (forall X,
            sources (source_remove id
                       (set_timeoutIds (fun ids => ids ∖ {[id]}) X)) !! id
            = None
            /\ id ∉ _timeoutIds
                      (source_remove id
                         (set_timeoutIds (fun ids => ids ∖ {[id]}) X)))
    as Hdone.
  { intros X. split; [apply lookup_delete_eq |]. cbn.
    intros Hin. apply elem_of_difference in Hin as [_ Hne].
    apply Hne, elem_of_singleton. reflexivity. }
  split.
  - intros Hcb. unfold run_callback.
    destruct (callback src) as [| | b' isStartup | b' |];
      try apply Hdone; try congruence.
    + destruct (heap st !! b'); [| apply Hdone].
      destruct (_createSymlink env st _). apply Hdone.
    + destruct (heap st !! b'); apply Hdone.
  - intros Hcb. rewrite Hcb. cbn [run_callback].
    apply (arms_checkAndMountAll env st st false false (arms_refl st)).
    exact Hs.
Qed.

Lemma timeouts_fire_once_witness :
  sources (fire quiet_env after_one_failure 1) !! 1%positive = None.
Proof.
  assert (sources after_one_failure !! 1%positive
          = Some (mkSource 30 (CbRetry 1))) as Hs by (vm_compute; reflexivity).
  destruct (timeouts_fire_once_periodic_stays quiet_env after_one_failure 1
              _ Hs) as [Hone _].
  apply Hone. discriminate.
Defined.

(** ** The status icon *)

Lemma filter_length_le {A} (p q : A -> bool) (l : list A) :
  (forall x, x ∈ l -> p x = true -> q x = true) ->
  (length (List.filter p l) <= length (List.filter q l))%nat.
Proof.
  induction l as [| x l IH]; intros H; [reflexivity |]. cbn.
  assert (length (List.filter p l) <= length (List.filter q l))%nat as Hl
    by (apply IH; intros y Hy; apply H, list_elem_of_further, Hy).
  pose proof (H x (list_elem_of_here _ _)) as Hx.
  destruct (p x), (q x); cbn [length]; try lia.
Qed.

Lemma filter_none {A} (p : A -> bool) (l : list A) :
  (forall x, x ∈ l -> p x = false) -> List.filter p l = [].
Proof.
  induction l as [| x l IH]; intros H; [reflexivity |]. cbn.
  rewrite (H x (list_elem_of_here _ _)).
  apply IH. intros y Hy. apply H, list_elem_of_further, Hy.
Qed.

(** X22: the panel icon of [_updateStatus].  With bookmarks listed and
    every enabled one mounted, the icon is folder-remote-symbolic and the
    success class is added.  With an enabled bookmark listed and none
    mounted, the icon name is folder-visting-symbolic (spelt so in the
    source) and no class is added.  With an empty list the icon is
    folder-remote-symbolic without the class. *)
Theorem updateStatus_icon (env : Env) (st : State) :
  (_bookmarks st <> [] ->
   (forall b, b ∈ _bookmarks st -> is_enabled st b = true ->
              uri_mounted env st b = true) ->
   icon_name (_updateStatus env st) = "folder-remote-symbolic"%string
   /\ adds_success (_updateStatus env st) = true)
  /\ ((exists b, b ∈ _bookmarks st /\ is_enabled st b = true) ->
      (forall b, b ∈ _bookmarks st -> uri_mounted env st b = false) ->
      icon_name (_updateStatus env st) = "folder-visting-symbolic"%string
      /\ adds_success (_updateStatus env st) = false)
  /\ (_bookmarks st = [] ->
      icon_name (_updateStatus env st) = "folder-remote-symbolic"%string
      /\ adds_success (_updateStatus env st) = false).
Proof.
  unfold _updateStatus. split; [| split].
  - intros Hne Hall.
    pose proof (filter_length_le (is_enabled st) (uri_mounted env st)
                  (_bookmarks st) Hall) as Hle.
    assert ((length (_bookmarks st) =? 0)%nat = false) as ->
      by (destruct (_bookmarks st); [congruence | reflexivity]).
    apply Nat.leb_le in Hle. rewrite Hle. auto.
  - intros (b & Hin & Hen) Hnone.
    rewrite (filter_none (uri_mounted env st) (_bookmarks st) Hnone).
    cbn [length].
    assert (0 < length (List.filter (is_enabled st) (_bookmarks st)))%nat
      as Hpos.
    { assert (In b (List.filter (is_enabled st) (_bookmarks st))) as Hb.
      { apply List.filter_In. split; [| exact Hen].
        apply list_elem_of_In. exact Hin. }
      destruct (List.filter _ _); [destruct Hb | cbn; lia]. }
    assert ((length (_bookmarks st) =? 0)%nat = false) as ->
      by (destruct (_bookmarks st); [inversion Hin | reflexivity]).
    destruct (Nat.leb_spec (length (List.filter (is_enabled st)
                                      (_bookmarks st))) 0); [lia |].
    cbn. auto.
  - intros ->. cbn. auto.
Qed.

(** ** What is asked of Gio, and of which bookmark *)

Lemma asks_refl env st : asks_right env st st.
Proof.
  split; [eauto |].
  split; exists []; rewrite app_nil_r; split; (reflexivity || constructor).
Qed.

Lemma asks_trans env s0 s1 s2 :
  asks_right env s0 s1 -> asks_right env s1 s2 -> asks_right env s0 s2.
Proof.
  intros (Hh1 & (l1 & Hm1 & Hf1) & (k1 & Hu1 & Hg1))
         (Hh2 & (l2 & Hm2 & Hf2) & (k2 & Hu2 & Hg2)).
  split; [| split].
  - intros b bk Hb. destruct (Hh1 b bk Hb) as (bk1 & Hb1 & Hu & Hn).
    destruct (Hh2 b bk1 Hb1) as (bk2 & Hb2 & Hu' & Hn').
    exists bk2. split; [exact Hb2 | split; congruence].
  - exists (l1 ++ l2). rewrite Hm2, Hm1, app_assoc. split; [reflexivity |].
    apply Forall_app. split; [| exact Hf2].
    eapply Forall_impl; [exact Hf1 |]. cbn.
    intros r (bk & Hb & Hm). destruct (Hh2 _ bk Hb) as (bk2 & Hb2 & Hu & _).
    exists bk2. split; [exact Hb2 | congruence].
  - exists (k1 ++ k2). rewrite Hu2, Hu1, app_assoc. split; [reflexivity |].
    apply Forall_app. split; [| exact Hg2].
    eapply Forall_impl; [exact Hg1 |]. cbn.
    intros r (bk & Hb & Hm). destruct (Hh2 _ bk Hb) as (bk2 & Hb2 & Hu & _).
    exists bk2. split; [exact Hb2 | congruence].
Qed.

Lemma asks_same env s0 st st' :
  heap st' = heap st -> mount_requests st' = mount_requests st ->
  unmount_requests st' = unmount_requests st ->
  asks_right env s0 st -> asks_right env s0 st'.
Proof. unfold asks_right. intros -> -> ->. auto. Qed.

Ltac asks_same :=
  intros H; exact (asks_same _ _ _ _ eq_refl eq_refl eq_refl H).

Lemma asks_log env s0 st m :
  asks_right env s0 st -> asks_right env s0 (log m st).
Proof. asks_same. Qed.
Lemma asks_set_bookmarks env s0 st f :
  asks_right env s0 st -> asks_right env s0 (set_bookmarks f st).
Proof. asks_same. Qed.
Lemma asks_set_mountedLocations env s0 st f :
  asks_right env s0 st -> asks_right env s0 (set_mountedLocations f st).
Proof. asks_same. Qed.
Lemma asks_set_symlinkPaths env s0 st f :
  asks_right env s0 st -> asks_right env s0 (set_symlinkPaths f st).
Proof. asks_same. Qed.
Lemma asks_set_timeoutId env s0 st f :
  asks_right env s0 st -> asks_right env s0 (set_timeoutId f st).
Proof. asks_same. Qed.
Lemma asks_set_timeoutIds env s0 st f :
  asks_right env s0 st -> asks_right env s0 (set_timeoutIds f st).
Proof. asks_same. Qed.
Lemma asks_set_startup env s0 st f :
  asks_right env s0 st -> asks_right env s0 (set_startupMountInProgress f st).
Proof. asks_same. Qed.
Lemma asks_set_fs env s0 st f :
  asks_right env s0 st -> asks_right env s0 (set_fs f st).
Proof. asks_same. Qed.
Lemma asks_set_sources env s0 st f :
  asks_right env s0 st -> asks_right env s0 (set_sources f st).
Proof. asks_same. Qed.
Lemma asks_source_remove env s0 st id :
  asks_right env s0 st -> asks_right env s0 (source_remove id st).
Proof. asks_same. Qed.
Lemma asks_save env s0 st :
  asks_right env s0 st -> asks_right env s0 (_saveBookmarkSettings st).
Proof. asks_same. Qed.
Lemma asks_scheduleRetry env s0 st b d :
  asks_right env s0 st -> asks_right env s0 (_scheduleRetry st b d).
Proof. asks_same. Qed.
Lemma asks_notify env s0 st ttl msg isError :
  asks_right env s0 st -> asks_right env s0 (_notify st ttl msg isError).
Proof.
  apply asks_same;
    [apply notify_frame | apply notify_frame | apply notify_unmount_requests].
Qed.
Lemma asks_createSymlink env s0 st bk :
  asks_right env s0 st -> asks_right env s0 (_createSymlink env st bk).1.
Proof. apply asks_same; apply only_links_createSymlink. Qed.
Lemma asks_removeSymlink env s0 st bk :
  asks_right env s0 st -> asks_right env s0 (_removeSymlink env st bk).1.
Proof. apply asks_same; apply only_links_removeSymlink. Qed.

(** Rewriting an object in place, with the same URI and name. *)
Lemma asks_update env s0 st b bk bk' :
  heap st !! b = Some bk -> uri bk' = uri bk -> name bk' = name bk ->
  asks_right env s0 st -> asks_right env s0 (set_heap (insert b bk') st).
Proof.
  intros Hb Hu Hn H. eapply asks_trans; [exact H |].
  assert (forall x xk, heap st !! x = Some xk ->
            exists xk', <[b := bk']> (heap st) !! x = Some xk'
                        /\ uri xk' = uri xk /\ name xk' = name xk) as Hkeep.
  { intros x xk Hx. destruct (decide (b = x)) as [<- | Hne].
    - exists bk'. rewrite lookup_insert_eq. split; [reflexivity |].
      split; congruence.
    - exists xk. rewrite lookup_insert_ne by exact Hne. auto. }
  split; [exact Hkeep |].
  split; exists []; cbn; rewrite app_nil_r; split; (reflexivity || constructor).
Qed.

(** A new object. *)
Lemma asks_alloc env s0 st bk :
  asks_right env s0 st ->
  asks_right env s0 (set_heap (insert (fresh (dom (heap st))) bk) st).
Proof.
  intros H. eapply asks_trans; [exact H |].
  assert (heap st !! fresh (dom (heap st)) = None) as Hfresh
    by apply not_elem_of_dom, is_fresh.
  split; [| split; exists []; cbn; rewrite app_nil_r; split;
                   (reflexivity || constructor)].
  intros x xk Hx. exists xk. cbn.
  rewrite lookup_insert_ne by congruence. auto.
Qed.

(** The switch. *)
Lemma asks_alter env s0 st b (f : Bookmark -> Bookmark) :
  (forall bk, uri (f bk) = uri bk /\ name (f bk) = name bk) ->
  asks_right env s0 st -> asks_right env s0 (set_heap (alter f b) st).
Proof.
  intros Hf H. eapply asks_trans; [exact H |].
  split; [| split; exists []; cbn; rewrite app_nil_r; split;
                   (reflexivity || constructor)].
  intros x xk Hx. cbn. destruct (decide (b = x)) as [<- | Hne].
  - exists (f xk). rewrite lookup_alter_eq, Hx. split; [reflexivity |].
    apply Hf.
  - exists xk. rewrite lookup_alter_ne by exact Hne. auto.
Qed.

Lemma asks_mount_request env s0 st b bk isStartup :
  heap st !! b = Some bk -> _isLocationMounted env (uri bk) = false ->
  asks_right env s0 st ->
  asks_right env s0 (set_mount_requests (fun l => l ++ [(b, isStartup)]) st).
Proof.
  intros Hb Hm H. eapply asks_trans; [exact H |].
  split; [eauto |]. split.
  - exists [(b, isStartup)]. split; [reflexivity |].
    constructor; [| constructor]. exists bk. auto.
  - exists []. cbn. rewrite app_nil_r. split; [reflexivity | constructor].
Qed.

Lemma asks_unmount_request env s0 st b bk :
  heap st !! b = Some bk -> _isLocationMounted env (uri bk) = true ->
  asks_right env s0 st ->
  asks_right env s0 (set_unmount_requests (fun l => l ++ [b]) st).
Proof.
  intros Hb Hm H. eapply asks_trans; [exact H |].
  split; [eauto |]. split.
  - exists []. cbn. rewrite app_nil_r. split; [reflexivity | constructor].
  - exists [b]. split; [reflexivity |].
    constructor; [| constructor]. exists bk. auto.
Qed.

Create HintDb asks.
#[local] Hint Resolve asks_refl asks_log asks_set_bookmarks
  asks_set_mountedLocations asks_set_symlinkPaths asks_set_timeoutId
  asks_set_timeoutIds asks_set_startup asks_set_fs asks_set_sources
  asks_source_remove asks_save asks_scheduleRetry asks_notify
  asks_createSymlink asks_removeSymlink asks_alloc : asks.

Ltac asks := repeat case_match; simplify_eq; simpl; auto 20 with asks.

Lemma asks_foldl {A} env (f : State -> A -> State) s0 (l : list A) :
  (forall st x, asks_right env s0 st -> asks_right env s0 (f st x)) ->
  forall st, asks_right env s0 st -> asks_right env s0 (foldl f st l).
Proof.
  intros Hf. induction l as [| x l IH]; intros st H; simpl; [exact H |].
  apply IH, Hf, H.
Qed.

Lemma asks_foldl_fst {A B} env (f : State * B -> A -> State * B) s0
    (l : list A) :
  (forall acc x, asks_right env s0 acc.1 -> asks_right env s0 (f acc x).1) ->
  forall acc, asks_right env s0 acc.1 -> asks_right env s0 (foldl f acc l).1.
Proof.
  intros Hf. induction l as [| x l IH]; intros acc H; simpl; [exact H |].
  apply IH, Hf, H.
Qed.

Lemma asks_load_one env s0 o st b :
  asks_right env s0 st -> asks_right env s0 (load_one o st b).
Proof.
  intros H. unfold load_one.
  destruct (heap st !! b) as [bk |] eqn:Hb; [| exact H].
  destruct (o !! uri bk) as [e |]; [| exact H].
  exact (asks_update env s0 st b bk (apply_entry e bk) Hb eq_refl eq_refl H).
Qed.

Lemma asks_loadBookmarkSettings env s0 st :
  asks_right env s0 st -> asks_right env s0 (_loadBookmarkSettings st).
Proof.
  intros H. unfold _loadBookmarkSettings.
  destruct (bookmark_settings (settings st)) as [| | o]; auto with asks.
  apply asks_foldl; [| exact H]. intros st' b. apply asks_load_one.
Qed.

Lemma asks_updateBookmarksList env s0 st :
  asks_right env s0 st -> asks_right env s0 (_updateBookmarksList env st).
Proof.
  intros H. unfold _updateBookmarksList.
  apply asks_foldl; [| exact H].
  intros st' b H'. unfold refresh_one. asks.
Qed.

Lemma asks_alloc_all env s0 bks :
  forall st, asks_right env s0 st -> asks_right env s0 (alloc_all st bks).1.
Proof.
  induction bks as [| bk bks IH]; intros st H; simpl; [exact H |].
  specialize (IH (set_heap (insert (fresh (dom (heap st))) bk) st)).
  destruct (alloc_all _ bks) as [st2 rs]. simpl in *. auto with asks.
Qed.

#[local] Hint Resolve asks_loadBookmarkSettings asks_updateBookmarksList
  : asks.

Lemma asks_loadBookmarks env s0 st :
  asks_right env s0 st -> asks_right env s0 (_loadBookmarks env st).
Proof.
  intros H. unfold _loadBookmarks.
  destruct (bookmarks_file env) as [| | | c]; auto 10 with asks.
  pose proof (asks_alloc_all env s0 (parse_bookmarks env c) st H) as Ha.
  destruct (alloc_all st (parse_bookmarks env c)) as [st1 rs].
  simpl in Ha. auto 10 with asks.
Qed.

#[local] Hint Resolve asks_loadBookmarks : asks.

Lemma asks_handleMountFailure env s0 st b msg :
  asks_right env s0 st -> asks_right env s0 (_handleMountFailure env st b msg).
Proof.
  intros H. unfold _handleMountFailure.
  destruct (heap st !! b) as [bk |] eqn:Hb; [| exact H].
  pose proof (asks_update env s0 st b bk (failed (now env) bk) Hb
                eq_refl eq_refl H) as H1.
  cbn zeta. destruct (_ <=? _)%Z; auto with asks.
Qed.

#[local] Hint Resolve asks_handleMountFailure : asks.

Lemma asks_mountLocation env s0 st b isRetry isStartup :
  asks_right env s0 st ->
  asks_right env s0 (_mountLocation env st b isRetry isStartup).
Proof.
  intros H. unfold _mountLocation.
  destruct (heap st !! b) as [bk |] eqn:Hb; [| exact H].
  destruct (_isLocationMounted env (uri bk)) eqn:Hm.
  - destruct (_ && _); auto with asks.
  - destruct (mount_throws env !! uri bk); [auto with asks |].
    exact (asks_mount_request env s0 st b bk isStartup Hb Hm H).
Qed.

Lemma asks_mount_finished env s0 st b isStartup result :
  asks_right env s0 st ->
  asks_right env s0 (mount_finished env st b isStartup result).
Proof.
  intros H. unfold mount_finished.
  destruct result as [msg |]; [auto with asks |].
  destruct (heap st !! b) as [bk |] eqn:Hb; [| exact H].
  unfold timeout_add_seconds. cbn zeta.
  apply asks_set_timeoutIds, asks_set_sources, asks_set_mountedLocations.
  apply (asks_update env s0 (log "Successfully mounted:" st) b bk);
    auto with asks.
Qed.

Lemma asks_unmountLocation env s0 st b :
  asks_right env s0 st -> asks_right env s0 (_unmountLocation env st b).
Proof.
  intros H. unfold _unmountLocation.
  destruct (heap st !! b) as [bk |] eqn:Hb; [| exact H].
  destruct (mount_table env !! uri bk) as [[root |] |] eqn:Hm;
    [| destruct (createSymlink bk); auto with asks | auto with asks].
  assert (_isLocationMounted env (uri bk) = true) as Hmounted
    by (unfold _isLocationMounted; rewrite Hm; reflexivity).
  destruct (bool_decide _); [destruct (createSymlink bk); auto with asks |].
  destruct (createSymlink bk).
  - apply (asks_unmount_request env s0 _ b bk); [| exact Hmounted |
                                                  auto with asks].
    rewrite <- Hb. f_equal. apply only_links_removeSymlink.
  - exact (asks_unmount_request env s0 st b bk Hb Hmounted H).
Qed.

Lemma asks_unmount_finished env s0 st b result :
  asks_right env s0 st -> asks_right env s0 (unmount_finished st b result).
Proof. intros H. unfold unmount_finished. asks. Qed.

#[local] Hint Resolve asks_mountLocation asks_mount_finished
  asks_unmountLocation asks_unmount_finished : asks.

Lemma asks_checkAndMountAll env s0 st manual isStartup :
  asks_right env s0 st ->
  asks_right env s0 (_checkAndMountAll env st manual isStartup).
Proof.
  intros H. unfold _checkAndMountAll.
  pose proof (asks_foldl_fst env (check_one env isStartup) s0
                (_bookmarks (_loadBookmarks env st))) as Hf.
  specialize (Hf ltac:(intros [st' [m t]] b H'; unfold check_one; simpl in *;
                       asks)
                (_loadBookmarks env st, (0, 0)%Z)
                ltac:(simpl; auto with asks)).
  destruct (foldl _ _ _) as [st2 [mounted total]]. simpl in Hf.
  destruct manual; auto with asks.
Qed.

Lemma asks_mountAllEnabled env s0 st :
  asks_right env s0 st -> asks_right env s0 (_mountAllEnabled env st).
Proof.
  intros H. unfold _mountAllEnabled.
  pose proof (asks_foldl_fst env (mount_enabled_one env) s0
                (List.filter (is_enabled st) (_bookmarks st))) as Hf.
  specialize (Hf ltac:(intros [st' c] b H'; unfold mount_enabled_one;
                       simpl in *; asks)
                (st, 0%Z) H).
  destruct (foldl _ _ _) as [st1 count]. simpl in Hf. auto with asks.
Qed.

Lemma asks_unmountAll env s0 st :
  asks_right env s0 st -> asks_right env s0 (_unmountAll env st).
Proof.
  intros H. unfold _unmountAll.
  pose proof (asks_foldl_fst env (unmount_one env) s0 (_bookmarks st)) as Hf.
  specialize (Hf ltac:(intros [st' c] b H'; unfold unmount_one;
                       simpl in *; asks)
                (st, 0%Z) H).
  destruct (foldl _ _ _) as [st1 count]. simpl in Hf. auto with asks.
Qed.

Lemma asks_startPeriodicCheck env s0 st :
  asks_right env s0 st -> asks_right env s0 (_startPeriodicCheck st).
Proof.
  intros H. unfold _startPeriodicCheck, timeout_add_seconds. asks.
Qed.

Lemma asks_set_fold_source_remove env s0 (ids : gset positive) st :
  asks_right env s0 st ->
  asks_right env s0 (set_fold source_remove st ids).
Proof.
  intros H.
  apply (set_fold_ind_L (fun st' _ => asks_right env s0 st')); [exact H |].
  intros id X st' _ H'. auto with asks.
Qed.

Lemma asks_destroy env s0 st :
  asks_right env s0 st -> asks_right env s0 (destroy env st).
Proof.
  intros H. unfold destroy, _cleanupAllSymlinks.
  apply asks_set_symlinkPaths, asks_foldl.
  - intros st' b H'. unfold cleanup_one. asks.
  - apply asks_set_timeoutIds, asks_set_fold_source_remove. asks.
Qed.

#[local] Hint Resolve asks_checkAndMountAll asks_mountAllEnabled
  asks_unmountAll asks_startPeriodicCheck asks_destroy : asks.

Lemma asks_fire env s0 st id :
  asks_right env s0 st -> asks_right env s0 (fire env st id).
Proof.
  intros H. unfold fire, run_callback.
  destruct (sources st !! id) as [src |]; [| exact H].
  destruct (callback src) as [| | b isStartup | b |]; auto 10 with asks.
  - destruct (heap st !! b) as [bk |]; auto 10 with asks.
    pose proof (asks_createSymlink env s0 st bk H) as Hc.
    destruct (_createSymlink env st bk) as [st1 created]. simpl in Hc.
    destruct isStartup; simpl; auto 10 with asks.
  - asks.
Qed.

Lemma asks_step env st a : asks_right env st (step env st a).
Proof.
  pose proof (asks_refl env st) as H.
  destruct a; simpl; auto using asks_fire with asks.
  - unfold _openSettings. asks.
  - unfold on_toggled. destruct (_bookmarks st !! index); [| exact H].
    apply asks_save, asks_alter; [| exact H]. intros bk. split; reflexivity.
  - unfold on_bookmark_settings_changed. asks.
Qed.

(** X23: whatever the action, it asks Gio to mount only bookmarks whose
    URI is not mounted and to unmount only bookmarks whose URI is mounted
    (in the mount table of the moment), and it leaves every bookmark
    object in place with the URI and the name that it had. *)
Theorem requests_follow_the_mount_table
    (env : Env) (st : State) (a : Action) :
  (forall b bk, heap st !! b = Some bk ->
     exists bk', heap (step env st a) !! b = Some bk'
                 /\ uri bk' = uri bk /\ name bk' = name bk)
  /\ (exists l, mount_requests (step env st a) = mount_requests st ++ l
        /\ Forall (fun r => exists bk, heap (step env st a) !! r.1 = Some bk
                     /\ _isLocationMounted env (uri bk) = false) l)
  /\ (exists l, unmount_requests (step env st a) = unmount_requests st ++ l
        /\ Forall (fun b => exists bk, heap (step env st a) !! b = Some bk
                     /\ _isLocationMounted env (uri bk) = true) l).
Proof. exact (asks_step env st a). Qed.

(** ** What no action does to the disk *)

Lemma fs_ext_refl f : fs_ext f f.
Proof. intros q. tauto. Qed.

Lemma fs_ext_trans f1 f2 f3 : fs_ext f1 f2 -> fs_ext f2 f3 -> fs_ext f1 f3.
Proof.
  intros H12 H23 q. destruct (H12 q) as [Hf1 Hd1], (H23 q) as [Hf2 Hd2].
  split; [rewrite Hf1; exact Hf2 | auto].
Qed.

Lemma fs_ext_remove env loc a : fs_ext a (remove_fs env loc a).
Proof.
  destruct (remove_fs_lookup env loc a) as [-> | [-> (t & Ht & _)]];
    [apply fs_ext_refl |].
  intros q. destruct (decide (loc = q)) as [<- | Hne].
  - rewrite lookup_delete_eq, Ht. split; [split |]; discriminate.
  - rewrite lookup_delete_ne by exact Hne. tauto.
Qed.

Lemma fs_ext_insert a p e :
  a !! p = None -> e <> EFile -> fs_ext a (<[p := e]> a).
Proof.
  intros Hp He q. destruct (decide (p = q)) as [<- | Hne].
  - rewrite lookup_insert_eq, Hp. split; [split |]; congruence.
  - rewrite lookup_insert_ne by exact Hne. tauto.
Qed.

Lemma fs_ext_createSymlink env st bk :
  fs_ext (fs st) (fs (_createSymlink env st bk).1).
Proof.
  destruct (createSymlink bk) eqn:Hcs;
    [| rewrite (createSymlink_off env st bk Hcs); apply fs_ext_refl].
  destruct (createSymlink_cases env st bk Hcs)
    as [(_ & -> & _) | (a & g & _ & _ & Ha & Hlink)]; [apply fs_ext_refl |].
  assert (fs_ext (fs st) a) as H1.
  { destruct Ha as [[-> _] | (-> & Hd & _)]; [apply fs_ext_refl |].
    apply fs_ext_insert; [exact Hd | discriminate]. }
  pose proof (fs_ext_remove env (located env st bk) a) as H2.
  destruct Hlink as [(_ & Hp & _ & -> & _) | (_ & _ & ->)].
  - eapply fs_ext_trans; [exact H1 |]. eapply fs_ext_trans; [exact H2 |].
    apply fs_ext_insert; [exact Hp | discriminate].
  - eapply fs_ext_trans; [exact H1 | exact H2].
Qed.

Lemma disk_refl st : disk_ext st st.
Proof. apply fs_ext_refl. Qed.

Lemma disk_trans s0 s1 s2 :
  disk_ext s0 s1 -> disk_ext s1 s2 -> disk_ext s0 s2.
Proof. apply fs_ext_trans. Qed.

Lemma disk_same_fs s0 st st' :
  fs st' = fs st -> disk_ext s0 st -> disk_ext s0 st'.
Proof. unfold disk_ext. intros ->. auto. Qed.

Ltac disk_same := intros H; exact (disk_same_fs _ _ _ eq_refl H).

Lemma disk_notify s0 st ttl msg isError :
  disk_ext s0 st -> disk_ext s0 (_notify st ttl msg isError).
Proof. apply disk_same_fs, notify_frame. Qed.

Lemma disk_removeSymlink env s0 st bk :
  disk_ext s0 st -> disk_ext s0 (_removeSymlink env st bk).1.
Proof.
  intros H. eapply fs_ext_trans; [exact H |].
  rewrite fs_removeSymlink. apply fs_ext_remove.
Qed.

Lemma disk_createSymlink env s0 st bk :
  disk_ext s0 st -> disk_ext s0 (_createSymlink env st bk).1.
Proof.
  intros H. eapply fs_ext_trans; [exact H | apply fs_ext_createSymlink].
Qed.

Lemma disk_log s0 st m : disk_ext s0 st -> disk_ext s0 (log m st).
Proof. disk_same. Qed.
Lemma disk_set_heap s0 st f : disk_ext s0 st -> disk_ext s0 (set_heap f st).
Proof. disk_same. Qed.
Lemma disk_set_bookmarks s0 st f :
  disk_ext s0 st -> disk_ext s0 (set_bookmarks f st).
Proof. disk_same. Qed.
Lemma disk_set_mountedLocations s0 st f :
  disk_ext s0 st -> disk_ext s0 (set_mountedLocations f st).
Proof. disk_same. Qed.
Lemma disk_set_symlinkPaths s0 st f :
  disk_ext s0 st -> disk_ext s0 (set_symlinkPaths f st).
Proof. disk_same. Qed.
Lemma disk_set_timeoutId s0 st f :
  disk_ext s0 st -> disk_ext s0 (set_timeoutId f st).
Proof. disk_same. Qed.
Lemma disk_set_timeoutIds s0 st f :
  disk_ext s0 st -> disk_ext s0 (set_timeoutIds f st).
Proof. disk_same. Qed.
Lemma disk_set_startup s0 st f :
  disk_ext s0 st -> disk_ext s0 (set_startupMountInProgress f st).
Proof. disk_same. Qed.
Lemma disk_set_sources s0 st f :
  disk_ext s0 st -> disk_ext s0 (set_sources f st).
Proof. disk_same. Qed.
Lemma disk_set_mount_requests s0 st f :
  disk_ext s0 st -> disk_ext s0 (set_mount_requests f st).
Proof. disk_same. Qed.
Lemma disk_set_unmount_requests s0 st f :
  disk_ext s0 st -> disk_ext s0 (set_unmount_requests f st).
Proof. disk_same. Qed.
Lemma disk_source_remove s0 st id :
  disk_ext s0 st -> disk_ext s0 (source_remove id st).
Proof. disk_same. Qed.
Lemma disk_save s0 st :
  disk_ext s0 st -> disk_ext s0 (_saveBookmarkSettings st).
Proof. disk_same. Qed.

Create HintDb disk.
#[local] Hint Resolve disk_refl disk_notify disk_removeSymlink
  disk_createSymlink disk_log disk_set_heap disk_set_bookmarks
  disk_set_mountedLocations disk_set_symlinkPaths disk_set_timeoutId
  disk_set_timeoutIds disk_set_startup disk_set_sources
  disk_set_mount_requests disk_set_unmount_requests disk_source_remove
  disk_save : disk.

Ltac disk := repeat case_match; simplify_eq; simpl; auto 20 with disk.

Lemma disk_foldl {A} (f : State -> A -> State) s0 (l : list A) :
  (forall st x, disk_ext s0 st -> disk_ext s0 (f st x)) ->
  forall st, disk_ext s0 st -> disk_ext s0 (foldl f st l).
Proof.
  intros Hf. induction l as [| x l IH]; intros st H; simpl; [exact H |].
  apply IH, Hf, H.
Qed.

Lemma disk_foldl_fst {A B} (f : State * B -> A -> State * B) s0
    (l : list A) :
  (forall acc x, disk_ext s0 acc.1 -> disk_ext s0 (f acc x).1) ->
  forall acc, disk_ext s0 acc.1 -> disk_ext s0 (foldl f acc l).1.
Proof.
  intros Hf. induction l as [| x l IH]; intros acc H; simpl; [exact H |].
  apply IH, Hf, H.
Qed.

Lemma disk_loadBookmarkSettings s0 st :
  disk_ext s0 st -> disk_ext s0 (_loadBookmarkSettings st).
Proof.
  intros H. unfold _loadBookmarkSettings. disk.
  apply disk_foldl; [| exact H].
  intros st' b H'. unfold load_one. disk.
Qed.

Lemma disk_updateBookmarksList env s0 st :
  disk_ext s0 st -> disk_ext s0 (_updateBookmarksList env st).
Proof.
  intros H. unfold _updateBookmarksList.
  apply disk_foldl; [| exact H].
  intros st' b H'. unfold refresh_one. disk.
Qed.

Lemma disk_alloc_all s0 bks :
  forall st, disk_ext s0 st -> disk_ext s0 (alloc_all st bks).1.
Proof.
  induction bks as [| bk bks IH]; intros st H; simpl; [exact H |].
  specialize (IH (set_heap (insert (fresh (dom (heap st))) bk) st)).
  destruct (alloc_all _ bks) as [st2 rs]. simpl in *. auto with disk.
Qed.

#[local] Hint Resolve disk_loadBookmarkSettings disk_updateBookmarksList
  : disk.

Lemma disk_loadBookmarks env s0 st :
  disk_ext s0 st -> disk_ext s0 (_loadBookmarks env st).
Proof.
  intros H. unfold _loadBookmarks.
  destruct (bookmarks_file env) as [| | | c]; auto 10 with disk.
  pose proof (disk_alloc_all s0 (parse_bookmarks env c) st H) as Ha.
  destruct (alloc_all st (parse_bookmarks env c)) as [st1 rs].
  simpl in Ha. auto 10 with disk.
Qed.

Lemma disk_scheduleRetry s0 st b d :
  disk_ext s0 st -> disk_ext s0 (_scheduleRetry st b d).
Proof. intros H. unfold _scheduleRetry, timeout_add_seconds. disk. Qed.

#[local] Hint Resolve disk_loadBookmarks disk_scheduleRetry : disk.

Lemma disk_handleMountFailure env s0 st b msg :
  disk_ext s0 st -> disk_ext s0 (_handleMountFailure env st b msg).
Proof. intros H. unfold _handleMountFailure. disk. Qed.

#[local] Hint Resolve disk_handleMountFailure : disk.

Lemma disk_mountLocation env s0 st b isRetry isStartup :
  disk_ext s0 st -> disk_ext s0 (_mountLocation env st b isRetry isStartup).
Proof. intros H. unfold _mountLocation. disk. Qed.

Lemma disk_mount_finished env s0 st b isStartup result :
  disk_ext s0 st -> disk_ext s0 (mount_finished env st b isStartup result).
Proof.
  intros H. unfold mount_finished, timeout_add_seconds. disk.
Qed.

Lemma disk_unmountLocation env s0 st b :
  disk_ext s0 st -> disk_ext s0 (_unmountLocation env st b).
Proof. intros H. unfold _unmountLocation. disk. Qed.

Lemma disk_unmount_finished s0 st b result :
  disk_ext s0 st -> disk_ext s0 (unmount_finished st b result).
Proof. intros H. unfold unmount_finished. disk. Qed.

#[local] Hint Resolve disk_mountLocation disk_mount_finished
  disk_unmountLocation disk_unmount_finished : disk.

Lemma disk_checkAndMountAll env s0 st manual isStartup :
  disk_ext s0 st -> disk_ext s0 (_checkAndMountAll env st manual isStartup).
Proof.
  intros H. unfold _checkAndMountAll.
  pose proof (disk_foldl_fst (check_one env isStartup) s0
                (_bookmarks (_loadBookmarks env st))) as Hf.
  specialize (Hf ltac:(intros [st' [m t]] b H'; unfold check_one; simpl in *;
                       disk)
                (_loadBookmarks env st, (0, 0)%Z)
                ltac:(simpl; auto with disk)).
  destruct (foldl _ _ _) as [st2 [mounted total]]. simpl in Hf.
  destruct manual; auto with disk.
Qed.

Lemma disk_mountAllEnabled env s0 st :
  disk_ext s0 st -> disk_ext s0 (_mountAllEnabled env st).
Proof.
  intros H. unfold _mountAllEnabled.
  pose proof (disk_foldl_fst (mount_enabled_one env) s0
                (List.filter (is_enabled st) (_bookmarks st))) as Hf.
  specialize (Hf ltac:(intros [st' c] b H'; unfold mount_enabled_one;
                       simpl in *; disk)
                (st, 0%Z) H).
  destruct (foldl _ _ _) as [st1 count]. simpl in Hf. auto with disk.
Qed.

Lemma disk_unmountAll env s0 st :
  disk_ext s0 st -> disk_ext s0 (_unmountAll env st).
Proof.
  intros H. unfold _unmountAll.
  pose proof (disk_foldl_fst (unmount_one env) s0 (_bookmarks st)) as Hf.
  specialize (Hf ltac:(intros [st' c] b H'; unfold unmount_one;
                       simpl in *; disk)
                (st, 0%Z) H).
  destruct (foldl _ _ _) as [st1 count]. simpl in Hf. auto with disk.
Qed.

Lemma disk_startPeriodicCheck s0 st :
  disk_ext s0 st -> disk_ext s0 (_startPeriodicCheck st).
Proof.
  intros H. unfold _startPeriodicCheck, timeout_add_seconds. disk.
Qed.

Lemma disk_set_fold_source_remove s0 (ids : gset positive) st :
  disk_ext s0 st -> disk_ext s0 (set_fold source_remove st ids).
Proof.
  intros H.
  apply (set_fold_ind_L (fun st' _ => disk_ext s0 st')); [exact H |].
  intros id X st' _ H'. auto with disk.
Qed.

Lemma disk_destroy env s0 st : disk_ext s0 st -> disk_ext s0 (destroy env st).
Proof.
  intros H. unfold destroy, _cleanupAllSymlinks.
  apply disk_set_symlinkPaths, disk_foldl.
  - intros st' b H'. unfold cleanup_one. disk.
  - apply disk_set_timeoutIds, disk_set_fold_source_remove. disk.
Qed.

#[local] Hint Resolve disk_checkAndMountAll disk_mountAllEnabled
  disk_unmountAll disk_startPeriodicCheck disk_destroy : disk.

Lemma disk_fire env s0 st id : disk_ext s0 st -> disk_ext s0 (fire env st id).
Proof.
  intros H. unfold fire, run_callback.
  destruct (sources st !! id) as [src |]; [| exact H].
  destruct (callback src) as [| | b isStartup | b |]; auto 10 with disk.
  - destruct (heap st !! b) as [bk |]; auto 10 with disk.
    pose proof (disk_createSymlink env s0 st bk H) as Hc.
    destruct (_createSymlink env st bk) as [st1 created]. simpl in Hc.
    destruct isStartup; simpl; auto 10 with disk.
  - disk.
Qed.

Lemma disk_step env st a : disk_ext st (step env st a).
Proof.
  pose proof (disk_refl st) as H.
  destruct a; simpl; auto using disk_fire with disk.
  - unfold _openSettings. disk.
  - unfold on_toggled. disk.
  - unfold on_bookmark_settings_changed. disk.
Qed.

(** X24: whatever the action, it leaves every regular file and every
    directory of the disk in place and makes no regular file: what the
    extension deletes or replaces is a symbolic link, and what it makes is
    a directory or a symbolic link. *)
Theorem no_action_touches_files_or_directories
    (env : Env) (st : State) (a : Action) (q : jsstring) :
  (fs st !! q = Some EFile <-> fs (step env st a) !! q = Some EFile)
  /\ (fs st !! q = Some EDir -> fs (step env st a) !! q = Some EDir).
Proof. exact (disk_step env st a q). Qed.
